(** * DroNETworkSimulator: entities of the simulation (src/entities/uav_entities.py)

    A shallow embedding of the entity layer: [Entity], [Event], [Packet],
    [Depot] and [Drone], with the operations that drive the packet buffers,
    the feedback broadcast, the energy ledger and the movement of a drone.

    Conventions.
    - Python integers are [Z].  Python floats (speed, energy, durations,
      coordinates, distances) are binary64 values.  A finite one is held as
      the rational it denotes, and the arithmetic of floats rounds to the
      nearest binary64 value, ties to even, overflowing to an infinity, as
      [Float] defines it.  The attributes hold finite numbers: a call that
      would store an infinity or a not-a-number ends in [NotFinite] and is
      followed no further.
    - Packets are shared between buffers and written in place: they live
      in a store indexed by their address, and buffers hold addresses.  A
      packet holds its event by value: [decrease_deadline], the one method
      that writes an event, returns the packet it is called on, and the
      other packets of the event are not followed.
    - The routing strategies are not part of the file: the calls to their
      [feedback] are recorded in order.  The metrics are the counters, sets
      and lists that the entities write.
    - What the interpreter supplies (the address of a new object, a random
      sample) is an argument of the operation that needs it. *)

From stdpp Require Import gmap list strings.
From Stdlib Require Import ZArith QArith Qabs Qround Qminmax Qpower Lia Lqa.

Local Open Scope Z_scope.

(** ** Python built-ins used by the file *)

Module Py.

(** [hash] of a number, as the language reference defines it for every
    rational value (int, float and Fraction agree): reduction modulo the
    Mersenne prime 2^61 - 1. *)
Definition HASH_MODULUS : Z := 2 ^ 61 - 1.
Definition HASH_INF : Z := 314159.

Fixpoint pow_mod (b : Z) (e : positive) (m : Z) : Z :=
  match e with
  | xH => b mod m
  | xO e' => let r := pow_mod b e' m in (r * r) mod m
  | xI e' => let r := pow_mod b e' m in ((r * r) mod m * (b mod m)) mod m
  end.

Definition hash_fraction (m n : Z) : Z :=
  let P := HASH_MODULUS in
  let h :=
    if n mod P =? 0 then HASH_INF
    else ((Z.abs m mod P) * pow_mod n (Z.to_pos (P - 2)) P) mod P in
  let h := if m <? 0 then - h else h in
  if h =? -1 then -2 else h.

Definition hash_int (i : Z) : Z := hash_fraction i 1.

Definition hash_num (q : Q) : Z :=
  let r := Qred q in hash_fraction (Qnum r) (Zpos (Qden r)).

(** [hash] of a tuple, from the hashes of its items (CPython 3.8 and
    later, 64-bit build). *)
Definition XXPRIME_1 : Z := 11400714785074694791.
Definition XXPRIME_2 : Z := 14029467366897019727.
Definition XXPRIME_5 : Z := 2870177450012600261.
Definition wrap64 (x : Z) : Z := x mod 2 ^ 64.
Definition XXROTATE (x : Z) : Z :=
  wrap64 (Z.lor (Z.shiftl x 31) (Z.shiftr x 33)).

Definition hash_tuple (items : list Z) : Z :=
  let acc :=
    fold_left
      (fun acc lane =>
         let acc := wrap64 (acc + wrap64 lane * XXPRIME_2) in
         let acc := XXROTATE acc in
         wrap64 (acc * XXPRIME_1))
      items XXPRIME_5 in
  let acc :=
    wrap64 (acc + Z.lxor (Z.of_nat (length items))
                         (Z.lxor XXPRIME_5 3527539)) in
  if acc =? 2 ^ 64 - 1 then 1546275796
  else if acc <? 2 ^ 63 then acc else acc - 2 ^ 64.

(** [needle in haystack] on two strings: substring search. *)
Fixpoint str_in (needle haystack : string) : bool :=
  String.prefix needle haystack
  || match haystack with
     | EmptyString => false
     | String _ rest => str_in needle rest
     end.

End Py.

(** ** Floats *)

(** binary64, on the rationals: 53 bits of precision, the least unit in the
    last place 2^-1074, and every number below 2^1024 in magnitude.  Zero
    has no sign here: no operation of the file tells the two zeros apart. *)
Module Float.

Definition pow2 (e : Z) : Q := (2 ^ e)%Q.

(** The integer part of the binary logarithm of a positive rational. *)
Definition ilog2 (q : Q) : Z :=
  let k := Z.log2 (Qnum q) - Z.log2 (Zpos (Qden q)) in
  if Qle_bool (pow2 k) q then k else k - 1.

(** Rounding to the nearest integer, a tie to the even one. *)
Definition rne (q : Q) : Z :=
  let f := Qfloor q in
  match (q - inject_Z f ?= 1 # 2)%Q with
  | Lt => f
  | Gt => f + 1
  | Eq => if Z.even f then f else f + 1
  end.

(** The exponent of the unit in the last place of a positive rational. *)
Definition ulp_exponent (q : Q) : Z := Z.max (ilog2 q - 52) (-1074).

Definition nearest_pos (q : Q) : Q :=
  let e := ulp_exponent q in
  (inject_Z (rne (q / pow2 e)) * pow2 e)%Q.

(** The nearest number of 53 significant bits, in lowest terms, whatever
    its size. *)
Definition nearest (q : Q) : Q :=
  match (q ?= 0)%Q with
  | Eq => 0%Q
  | Gt => Qred (nearest_pos q)
  | Lt => Qred (- nearest_pos (- q))
  end.

Inductive float :=
| finite (q : Q)
| infinity (negative : bool)
| nan.

Definition huge : Q := pow2 1024.

(** The float a rational rounds to. *)
Definition round (q : Q) : float :=
  let r := nearest q in
  if Qle_bool huge r then infinity false
  else if Qle_bool r (- huge) then infinity true
  else finite r.

Definition negative (q : Q) : bool := negb (Qle_bool 0 q).

Definition add (x y : float) : float :=
  match x, y with
  | finite a, finite b => round (a + b)
  | finite _, infinity s | infinity s, finite _ => infinity s
  | infinity s, infinity s' => if Bool.eqb s s' then infinity s else nan
  | _, _ => nan
  end.

Definition sub (x y : float) : float :=
  match x, y with
  | finite a, finite b => round (a - b)
  | finite _, infinity s => infinity (negb s)
  | infinity s, finite _ => infinity s
  | infinity s, infinity s' => if Bool.eqb s s' then nan else infinity s
  | _, _ => nan
  end.

Definition mul (x y : float) : float :=
  match x, y with
  | finite a, finite b => round (a * b)
  | finite a, infinity s | infinity s, finite a =>
    if Qeq_bool a 0 then nan else infinity (xorb s (negative a))
  | infinity s, infinity s' => infinity (xorb s s')
  | _, _ => nan
  end.

(** The quotient by a divisor that is not zero (by zero, Python raises). *)
Definition div (x y : float) : float :=
  match x, y with
  | finite a, finite b => round (a / b)
  | finite _, infinity _ => finite 0
  | infinity s, finite b => infinity (xorb s (negative b))
  | _, _ => nan
  end.

(** Comparisons: each is false when a side is not-a-number. *)
Definition eqb (x y : float) : bool :=
  match x, y with
  | finite a, finite b => Qeq_bool a b
  | infinity s, infinity s' => Bool.eqb s s'
  | _, _ => false
  end.

Definition leb (x y : float) : bool :=
  match x, y with
  | finite a, finite b => Qle_bool a b
  | infinity true, (finite _ | infinity _) => true
  | (finite _ | infinity _), infinity false => true
  | _, _ => false
  end.

Definition ltb (x y : float) : bool :=
  match x, y with
  | nan, _ | _, nan => false
  | _, _ => negb (leb y x)
  end.

(** The numbers of the format: an integer of at most 53 bits times a power
    of two that is not below 2^-1074. *)
Definition representable (q : Q) : Prop :=
  exists m e : Z,
    (q == inject_Z m * pow2 e)%Q /\ Z.abs m < 2 ^ 53 /\ -1074 <= e.

(** The numbers that rounding leaves as they are. *)
Definition is_exact (q : Q) : Prop := (nearest q == q)%Q.

(** The values of the finite floats. *)
Definition is_float (q : Q) : Prop := round q = finite (Qred q).

Definition le (x y : float) : Prop := leb x y = true.
Definition lt (x y : float) : Prop := ltb x y = true.

End Float.

Coercion Float.finite : Q >-> Float.float.
Arguments Float.add (x y)%_Q.
Arguments Float.sub (x y)%_Q.
Arguments Float.mul (x y)%_Q.
Arguments Float.div (x y)%_Q.
Arguments Float.eqb (x y)%_Q.
Arguments Float.leb (x y)%_Q.
Arguments Float.ltb (x y)%_Q.
Arguments Float.le (x y)%_Q.
Arguments Float.lt (x y)%_Q.

(** Indexing a list the way Python does: a negative index counts from the
    end, an index out of range raises [IndexError]. *)
Definition getitem {A : Type} (l : list A) (i : Z) : option A :=
  let n := Z.of_nat (length l) in
  if (0 <=? i) && (i <? n) then l !! Z.to_nat i
  else if (- n <=? i) && (i <? 0) then l !! Z.to_nat (n + i)
  else None.

(** How a call ends: with a value, with an exception, by leaving the
    interpreter ([exit]), or, for the embedding, with a float to store that
    is not finite. *)
Inductive exception :=
| TypeError | ZeroDivisionError | IndexError | OverflowError.

Inductive result (A : Type) :=
| Return (a : A)
| Raise (e : exception)
| Exit (code : Z)
| NotFinite.
Arguments Return {A} a.
Arguments Raise {A} e.
Arguments Exit {A} code.
Arguments NotFinite {A}.

(** The value an attribute takes when a float is assigned to it. *)
Definition stored (x : Float.float) : result Q :=
  match x with
  | Float.finite q => Return q
  | _ => NotFinite
  end.

(** The float of an integer, as an operation of a float with an integer
    first takes it: the nearest one, and [OverflowError] beyond them. *)
Definition float_of_int (i : Z) : result Float.float :=
  match Float.round (inject_Z i) with
  | Float.finite q => Return (Float.finite q)
  | _ => Raise OverflowError
  end.

(** ** The data model *)

Definition coordinates : Type := Q * Q.

(** A reference to an object: the value of [id(obj)]. *)
Abbreviation ref := Z (only parsing).

Record Entity := mkEntity {
  identifier : Z;
  coords : coordinates
}.

Record Event := mkEvent {
  Event_entity :> Entity;
  current_time : Z;
  deadline : Z
}.

(** [last_2_hops] holds drones; a drone is recorded by its identifier.
    [optional_data] and [is_move_packet], which no method of the file
    reads, are left out. *)
Record Packet := mkPacket {
  Packet_entity :> Entity;
  time_step_creation : Z;
  event_ref : Event;
  _Packet__TTL : Z;
  _Packet__max_TTL : Z;
  number_retransmission_attempt : Z;
  accumulated_delay : Q;
  packet_size : Q;
  last_2_hops : list Z;
  time_delivery : option Z
}.

(** [communication_range], which no method of the file reads, is left
    out. *)
Record Depot := mkDepot {
  Depot_entity :> Entity;
  _Depot__buffer : list ref
}.

(** The values [tightest_event_deadline] takes after [update_packets]:
    a finite float or numpy's not-a-number.  Before the first call the
    attribute is Python's [None], the outer [option]. *)
Inductive float_or_nan := NaN | Num (x : Q).

Definition as_float (t : float_or_nan) : Float.float :=
  match t with
  | NaN => Float.nan
  | Num x => Float.finite x
  end.

(** Of its depot a drone reads the coordinates alone, [depot_coords].  The
    ranges, the transmission rate and the routing strategy, which no method
    modelled here reads, are left out. *)
Record Drone := mkDrone {
  Drone_entity :> Entity;
  depot_coords : coordinates;
  path : list coordinates;
  speed : Q;
  buffer_max_size : Z;
  residual_energy : Q;
  initial_energy : Q;
  come_back_to_mission : bool;
  last_move_routing : bool;
  accumulated_moving_energy : Q;
  accumulated_hello_energy : Q;
  accumulated_send_energy : Q;
  tightest_event_deadline : option float_or_nan;
  current_waypoint : Z;
  _Drone__buffer : list ref;
  distance_from_depot : Q;
  move_routing : bool;
  last_mission_coords : option coordinates
}.

(** The parameters of the simulation that the entities read. *)
Record Simulator := mkSimulator {
  event_duration : Z;
  time_step_duration : Q;
  packets_max_ttl : Z;
  drone_speed : Q;
  drone_max_buffer_size : Z;
  drone_max_energy : Q;
  routing_algorithm_name : string;
  drones : list Z
}.

(** One call [drone.routing_algorithm.feedback(current_drone, id_event,
    delay, outcome, reward, None, None)]; [fb_receiver] is the drone whose
    strategy is called. *)
Record Feedback := mkFeedback {
  fb_receiver : Z;
  fb_drone : Z;
  fb_id_event : Z;
  fb_delay : Z;
  fb_outcome : Z;
  fb_reward : Z
}.

Record Metrics := mkMetrics {
  events : gset Z;
  drones_packets : gset ref;
  all_data_packets_in_simulation : Z;
  events_not_listened : gset Z;
  drones_packets_to_depot : gset (ref * Z);
  drones_packets_to_depot_list : list (ref * Z);
  time_on_active_routing : Z;
  time_on_mission : Z
}.

(** The state the entities share: the packet at each address, the metrics
    and the calls received by the routing strategies, oldest first. *)
Record World := mkWorld {
  packets : ref -> Packet;
  metrics : Metrics;
  feedbacks : list Feedback
}.

Definition set_packet (w : World) (r : ref) (p : Packet) : World :=
  mkWorld (fun r' => if decide (r' = r) then p else packets w r')
          (metrics w) (feedbacks w).

Definition set_metrics (w : World) (m : Metrics) : World :=
  mkWorld (packets w) m (feedbacks w).

Definition call_feedback (w : World) (fb : Feedback) : World :=
  mkWorld (packets w) (metrics w) (feedbacks w ++ [fb]).

#[global] Instance result_ret : MRet result := @Return.

#[global] Instance result_bind : MBind result :=
  fun A B (k : A -> result B) (c : result A) =>
    match c with
    | Return a => k a
    | Raise e => Raise e
    | Exit code => Exit code
    | NotFinite => NotFinite
    end.

(** ** Entity *)

(** What [__eq__] may be compared with: an entity, or anything else. *)
Inductive object := IsEntity (e : Entity) | NotEntity.

Definition Entity__eq__ (self : Entity) (other : object) : bool :=
  match other with
  | NotEntity => false
  | IsEntity other => identifier other =? identifier self
  end.

Definition hash_coords (c : coordinates) : Z :=
  Py.hash_tuple [Py.hash_num (fst c); Py.hash_num (snd c)].

Definition Entity__hash__ (self : Entity) : Z :=
  Py.hash_tuple [Py.hash_int (identifier self); hash_coords (coords self)].

(** ** Event *)

Definition coords_eqb (a b : coordinates) : bool :=
  Qeq_bool (fst a) (fst b) && Qeq_bool (snd a) (snd b).

(** [Event(coords, current_time, simulator, deadline)]; [self] is the
    address of the new object, which becomes its identifier. *)
Definition Event__init__ (sim : Simulator) (w : World) (self : ref)
    (coords : coordinates) (current_time : Z) (deadline : option Z)
  : World * Event :=
  let ev :=
    mkEvent (mkEntity self coords) current_time
      (match deadline with
       | None => current_time + event_duration sim
       | Some d => d
       end) in
  if negb (coords_eqb coords (-1, -1)%Q) && negb (current_time =? -1)
  then
    let m := metrics w in
    (set_metrics w
       (mkMetrics ({[ self ]} ∪ events m) (drones_packets m)
          (all_data_packets_in_simulation m) (events_not_listened m)
          (drones_packets_to_depot m) (drones_packets_to_depot_list m)
          (time_on_active_routing m) (time_on_mission m)), ev)
  else (w, ev).

Definition Event_is_expired (self : Event) (cur_step : Z) : bool :=
  cur_step >? deadline self.

(** ** Packet *)

(** [Packet(time_step_creation, simulator, event_ref)]; [self] is the
    address of the new packet, [placeholder] the address of the default
    event built when [event_ref] is [None], [size] the sampled size. *)
Definition Packet__init__ (sim : Simulator) (w : World) (self : ref)
    (time_step_creation : Z) (event_ref : option Event)
    (placeholder : ref) (size : Q) : World :=
  let '(w, event_ref_crafted) :=
    match event_ref with
    | Some ev => (w, ev)
    | None => Event__init__ sim w placeholder (-1, -1)%Q (-1) None
    end in
  let pck :=
    mkPacket (mkEntity self (coords event_ref_crafted)) time_step_creation
      event_ref_crafted (-1) (packets_max_ttl sim) 0 0 size [] None in
  let w := set_packet w self pck in
  match event_ref with
  | Some _ =>
    let m := metrics w in
    set_metrics w
      (mkMetrics (events m) ({[ self ]} ∪ drones_packets m)
         (all_data_packets_in_simulation m) (events_not_listened m)
         (drones_packets_to_depot m) (drones_packets_to_depot_list m)
         (time_on_active_routing m) (time_on_mission m))
  | None => w
  end.

Definition Packet_age_of_packet (self : Packet) (cur_step : Z) : Z :=
  cur_step - time_step_creation self.

Definition Packet_increase_TTL_hops (self : Packet) : Packet :=
  mkPacket (Packet_entity self) (time_step_creation self) (event_ref self)
    (_Packet__TTL self + 1) (_Packet__max_TTL self)
    (number_retransmission_attempt self) (accumulated_delay self)
    (packet_size self) (last_2_hops self) (time_delivery self).

Definition set_last_2_hops (self : Packet) (hops : list Z) : Packet :=
  mkPacket (Packet_entity self) (time_step_creation self) (event_ref self)
    (_Packet__TTL self) (_Packet__max_TTL self)
    (number_retransmission_attempt self) (accumulated_delay self)
    (packet_size self) hops (time_delivery self).

Definition set_time_delivery (self : Packet) (t : option Z) : Packet :=
  mkPacket (Packet_entity self) (time_step_creation self) (event_ref self)
    (_Packet__TTL self) (_Packet__max_TTL self)
    (number_retransmission_attempt self) (accumulated_delay self)
    (packet_size self) (last_2_hops self) t.

Definition Packet_add_hop (self : Packet) (drone : Z) : Packet :=
  let self :=
    if (length (last_2_hops self) =? 2)%nat
    then set_last_2_hops self (tail (last_2_hops self))
    else self in
  let self := set_last_2_hops self (last_2_hops self ++ [drone]) in
  Packet_increase_TTL_hops self.

Definition Packet_get_TTL (self : Packet) : Z := _Packet__TTL self.

Definition Packet_is_expired (self : Packet) (cur_step : Z) : bool :=
  cur_step >? deadline (event_ref self).

Definition Packet_get_packet_size (self : Packet) : Q := packet_size self.

(** [Event.as_packet]: a data packet for the event, with [drone] as its
    first hop.  [pck] is the address of the new packet. *)
Definition Event_as_packet (sim : Simulator) (w : World) (self : Event)
    (time_step_creation : Z) (drone : Z) (pck : ref) (size : Q)
  : World * ref :=
  let w := Packet__init__ sim w pck time_step_creation (Some self) 0 size in
  let w := set_packet w pck (Packet_add_hop (packets w pck) drone) in
  (w, pck).

(** ** Drone: construction and attribute updates *)

(** [Drone(identifier, path, depot, simulator)]; [speed_sample] and
    [energy_sample] are the two Gaussian samples the constructor draws. *)
Definition Drone__init__ (sim : Simulator) (identifier : Z)
    (path : list coordinates) (depot : Depot) (speed_sample energy_sample : Q)
  : result Drone :=
  match getitem path 0 with
  | None => Raise IndexError
  | Some start =>
    speed ← stored (Float.add (drone_speed sim) speed_sample);
    residual_energy ← stored (Float.add (drone_max_energy sim) energy_sample);
    Return
      (mkDrone (mkEntity identifier start) (coords depot) path
         speed (drone_max_buffer_size sim)
         residual_energy residual_energy false false 0 0 0 None 0 [] 0 false
         None)
  end.

Definition set_buffer (d : Drone) (b : list ref) : Drone :=
  mkDrone (Drone_entity d) (depot_coords d) (path d) (speed d)
    (buffer_max_size d) (residual_energy d) (initial_energy d)
    (come_back_to_mission d) (last_move_routing d)
    (accumulated_moving_energy d) (accumulated_hello_energy d)
    (accumulated_send_energy d) (tightest_event_deadline d)
    (current_waypoint d) b (distance_from_depot d) (move_routing d)
    (last_mission_coords d).

Definition set_tightest_event_deadline (d : Drone) (t : option float_or_nan)
  : Drone :=
  mkDrone (Drone_entity d) (depot_coords d) (path d) (speed d)
    (buffer_max_size d) (residual_energy d) (initial_energy d)
    (come_back_to_mission d) (last_move_routing d)
    (accumulated_moving_energy d) (accumulated_hello_energy d)
    (accumulated_send_energy d) t
    (current_waypoint d) (_Drone__buffer d) (distance_from_depot d)
    (move_routing d) (last_mission_coords d).

Definition set_move_routing (d : Drone) (b : bool) : Drone :=
  mkDrone (Drone_entity d) (depot_coords d) (path d) (speed d)
    (buffer_max_size d) (residual_energy d) (initial_energy d)
    (come_back_to_mission d) (last_move_routing d)
    (accumulated_moving_energy d) (accumulated_hello_energy d)
    (accumulated_send_energy d) (tightest_event_deadline d)
    (current_waypoint d) (_Drone__buffer d) (distance_from_depot d) b
    (last_mission_coords d).

Definition set_come_back_to_mission (d : Drone) (b : bool) : Drone :=
  mkDrone (Drone_entity d) (depot_coords d) (path d) (speed d)
    (buffer_max_size d) (residual_energy d) (initial_energy d)
    b (last_move_routing d)
    (accumulated_moving_energy d) (accumulated_hello_energy d)
    (accumulated_send_energy d) (tightest_event_deadline d)
    (current_waypoint d) (_Drone__buffer d) (distance_from_depot d)
    (move_routing d) (last_mission_coords d).

Definition set_last_move_routing (d : Drone) (b : bool) : Drone :=
  mkDrone (Drone_entity d) (depot_coords d) (path d) (speed d)
    (buffer_max_size d) (residual_energy d) (initial_energy d)
    (come_back_to_mission d) b
    (accumulated_moving_energy d) (accumulated_hello_energy d)
    (accumulated_send_energy d) (tightest_event_deadline d)
    (current_waypoint d) (_Drone__buffer d) (distance_from_depot d)
    (move_routing d) (last_mission_coords d).

Definition set_last_mission_coords (d : Drone) (c : option coordinates)
  : Drone :=
  mkDrone (Drone_entity d) (depot_coords d) (path d) (speed d)
    (buffer_max_size d) (residual_energy d) (initial_energy d)
    (come_back_to_mission d) (last_move_routing d)
    (accumulated_moving_energy d) (accumulated_hello_energy d)
    (accumulated_send_energy d) (tightest_event_deadline d)
    (current_waypoint d) (_Drone__buffer d) (distance_from_depot d)
    (move_routing d) c.

Definition set_current_waypoint (d : Drone) (i : Z) : Drone :=
  mkDrone (Drone_entity d) (depot_coords d) (path d) (speed d)
    (buffer_max_size d) (residual_energy d) (initial_energy d)
    (come_back_to_mission d) (last_move_routing d)
    (accumulated_moving_energy d) (accumulated_hello_energy d)
    (accumulated_send_energy d) (tightest_event_deadline d)
    i (_Drone__buffer d) (distance_from_depot d)
    (move_routing d) (last_mission_coords d).

Definition set_coords (d : Drone) (c : coordinates) : Drone :=
  mkDrone (mkEntity (identifier d) c) (depot_coords d) (path d) (speed d)
    (buffer_max_size d) (residual_energy d) (initial_energy d)
    (come_back_to_mission d) (last_move_routing d)
    (accumulated_moving_energy d) (accumulated_hello_energy d)
    (accumulated_send_energy d) (tightest_event_deadline d)
    (current_waypoint d) (_Drone__buffer d) (distance_from_depot d)
    (move_routing d) (last_mission_coords d).

Definition set_distance_from_depot (d : Drone) (x : Q) : Drone :=
  mkDrone (Drone_entity d) (depot_coords d) (path d) (speed d)
    (buffer_max_size d) (residual_energy d) (initial_energy d)
    (come_back_to_mission d) (last_move_routing d)
    (accumulated_moving_energy d) (accumulated_hello_energy d)
    (accumulated_send_energy d) (tightest_event_deadline d)
    (current_waypoint d) (_Drone__buffer d) x
    (move_routing d) (last_mission_coords d).

(** The four attributes of the energy ledger, written together. *)
Definition set_energy (d : Drone) (residual moving hello send : Q) : Drone :=
  mkDrone (Drone_entity d) (depot_coords d) (path d) (speed d)
    (buffer_max_size d) residual (initial_energy d)
    (come_back_to_mission d) (last_move_routing d)
    moving hello send (tightest_event_deadline d)
    (current_waypoint d) (_Drone__buffer d) (distance_from_depot d)
    (move_routing d) (last_mission_coords d).

(** ** Feedback broadcast *)

(** The test [self.simulator.routing_algorithm.name not in "GEO" "RND" "GEOS"]:
    the three adjacent literals are one string, and [in] on strings is a
    substring search. *)
Definition exempted_names : string := "GEO" +:+ "RND" +:+ "GEOS".

Definition broadcasts_feedback (sim : Simulator) : bool :=
  negb (Py.str_in (routing_algorithm_name sim) exempted_names).

(** [for drone in self.simulator.drones: drone.routing_algorithm.feedback(...)] *)
Definition broadcast (sim : Simulator) (w : World)
    (current_drone id_event delay outcome reward : Z) : World :=
  fold_left
    (fun w drone =>
       call_feedback w
         (mkFeedback drone current_drone id_event delay outcome reward))
    (drones sim) w.

(** ** Drone: the buffer *)


Definition Drone_get_buffer (self : Drone) : list ref := _Drone__buffer self.

Definition Drone_all_packets (self : Drone) : list ref := _Drone__buffer self.

Definition Drone_buffer_length (self : Drone) : Z :=
  Z.of_nat (length (_Drone__buffer self)).

Definition Drone_empty_buffer (self : Drone) : Drone := set_buffer self [].

Definition Drone_is_full (self : Drone) : bool :=
  Drone_buffer_length self =? buffer_max_size self.

(** [np.nanmin] of a list of numbers: the list becomes an array of
    binary64 values, each number the float nearest to it, and the result is
    the least of them, not-a-number when there is none.  The numbers are
    below 2^1024 in magnitude: a larger integer has no float. *)
Definition np_nanmin (xs : list float_or_nan) : float_or_nan :=
  fold_left
    (fun acc x =>
       match acc, x with
       | _, NaN => acc
       | NaN, Num b => Num (Float.nearest b)
       | Num a, Num b => Num (Qmin a (Float.nearest b))
       end)
    xs NaN.

(** The state of the loop of [update_packets]. *)
Record update_loop := mkLoop {
  loop_world : World;
  tmp_buffer : list ref;
  loop_tightest : float_or_nan
}.

Definition update_packets_body (sim : Simulator) (self : Drone)
    (cur_step : Z) (st : update_loop) (pck : ref) : update_loop :=
  let w := loop_world st in
  let p := packets w pck in
  if negb (Packet_is_expired p cur_step) then
    mkLoop w (tmp_buffer st ++ [pck])
      (np_nanmin
         [loop_tightest st; Num (inject_Z (deadline (event_ref p)))])
  else
    let w :=
      if broadcasts_feedback sim then
        broadcast sim w (identifier self) (identifier (event_ref p))
          (event_duration sim) (-1) (-100)
      else w in
    mkLoop w (tmp_buffer st) (loop_tightest st).

Definition Drone_update_packets (sim : Simulator) (w : World) (self : Drone)
    (cur_step : Z) : World * Drone :=
  let st :=
    fold_left (update_packets_body sim self cur_step) (_Drone__buffer self)
      (mkLoop w [] NaN) in
  let self := set_tightest_event_deadline self (Some (loop_tightest st)) in
  let self := set_buffer self (tmp_buffer st) in
  let self :=
    if Drone_buffer_length self =? 0 then set_move_routing self false
    else self in
  (loop_world st, self).

(** A division of floats by zero raises; so does arithmetic on [None].
    The step, an integer, is taken as a float.  Every comparison with
    not-a-number is false. *)
Definition Drone_packet_is_expiring (sim : Simulator) (self : Drone)
    (cur_step : Z) : result bool :=
  if Qeq_bool (speed self) 0 then Raise ZeroDivisionError
  else
    let time_to_depot := Float.div (distance_from_depot self) (speed self) in
    match tightest_event_deadline self with
    | None => Raise TypeError
    | Some tightest =>
      step ← float_of_int cur_step;
      let event_time_to_dead :=
        Float.mul (Float.sub (as_float tightest) step)
          (time_step_duration sim) in
      Return (Float.ltb (Float.sub event_time_to_dead 5) time_to_depot
              && Float.leb time_to_depot event_time_to_dead)
    end.

Definition Drone_is_known_packet (w : World) (self : Drone) (packet : ref)
  : bool :=
  existsb
    (fun pk =>
       Entity__eq__ (event_ref (packets w pk))
         (IsEntity (event_ref (packets w packet))))
    (_Drone__buffer self).

Definition Drone_accept_packets (w : World) (self : Drone)
    (packets : list ref) : Drone :=
  fold_left
    (fun self packet =>
       if negb (Drone_is_known_packet w self packet)
       then set_buffer self (_Drone__buffer self ++ [packet])
       else self)
    packets self.

(** [packet in self.__buffer] and [self.__buffer.remove(packet)] compare
    by identity first, then with [__eq__]. *)
Definition packet_eqb (w : World) (a b : ref) : bool :=
  (a =? b) || Entity__eq__ (packets w a) (IsEntity (packets w b)).

Fixpoint list_remove (w : World) (buffer : list ref) (packet : ref)
  : list ref :=
  match buffer with
  | [] => []
  | pk :: rest =>
    if packet_eqb w pk packet then rest
    else pk :: list_remove w rest packet
  end.

(** [remove_packets(packets)], for a list [packets] of its own.  A call on
    the buffer itself ([all_packets] returns it), where the loop would read
    the list it shortens, is not followed. *)
Definition Drone_remove_packets (w : World) (self : Drone)
    (packets : list ref) : Drone :=
  fold_left
    (fun self packet =>
       if existsb (packet_eqb w packet) (_Drone__buffer self)
       then set_buffer self (list_remove w (_Drone__buffer self) packet)
       else self)
    packets self.

(** [feel_event]; [ev] and [pk] are the addresses of the new event and of
    the new packet, [size] the sampled size of the packet. *)
Definition Drone_feel_event (sim : Simulator) (w : World) (self : Drone)
    (cur_step : Z) (ev pk : ref) (size : Q) : World * Drone :=
  let '(w, event) := Event__init__ sim w ev (coords self) cur_step None in
  let '(w, pk) :=
    Event_as_packet sim w event cur_step (identifier self) pk size in
  let m := metrics w in
  if negb (move_routing self) && negb (come_back_to_mission self) then
    (set_metrics w
       (mkMetrics (events m) (drones_packets m)
          (all_data_packets_in_simulation m + 1) (events_not_listened m)
          (drones_packets_to_depot m) (drones_packets_to_depot_list m)
          (time_on_active_routing m) (time_on_mission m)),
     set_buffer self (_Drone__buffer self ++ [pk]))
  else
    (set_metrics w
       (mkMetrics (events m) (drones_packets m)
          (all_data_packets_in_simulation m)
          ({[ identifier event ]} ∪ events_not_listened m)
          (drones_packets_to_depot m) (drones_packets_to_depot_list m)
          (time_on_active_routing m) (time_on_mission m)),
     self).

(** ** Drone: the energy ledger *)

(** The energy left is a float.  The send and hello counters start at the
    integer 0 and grow by integers: they stay integers, whose sums are
    exact.  The moving counter grows by a float. *)
Definition Drone_decrease_energy (self : Drone) (action : string)
  : result Drone :=
  if String.eqb action "transmission" then
    residual ← stored (Float.sub (residual_energy self) 100);
    Return
      (set_energy self residual
         (accumulated_moving_energy self) (accumulated_hello_energy self)
         (accumulated_send_energy self + 100)%Q)
  else if String.eqb action "move" then
    residual ←
      stored (Float.sub (residual_energy self) (Float.mul (speed self) 100));
    moving ←
      stored (Float.add (accumulated_moving_energy self)
                (Float.mul (speed self) 100));
    Return
      (set_energy self residual moving
         (accumulated_hello_energy self) (accumulated_send_energy self))
  else if String.eqb action "hello" then
    residual ← stored (Float.sub (residual_energy self) 10);
    Return
      (set_energy self residual
         (accumulated_moving_energy self)
         (accumulated_hello_energy self + 10)%Q (accumulated_send_energy self))
  else Return self.

(** ** Depot *)

(** [Depot(coords, communication_range, simulator)]; [self] is the address
    of the new depot, which becomes its identifier. *)
Definition Depot__init__ (self : ref) (coords : coordinates) : Depot :=
  mkDepot (mkEntity self coords) [].

Definition Depot_all_packets (self : Depot) : list ref := _Depot__buffer self.

Definition transfer_body (sim : Simulator) (current_drone : Drone)
    (cur_step : Z) (w : World) (pck : ref) : World :=
  let w :=
    if broadcasts_feedback sim then
      let feedback := 1 in
      let delivery_delay :=
        cur_step - current_time (event_ref (packets w pck)) in
      broadcast sim w (identifier current_drone)
        (identifier (event_ref (packets w pck))) delivery_delay feedback 100
    else w in
  let m := metrics w in
  let w :=
    set_metrics w
      (mkMetrics (events m) (drones_packets m)
         (all_data_packets_in_simulation m) (events_not_listened m)
         ({[ (pck, cur_step) ]} ∪ drones_packets_to_depot m)
         (drones_packets_to_depot_list m ++ [(pck, cur_step)])
         (time_on_active_routing m) (time_on_mission m)) in
  set_packet w pck (set_time_delivery (packets w pck) (Some cur_step)).

Definition Depot_transfer_notified_packets (sim : Simulator) (w : World)
    (self : Depot) (current_drone : Drone) (cur_step : Z) : World * Depot :=
  let packets_to_offload := Drone_all_packets current_drone in
  let self :=
    mkDepot (Depot_entity self) (_Depot__buffer self ++ packets_to_offload) in
  (fold_left (transfer_body sim current_drone cur_step) packets_to_offload w,
   self).

(** ** Drone: movement *)

Section Movement.

(** [utilities.euclidean_distance] is defined outside the file: the
    movement is stated for whatever function it is, with finite floats as
    values. *)
Variable euclidean_distance : coordinates -> coordinates -> Q.
Variable sim : Simulator.

(** [((1 - t) * p0[0] + t * p1[0]), ((1 - t) * p0[1] + t * p1[1])] *)
Definition interpolate (t : Float.float) (p0 p1 : coordinates)
  : result coordinates :=
  x ← stored (Float.add (Float.mul (Float.sub 1 t) (fst p0))
                (Float.mul t (fst p1)));
  y ← stored (Float.add (Float.mul (Float.sub 1 t) (snd p0))
                (Float.mul t (snd p1)));
  Return (x, y).

Definition index_path (self : Drone) (i : Z) : result coordinates :=
  match getitem (path self) i with
  | Some p => Return p
  | None => Raise IndexError
  end.


Definition Drone_next_move_to_mission_point (self : Drone)
  : result coordinates :=
  let current_waypoint :=
    if current_waypoint self >=? Z.of_nat (length (path self)) - 1
    then -1 else current_waypoint self in
  let p0 := coords self in
  p1 ← index_path self (current_waypoint + 1);
  let all_distance := euclidean_distance p0 p1 in
  let distance := Float.mul (time_step_duration sim) (speed self) in
  if Qeq_bool all_distance 0 || Float.eqb distance 0 then
    index_path self current_waypoint
  else
    let t := Float.div distance all_distance in
    if Float.leb 1 t then index_path self current_waypoint
    else if Float.leb t 0 then Exit 1
    else interpolate t p0 p1.

Definition Drone_next_target (self : Drone) : result (option coordinates) :=
  if move_routing self then Return (Some (depot_coords self))
  else if come_back_to_mission self then Return (last_mission_coords self)
  else if current_waypoint self >=? Z.of_nat (length (path self)) - 1
  then p ← index_path self 0; Return (Some p)
  else p ← index_path self (current_waypoint self + 1); Return (Some p).

Definition _Drone__update_position (self : Drone) (p1 : coordinates)
  : result Drone :=
  if come_back_to_mission self then
    Return (set_coords (set_come_back_to_mission self false) p1)
  else
    let self := set_current_waypoint self (current_waypoint self + 1) in
    p ← index_path self (current_waypoint self);
    Return (set_coords self p).

Definition _Drone__move_to_mission (self : Drone) (time : Q) : result Drone :=
  let self :=
    if current_waypoint self >=? Z.of_nat (length (path self)) - 1
    then set_current_waypoint self (-1)
    else self in
  let p0 := coords self in
  p1 ← (if come_back_to_mission self then
          match last_mission_coords self with
          | Some c => Return c
          | None => Raise TypeError
          end
        else index_path self (current_waypoint self + 1));
  let all_distance := euclidean_distance p0 p1 in
  let distance := Float.mul time (speed self) in
  if Qeq_bool all_distance 0 || Float.eqb distance 0 then
    _Drone__update_position self p1
  else
    let t := Float.div distance all_distance in
    if Float.leb 1 t then _Drone__update_position self p1
    else if Float.leb t 0 then Exit 1
    else c ← interpolate t p0 p1; Return (set_coords self c).

Definition _Drone__move_to_depot (self : Drone) (time : Q) : result Drone :=
  let p0 := coords self in
  let p1 := depot_coords self in
  let all_distance := euclidean_distance p0 p1 in
  let distance := Float.mul time (speed self) in
  if Qeq_bool all_distance 0 then Return (set_move_routing self false)
  else
    let t := Float.div distance all_distance in
    if Float.leb 1 t then Return (set_coords self p1)
    else if Float.leb t 0 then Exit 1
    else c ← interpolate t p0 p1; Return (set_coords self c).

Definition add_time_on_active_routing (w : World) : World :=
  let m := metrics w in
  set_metrics w
    (mkMetrics (events m) (drones_packets m)
       (all_data_packets_in_simulation m) (events_not_listened m)
       (drones_packets_to_depot m) (drones_packets_to_depot_list m)
       (time_on_active_routing m + 1) (time_on_mission m)).

Definition add_time_on_mission (w : World) : World :=
  let m := metrics w in
  set_metrics w
    (mkMetrics (events m) (drones_packets m)
       (all_data_packets_in_simulation m) (events_not_listened m)
       (drones_packets_to_depot m) (drones_packets_to_depot_list m)
       (time_on_active_routing m) (time_on_mission m + 1)).

Definition Drone_move (w : World) (self : Drone) (time : Q)
  : result (World * Drone) :=
  let w :=
    if move_routing self || come_back_to_mission self
    then add_time_on_active_routing w else w in
  '(w, self) ←
    (if move_routing self then
       let self :=
         if negb (last_move_routing self)
         then set_last_mission_coords self (Some (coords self))
         else self in
       self ← _Drone__move_to_depot self time;
       Return (w, self)
     else
       let self :=
         if last_move_routing self
         then set_come_back_to_mission self true
         else self in
       self ← _Drone__move_to_mission self time;
       Return (add_time_on_mission w, self));
  let self := set_last_move_routing self (move_routing self) in
  self ← Drone_decrease_energy self "move";
  Return (w, self).

End Movement.

(** * Vocabulary of the properties, and sample states *)

(** Two events built at the same address, one at the origin and one a unit
    to its right. *)
Definition event_at_origin : Event := mkEvent (mkEntity 1 (0, 0)%Q) 0 50.
Definition event_moved : Event := mkEvent (mkEntity 1 (1, 0)%Q) 0 50.

Definition feedback_calls (sim : Simulator)
    (current_drone id_event delay outcome reward : Z) : list Feedback :=
  map (fun drone =>
         mkFeedback drone current_drone id_event delay outcome reward)
      (drones sim).

(** The packets [update_packets] keeps and the ones it drops. *)
Definition alive (w : World) (cur_step : Z) (pck : ref) : bool :=
  negb (Packet_is_expired (packets w pck) cur_step).

Definition dead (w : World) (cur_step : Z) (pck : ref) : bool :=
  Packet_is_expired (packets w pck) cur_step.

Definition deadline_of (w : World) (pck : ref) : Z :=
  deadline (event_ref (packets w pck)).

Definition tighten (t : float_or_nan) (d : Z) : float_or_nan :=
  np_nanmin [t; Num (inject_Z d)].

(** The float of an integer that has one. *)
Definition double (d : Z) : Q := Float.nearest (inject_Z d).

Definition expiry_calls (sim : Simulator) (w : World) (self : Drone)
    (pck : ref) : list Feedback :=
  feedback_calls sim (identifier self) (identifier (event_ref (packets w pck)))
    (event_duration sim) (-1) (-100).

(** [d] is the least of [ds]. *)
Definition least (ds : list Z) (d : Z) : Prop :=
  In d ds /\ forall d', In d' ds -> d <= d'.

(** The integers that have a float: those below 2^1024 - 2^970 in
    magnitude. *)
Definition has_float (d : Z) : Prop :=
  float_of_int d = Return (Float.finite (double d)).

(** [t] is the float of the least of [ds], not-a-number when there is
    none. *)
Definition least_of (ds : list Z) (t : float_or_nan) : Prop :=
  match t with
  | NaN => ds = []
  | Num m => exists d, least ds d /\ m = double d
  end.


(** A simulation of two drones, 0 and 1, whose events last 5 steps; the
    routing algorithm is given by its name. *)
Definition sample_simulator (name : string) : Simulator :=
  mkSimulator 5 1 10 5 2 1000 name [0; 1].

Definition no_metrics : Metrics := mkMetrics ∅ ∅ 0 ∅ ∅ [] 0 0.

Definition blank_packet : Packet :=
  mkPacket (mkEntity 0 (-1, -1)%Q) 0 (mkEvent (mkEntity 0 (-1, -1)%Q) (-1) (-1))
    (-1) 0 0 0 0 [] None.

(** Before any packet is built. *)
Definition empty_world : World := mkWorld (fun _ => blank_packet) no_metrics [].

Definition sample_depot : Depot := mkDepot (mkEntity 100 (0, 0)%Q) [].

(** Drone 0 as its constructor leaves it, on a path from (10, 0) to
    (20, 0), with no noise on its speed and energy. *)
Definition sample_drone : Drone :=
  mkDrone (mkEntity 0 (10, 0)%Q) (0, 0)%Q [(10, 0)%Q; (20, 0)%Q] 5 2 1000 1000
    false false 0 0 0 None 0 [] 0 false None.

(** Drone 0 senses an event at step 0: the event, at address 1000, has
    deadline 5; its packet is at address 2000. *)
Definition after_sensing (name : string) : World * Drone :=
  Drone_feel_event (sample_simulator name) empty_world sample_drone 0 1000
    2000 100.

(** The calls the depot makes for one delivered packet. *)
Definition delivery_calls (sim : Simulator) (w : World) (current_drone : Drone)
    (cur_step : Z) (pck : ref) : list Feedback :=
  feedback_calls sim (identifier current_drone)
    (identifier (event_ref (packets w pck)))
    (cur_step - current_time (event_ref (packets w pck))) 1 100.

Definition is_in (pck : ref) (buffer : list ref) : bool :=
  existsb (Z.eqb pck) buffer.

Definition event_id (w : World) (pck : ref) : Z :=
  identifier (event_ref (packets w pck)).

(** No two entries of the buffer hold packets whose events compare equal. *)
Definition distinct_events (w : World) (buffer : list ref) : Prop :=
  forall (i j : nat) (p q : ref),
    buffer !! i = Some p -> buffer !! j = Some q ->
    Entity__eq__ (event_ref (packets w p)) (IsEntity (event_ref (packets w q)))
    = true ->
    i = j.

(** Three packets: 2000 and 2001 are two packets about the event at address
    1000, built for drones 0 and 1; 2002 is about the event at address
    1001. *)
Definition three_packets : World :=
  let sim := sample_simulator "QL" in
  let '(w, ev) := Event__init__ sim empty_world 1000 (10, 0)%Q 0 None in
  let '(w, ev') := Event__init__ sim w 1001 (20, 0)%Q 0 None in
  let w := (Event_as_packet sim w ev 0 0 2000 100).1 in
  let w := (Event_as_packet sim w ev 0 1 2001 100).1 in
  (Event_as_packet sim w ev' 0 1 2002 100).1.

(** Drone 0 holding the first of them. *)
Definition drone_with_packet : Drone := set_buffer sample_drone [2000].

(** Drone 0, whose buffer has room for two packets, after it sensed two
    events. *)
Definition after_two_events : World * Drone :=
  let sim := sample_simulator "QL" in
  let '(w, self) := after_sensing "QL" in
  Drone_feel_event sim w self 1 1001 2001 100.

(** Drone 0 at (5, 0), five units from the depot at speed 1, holding a
    packet whose deadline, 10, is the tightest. *)
Definition expiring_drone (distance : Q) : Drone :=
  mkDrone (mkEntity 0 (distance, 0)%Q) (0, 0)%Q [(10, 0)%Q; (20, 0)%Q] 1 2
    1000 1000 false false 0 0 0 (Some (Num 10)) 0 [2000] distance false None.

(** The energy spent equals the energy accounted for. *)
Definition ledger_balanced (d : Drone) : Prop :=
  (initial_energy d - residual_energy d
   == accumulated_send_energy d + accumulated_moving_energy d
      + accumulated_hello_energy d)%Q.

(** A sequence of calls of [decrease_energy]. *)
Fixpoint decrease_energy_all (actions : list string) (self : Drone)
  : result Drone :=
  match actions with
  | [] => Return self
  | action :: rest =>
    self ← Drone_decrease_energy self action;
    decrease_energy_all rest self
  end.

(** The call rounds nothing: the cost, the energy left and the counter are
    floats as the exact operations give them. *)
Definition spends_exactly (self : Drone) (action : string) : Prop :=
  if String.eqb action "transmission" then
    Float.is_float (residual_energy self - 100)
  else if String.eqb action "move" then
    Float.is_float (speed self * 100)
    /\ Float.is_float (residual_energy self - speed self * 100)
    /\ Float.is_float (accumulated_moving_energy self + speed self * 100)
  else if String.eqb action "hello" then
    Float.is_float (residual_energy self - 10)
  else True.

Fixpoint spend_exactly (actions : list string) (self : Drone) : Prop :=
  match actions with
  | [] => True
  | action :: rest =>
    spends_exactly self action
    /\ forall self', Drone_decrease_energy self action = Return self' ->
                     spend_exactly rest self'
  end.

(** Drone 0 with the speed 8.2 and the energy 999129, as its constructor
    leaves it. *)
Definition thrifty_drone : Drone :=
  mkDrone (mkEntity 0 (10, 0)%Q) (0, 0)%Q [(10, 0)%Q; (20, 0)%Q]
    (Float.nearest (82 # 10)) 2 999129 999129
    false false 0 0 0 None 0 [] 0 false None.

(** A distance for the samples: on two points of a horizontal or of a
    vertical line it is their Euclidean distance. *)
Definition taxicab_distance (p q : coordinates) : Q :=
  (Qabs (fst p - fst q) + Qabs (snd p - snd q))%Q.

(** The fraction of the way that a tick covers. *)
Definition fraction (time speed distance : Q) : Float.float :=
  Float.div (Float.mul time speed) distance.

(** A displacement of at least 2^-537 over a distance of at most 2^537 is a
    fraction of at least 2^-1074, the least positive float. *)
Definition least_displacement : Q := Float.pow2 (-537).
Definition greatest_distance : Q := Float.pow2 537.

(** The points a drone may head for on its next tick: the depot, a point
    of its path, and the point where it left its mission. *)
Definition heads_for (self : Drone) (p : coordinates) : Prop :=
  p = depot_coords self \/ In p (path self)
  \/ last_mission_coords self = Some p.

(** The distances to them do not make the fraction underflow. *)
Definition within_reach (dist : coordinates -> coordinates -> Q)
    (self : Drone) : Prop :=
  forall p, heads_for self p ->
    (0 <= dist (coords self) p <= greatest_distance)%Q.

(** The tick takes the drone as far as the point [p1]: the point is where
    the drone stands, or the displacement is null, or the fraction of the
    distance covered is at least 1.  The displacement and the fraction are
    the floats the code computes; a displacement that is null before rounding
    is null after it, and a displacement that covers a distance held as a
    float gives a fraction of at least 1. *)
Definition reaches (dist : coordinates -> coordinates -> Q)
    (self : Drone) (time : Q) (p1 : coordinates) : Prop :=
  let d := dist (coords self) p1 in
  (d == 0)%Q
  \/ Float.eqb (Float.mul time (speed self)) 0 = true
  \/ Float.le 1 (fraction time (speed self) d)
  \/ (time * speed self == 0)%Q
  \/ (Float.is_exact d /\ (1 <= time * speed self / d)%Q).

(** Numbers far from the largest float: sums of two of them, and their
    products by a fraction, are finite. *)
Definition moderate (q : Q) : Prop := (Qabs q <= Float.pow2 1000)%Q.

Definition moderate_point (c : coordinates) : Prop :=
  moderate (fst c) /\ moderate (snd c).

(** A tick that neither underflows nor overflows: the displacement is not
    too small for the distances, and the coordinates and the energies are not
    too large. *)
Definition moderate_tick (dist : coordinates -> coordinates -> Q)
    (self : Drone) (time : Q) : Prop :=
  (least_displacement <= time * speed self)%Q
  /\ within_reach dist self
  /\ moderate_point (coords self)
  /\ (forall p, heads_for self p -> moderate_point p)
  /\ moderate (residual_energy self)
  /\ moderate (accumulated_moving_energy self)
  /\ moderate (speed self * 100).

(** Drone 0 at (10, 0), diverted to the depot at (0, 0), with speed 0. *)
Definition stalled_drone : Drone :=
  mkDrone (mkEntity 0 (10, 0)%Q) (0, 0)%Q [(10, 0)%Q; (20, 0)%Q] 0 2
    1000 1000 false false 0 0 0 None 0 [2000] 10 true None.

(** Two packets with deadlines 100 and 150, at addresses 2000 and 2001. *)
Definition two_deadlines : World :=
  let sim := sample_simulator "QL" in
  let '(w, ev) := Event__init__ sim empty_world 1000 (10, 0)%Q 50 (Some 100) in
  let '(w, ev') := Event__init__ sim w 1001 (10, 0)%Q 100 (Some 150) in
  let w := (Event_as_packet sim w ev 50 0 2000 100).1 in
  (Event_as_packet sim w ev' 100 0 2001 100).1.

(** Drone 0 holding both, diverted to the depot. *)
Definition drone_with_two_packets : Drone :=
  set_move_routing (set_buffer sample_drone [2000; 2001]) true.

(** Drone 0 on the cyclic path from (0, 0) to (10, 0) at speed 5. *)
Definition patrol_drone : Drone :=
  mkDrone (mkEntity 0 (0, 0)%Q) (0, 50)%Q [(0, 0)%Q; (10, 0)%Q] 5 2
    1000 1000 false false 0 0 0 None 0 [] 0 false None.

(** The position, in lowest terms, and the waypoint after some ticks of
    duration 1, when no tick raises or exits. *)
Fixpoint patrol (ticks : nat) (self : Drone) : option (coordinates * Z) :=
  match ticks with
  | O =>
    Some ((Qred (fst (coords self)), Qred (snd (coords self))),
          current_waypoint self)
  | S ticks =>
    match Drone_move taxicab_distance empty_world self 1 with
    | Return (_, self) => patrol ticks self
    | _ => None
    end
  end.

(** The calls that change the buffer of a drone. *)
Inductive buffer_call :=
| Feel (cur_step : Z) (ev pk : ref) (size : Q)
| Accept (incoming : list ref)
| Update (cur_step : Z)
| Remove (outgoing : list ref)
| Empty.

Definition call (sim : Simulator) (st : World * Drone) (c : buffer_call)
  : World * Drone :=
  match c with
  | Feel cur_step ev pk size =>
    Drone_feel_event sim st.1 st.2 cur_step ev pk size
  | Accept incoming => (st.1, Drone_accept_packets st.1 st.2 incoming)
  | Update cur_step => Drone_update_packets sim st.1 st.2 cur_step
  | Remove outgoing => (st.1, Drone_remove_packets st.1 st.2 outgoing)
  | Empty => (st.1, Drone_empty_buffer st.2)
  end.

(** The address of a new object is the address of no live object: the
    packet that [feel_event] builds is not in the buffer, and its event is
    the event of no packet of the buffer. *)
Definition fresh (st : World * Drone) (c : buffer_call) : Prop :=
  match c with
  | Feel _ ev pk _ =>
    ~ In pk (_Drone__buffer st.2)
    /\ ~ In ev (map (event_id st.1) (_Drone__buffer st.2))
  | _ => True
  end.

Fixpoint all_fresh (sim : Simulator) (st : World * Drone)
    (calls : list buffer_call) : Prop :=
  match calls with
  | [] => True
  | c :: rest => fresh st c /\ all_fresh sim (call sim st c) rest
  end.

(** * The rest of the entity layer *)

(** ** Packet: delay, retransmissions, deadline, JSON *)


Definition Packet_get_delay (self : Packet) : Q := accumulated_delay self.




(** The values of the dictionaries [to_json] returns. *)
Inductive json := JNum (n : Z) | JPoint (c : coordinates).

Definition Event_to_json (self : Event) : gmap string json :=
  <["coord" := JPoint (coords self)]>
    (<["i_gen" := JNum (current_time self)]>
       (<["i_dead" := JNum (deadline self)]>
          (<["id" := JNum (identifier self)]> ∅))).

Definition Packet_to_json (self : Packet) : gmap string json :=
  <["coord" := JPoint (coords self)]>
    (<["i_gen" := JNum (time_step_creation self)]>
       (<["i_dead" := JNum (deadline (event_ref self))]>
          (<["id" := JNum (identifier self)]>
             (<["TTL" := JNum (_Packet__TTL self)]>
                (<["id_event" := JNum (identifier (event_ref self))]> ∅))))).

(** ** Drone: what the movement relies on *)

(** The path is not empty, the waypoint is an index of the path or -1 (the
    value it takes when the patrol wraps), and a drone that was diverted or
    is coming back has the coordinates to come back to. *)
Definition well_formed (self : Drone) : Prop :=
  path self <> []
  /\ -1 <= current_waypoint self < Z.of_nat (length (path self))
  /\ ((last_move_routing self = true \/ come_back_to_mission self = true) ->
      last_mission_coords self <> None).

(** The event identifiers of a buffer. *)
Definition known_events (w : World) (self : Drone) : list Z :=
  map (event_id w) (_Drone__buffer self).

(** Every packet of the list is stored at the address that is its
    identifier, as [Packet.__init__] leaves it. *)
Definition identified_by_address (w : World) (l : list ref) : Prop :=
  forall r, In r l -> identifier (packets w r) = r.

(** The drone [update_packets] returns, from the packets it keeps. *)
Definition maintained (w : World) (self : Drone) (kept : list ref) : Drone :=
  let self :=
    set_tightest_event_deadline self
      (Some (fold_left tighten (map (deadline_of w) kept) NaN)) in
  let self := set_buffer self kept in
  if (length kept =? 0)%nat then set_move_routing self false else self.

(** The drone as [__move_to_mission] sees it once the patrol has wrapped:
    at the last waypoint the index becomes -1. *)
Definition wrapped (self : Drone) : Drone :=
  if current_waypoint self >=? Z.of_nat (length (path self)) - 1
  then set_current_waypoint self (-1)
  else self.

(** The point [__move_to_mission] heads for: the coordinates to come back
    to, or the waypoint after the current one. *)
Definition heading (self : Drone) : result coordinates :=
  if come_back_to_mission (wrapped self)
  then match last_mission_coords (wrapped self) with
       | Some c => Return c
       | None => Raise TypeError
       end
  else index_path (wrapped self) (current_waypoint (wrapped self) + 1).

(** The drone once it has reached the point [p1] it was heading for: back on
    its mission, or one waypoint further. *)
Definition arrived (self : Drone) (p1 : coordinates) : Drone :=
  if come_back_to_mission self
  then set_coords (set_come_back_to_mission (wrapped self) false) p1
  else
    set_coords
      (set_current_waypoint (wrapped self)
         (current_waypoint (wrapped self) + 1)) p1.

(** What a tick of movement leaves alone: the identity of the drone, its
    path, speed, depot and buffer, and what the buffer maintenance wrote. *)
Definition same_cargo (d d' : Drone) : Prop :=
  identifier d' = identifier d /\ path d' = path d /\ speed d' = speed d
  /\ depot_coords d' = depot_coords d
  /\ buffer_max_size d' = buffer_max_size d
  /\ _Drone__buffer d' = _Drone__buffer d
  /\ tightest_event_deadline d' = tightest_event_deadline d
  /\ distance_from_depot d' = distance_from_depot d
  /\ initial_energy d' = initial_energy d.

(** The energies and the speed of a drone, which the movement leaves as
    they are until the energy of the tick is spent. *)
Definition same_energy (d d' : Drone) : Prop :=
  residual_energy d' = residual_energy d
  /\ accumulated_moving_energy d' = accumulated_moving_energy d
  /\ speed d' = speed d.

(** Drone 0 at (10, 0), just diverted to the depot at (0, 0), at speed 5. *)
Definition diverted_drone : Drone := set_move_routing sample_drone true.

(** Drone 0 standing on the depot, diverted to it, with one packet. *)
Definition drone_at_depot : Drone :=
  mkDrone (mkEntity 0 (0, 0)%Q) (0, 0)%Q [(10, 0)%Q; (20, 0)%Q] 5 2
    1000 1000 false true 0 0 0 None 0 [2000] 0 true (Some (10, 0)%Q).

(** Drone 0 at (10, 0), diverted since an earlier tick from (20, 0), holding
    the two packets with deadlines 100 and 150. *)
Definition long_diverted_drone : Drone :=
  set_last_mission_coords
    (set_last_move_routing drone_with_two_packets true) (Some (20, 0)%Q).

(** ** The entities of a run *)

(** An object of one of the four classes of entities. *)
Inductive instance :=
| AnEvent (e : Event)
| APacket (p : Packet)
| ADepot (d : Depot)
| ADrone (d : Drone).





(** The object a constructor leaves at the address [a].  An event, a packet
    and a depot take the address as identifier; a drone is given its
    identifier. *)
Inductive built : ref -> instance -> Prop :=
| built_event sim w a coords current_time deadline :
    built a (AnEvent (Event__init__ sim w a coords current_time deadline).2)
| built_packet sim w a time_step_creation event_ref placeholder size :
    built a
      (APacket
         (packets
            (Packet__init__ sim w a time_step_creation event_ref placeholder
               size) a))
| built_depot a coords :
    built a (ADepot (Depot__init__ a coords))
| built_drone sim a identifier path depot speed_sample energy_sample d :
    Drone__init__ sim identifier path depot speed_sample energy_sample
    = Return d ->
    built a (ADrone d).


(** The objects alive at one time, each at its address. *)
Abbreviation heap := (gmap Z instance) (only parsing).

(** * Properties *)

(** ** The store of packets *)

Lemma packets_set_packet_eq (w : World) (r : ref) (p : Packet) :
  packets (set_packet w r p) r = p.
Proof. simpl. destruct (decide (r = r)); congruence. Qed.

Lemma packets_set_packet_ne (w : World) (r r' : ref) (p : Packet) :
  r' <> r -> packets (set_packet w r p) r' = packets w r'.
Proof. intros Hne. simpl. destruct (decide (r' = r)); congruence. Qed.

(** ** The built-ins against the interpreter *)

(** Values of [hash] observed in CPython 3.11. *)
Example hash_values :
  Py.hash_int (-1) = -2 /\ Py.hash_int (2 ^ 61) = 1
  /\ Py.hash_num (5 # 4) = 576460752303423489
  /\ Py.hash_num (-3 # 4) = -1729382256910270464
  /\ Py.hash_tuple [] = 5740354900026072187
  /\ Py.hash_tuple [7] = -6198871656470064846
  /\ Entity__hash__ (mkEntity 1 (1 # 2, 0)%Q) = -5364114368256176182
  /\ Entity__hash__ (mkEntity 140234 (3, 4)%Q) = 1727836370008675503.
Proof. vm_compute. repeat split. Qed.

Example str_in_values :
  Py.str_in "GEO" "GEORNDGEOS" = true /\ Py.str_in "" "GEORNDGEOS" = true
  /\ Py.str_in "ORN" "GEORNDGEOS" = true /\ Py.str_in "QL" "GEORNDGEOS" = false
  /\ Py.str_in "GEOSX" "GEORNDGEOS" = false.
Proof. repeat split. Qed.

Example getitem_values :
  getitem [10; 20; 30] 0 = Some 10 /\ getitem [10; 20; 30] (-1) = Some 30
  /\ getitem [10; 20; 30] 3 = None /\ getitem [10; 20; 30] (-4) = None.
Proof. repeat split. Qed.

(** Values of float arithmetic observed in CPython 3.11: products, sums,
    differences and quotients that are not exact, the float of an integer
    beyond 2^53, a tie, an underflow and an overflow. *)
Example float_values :
  Float.mul (Float.nearest (82 # 10)) 100
  = Float.finite (7212796278210559 # 8796093022208)
  /\ Float.add (Float.nearest (1 # 10)) (Float.nearest (2 # 10))
     = Float.finite (1351079888211149 # 4503599627370496)
  /\ Float.mul 100 (Float.nearest (15 # 100)) = Float.finite 15
  /\ Float.sub 999129 (Float.mul (Float.nearest (82 # 10)) 100)
     = Float.finite 998309
  /\ Float.div 1 3 = Float.finite (6004799503160661 # 18014398509481984)
  /\ Float.mul (Float.nearest (8 # 10)) 7
     = Float.finite (6305039478318695 # 1125899906842624)
  /\ Float.round (inject_Z (2 ^ 53 + 1)) = Float.finite 9007199254740992
  /\ Float.round (inject_Z (2 ^ 53 + 3)) = Float.finite 9007199254740996
  /\ Float.div (Float.pow2 (-1074)) 2 = Float.finite 0
  /\ Float.div (Float.mul 3 (Float.pow2 (-1074))) 2
     = Float.finite (Float.pow2 (-1073))
  /\ Float.mul (Float.nearest (1 # 10)) (Float.pow2 1023 * 100)
     = Float.infinity false
  /\ float_of_int (2 ^ 1024) = Raise OverflowError.
Proof. vm_compute. repeat split. Qed.

(** ** Rounding to binary64 *)

Lemma pow2_pos (e : Z) : (0 < Float.pow2 e)%Q.
Proof. apply Qpower_0_lt. reflexivity. Qed.

Lemma pow2_add (a b : Z) : (Float.pow2 (a + b) == Float.pow2 a * Float.pow2 b)%Q.
Proof. apply Qpower_plus. discriminate. Qed.

Lemma pow2_le (a b : Z) : a <= b -> (Float.pow2 a <= Float.pow2 b)%Q.
Proof. intros H. apply Qpower_le_compat_l; [exact H | discriminate]. Qed.

Lemma pow2_lt (a b : Z) : a < b -> (Float.pow2 a < Float.pow2 b)%Q.
Proof. intros H. apply Qpower_lt_compat_l; [exact H | reflexivity]. Qed.

Lemma pow2_Z (e : Z) : 0 <= e -> (Float.pow2 e == inject_Z (2 ^ e))%Q.
Proof. intros H. unfold Float.pow2. rewrite Zpower_Qpower by exact H. reflexivity. Qed.

Lemma pow2_lt_inv (a b : Z) : (Float.pow2 a < Float.pow2 b)%Q -> a < b.
Proof.
  intros H. destruct (Z_lt_le_dec a b) as [|Hle]; [assumption|].
  apply pow2_le in Hle. lra.
Qed.

Lemma pow2_sub (a b : Z) : (Float.pow2 (a - b) == Float.pow2 a / Float.pow2 b)%Q.
Proof.
  assert (H := pow2_add (a - b) b). replace (a - b + b) with a in H by lia.
  pose proof (pow2_pos b). rewrite H. field. lra.
Qed.

Lemma Qdiv_lt_cross (a b n d : Q) :
  (0 < b -> 0 < d -> a * d < n * b -> a / b < n / d)%Q.
Proof.
  intros Hb Hd H. apply Qlt_shift_div_l; [exact Hd|].
  assert (E : (a / b * d == a * d / b)%Q) by (field; lra).
  rewrite E. apply Qlt_shift_div_r; [exact Hb|exact H].
Qed.

Lemma Qdiv_le_cross (a b n d : Q) :
  (0 < b -> 0 < d -> a * d <= n * b -> a / b <= n / d)%Q.
Proof.
  intros Hb Hd H. apply Qle_shift_div_l; [exact Hd|].
  assert (E : (a / b * d == a * d / b)%Q) by (field; lra).
  rewrite E. apply Qle_shift_div_r; [exact Hb|exact H].
Qed.

Lemma Qnum_pos (q : Q) : (0 < q)%Q -> 0 < Qnum q.
Proof. unfold Qlt. simpl. lia. Qed.

Lemma ilog2_bounds (q : Q) :
  (0 < q)%Q ->
  let k := Z.log2 (Qnum q) - Z.log2 (Zpos (Qden q)) in
  (Float.pow2 (k - 1) < q /\ q < Float.pow2 (k + 1))%Q.
Proof.
  intros Hq k. pose proof (Qnum_pos q Hq) as Hn.
  destruct (Z.log2_spec (Qnum q) Hn) as [Hn1 Hn2].
  destruct (Z.log2_spec (Zpos (Qden q)) eq_refl) as [Hd1 Hd2].
  pose proof (Z.log2_nonneg (Qnum q)) as Hln.
  pose proof (Z.log2_nonneg (Zpos (Qden q))) as Hld.
  set (ln := Z.log2 (Qnum q)) in *. set (ld := Z.log2 (Zpos (Qden q))) in *.
  assert (HA1 : (Float.pow2 ln <= inject_Z (Qnum q))%Q).
  { rewrite pow2_Z by exact Hln. rewrite <- Zle_Qle. exact Hn1. }
  assert (HA2 : (inject_Z (Qnum q) < Float.pow2 (ln + 1))%Q).
  { rewrite pow2_Z by lia. rewrite <- Zlt_Qlt. exact Hn2. }
  assert (HB1 : (Float.pow2 ld <= inject_Z (Zpos (Qden q)))%Q).
  { rewrite pow2_Z by exact Hld. rewrite <- Zle_Qle. exact Hd1. }
  assert (HB2 : (inject_Z (Zpos (Qden q)) < Float.pow2 (ld + 1))%Q).
  { rewrite pow2_Z by lia. rewrite <- Zlt_Qlt. exact Hd2. }
  assert (Hq' : (q == inject_Z (Qnum q) / inject_Z (Zpos (Qden q)))%Q).
  { destruct q as [n d]. simpl. apply Qmake_Qdiv. }
  assert (Hd : (0 < inject_Z (Zpos (Qden q)))%Q) by reflexivity.
  pose proof (pow2_pos ld) as Hpld. pose proof (pow2_pos (ld + 1)) as Hpld1.
  pose proof (pow2_pos ln) as Hpln. pose proof (pow2_pos (ln + 1)) as Hpln1.
  set (N := inject_Z (Qnum q)) in *. set (D := inject_Z (Zpos (Qden q))) in *.
  assert (Hk1 : (Float.pow2 (k - 1) == Float.pow2 ln / Float.pow2 (ld + 1))%Q).
  { unfold k. replace (ln - ld - 1) with (ln - (ld + 1)) by lia. apply pow2_sub. }
  assert (Hk2 : (Float.pow2 (k + 1) == Float.pow2 (ln + 1) / Float.pow2 ld)%Q).
  { unfold k. replace (ln - ld + 1) with (ln + 1 - ld) by lia. apply pow2_sub. }
  rewrite Hk1, Hk2, Hq'. split.
  - apply Qdiv_lt_cross; [exact Hpld1 | exact Hd |].
    apply Qle_lt_trans with (N * D)%Q; [nra|nra].
  - apply Qdiv_lt_cross; [exact Hd | exact Hpld |].
    apply Qlt_le_trans with (Float.pow2 (ln + 1) * Float.pow2 ld)%Q; [nra|nra].
Qed.

Lemma ilog2_spec (q : Q) :
  (0 < q)%Q -> (Float.pow2 (Float.ilog2 q) <= q /\ q < Float.pow2 (Float.ilog2 q + 1))%Q.
Proof.
  intros Hq. destruct (ilog2_bounds q Hq) as [H1 H2]. unfold Float.ilog2.
  set (k := Z.log2 (Qnum q) - Z.log2 (Zpos (Qden q))) in *.
  destruct (Qle_bool (Float.pow2 k) q) eqn:E.
  - apply Qle_bool_iff in E. split; assumption.
  - assert (~ (Float.pow2 k <= q)%Q) as Hn.
    { intros H. apply Qle_bool_iff in H. congruence. }
    replace (k - 1 + 1) with k by lia. split; lra.
Qed.

Lemma ilog2_unique (q : Q) (k : Z) :
  (Float.pow2 k <= q)%Q -> (q < Float.pow2 (k + 1))%Q -> Float.ilog2 q = k.
Proof.
  intros H1 H2. pose proof (pow2_pos k) as Hk.
  destruct (ilog2_spec q) as [H3 H4]; [lra|].
  assert (Float.ilog2 q < k + 1) by (apply pow2_lt_inv; lra).
  assert (k < Float.ilog2 q + 1) by (apply pow2_lt_inv; lra).
  lia.
Qed.

Lemma ilog2_le (x y : Q) : (0 < x)%Q -> (x <= y)%Q -> Float.ilog2 x <= Float.ilog2 y.
Proof.
  intros Hx Hxy. destruct (ilog2_spec x Hx) as [H1 _].
  destruct (ilog2_spec y) as [_ H2]; [lra|].
  assert (Float.ilog2 x < Float.ilog2 y + 1) by (apply pow2_lt_inv; lra). lia.
Qed.

Lemma ilog2_comp (x y : Q) : (0 < x)%Q -> (x == y)%Q -> Float.ilog2 x = Float.ilog2 y.
Proof.
  intros Hx E. destruct (ilog2_spec x Hx) as [H1 H2].
  symmetry. apply ilog2_unique; lra.
Qed.

Lemma rne_cases (q : Q) :
  let f := Qfloor q in
  (inject_Z f <= q < inject_Z f + 1)%Q
  /\ ((q - inject_Z f < 1 # 2)%Q /\ Float.rne q = f
      \/ ((1 # 2) < q - inject_Z f)%Q /\ Float.rne q = f + 1
      \/ (q - inject_Z f == 1 # 2)%Q
         /\ Float.rne q = (if Z.even f then f else f + 1)).
Proof.
  intros f. split.
  - split; [apply Qfloor_le|].
    pose proof (Qlt_floor q) as H. rewrite inject_Z_plus in H. exact H.
  - unfold Float.rne. fold f.
    destruct (q - inject_Z f ?= 1 # 2)%Q eqn:E.
    + right. right. apply Qeq_alt in E. split; [exact E | reflexivity].
    + left. apply Qlt_alt in E. split; [exact E | reflexivity].
    + right. left. apply Qgt_alt in E. split; [exact E | reflexivity].
Qed.

Lemma rne_comp (x y : Q) : (x == y)%Q -> Float.rne x = Float.rne y.
Proof.
  intros E. unfold Float.rne. rewrite (Qfloor_comp x y E).
  assert (H : (x - inject_Z (Qfloor y) == y - inject_Z (Qfloor y))%Q)
    by (rewrite E; reflexivity).
  rewrite (Qcompare_comp _ _ H (1 # 2) (1 # 2) (Qeq_refl _)). reflexivity.
Qed.

Lemma rne_Z (n : Z) : Float.rne (inject_Z n) = n.
Proof.
  destruct (rne_cases (inject_Z n)) as [_ H]. rewrite Qfloor_Z in H.
  destruct H as [[_ H] | [[H _] | [H _]]]; [exact H | lra | lra].
Qed.

Lemma rne_le (x y : Q) : (x <= y)%Q -> Float.rne x <= Float.rne y.
Proof.
  intros Hxy. pose proof (Qfloor_resp_le x y Hxy) as Hf.
  destruct (rne_cases x) as [[Hx1 Hx2] Hx]. destruct (rne_cases y) as [[Hy1 Hy2] Hy].
  destruct (Z.eq_dec (Qfloor x) (Qfloor y)) as [E | NE].
  - rewrite E in *.
    destruct Hx as [[Hx Rx] | [[Hx Rx] | [Hx Rx]]];
      destruct Hy as [[Hy Ry] | [[Hy Ry] | [Hy Ry]]];
      rewrite Rx, Ry; try lia; try lra;
      destruct (Z.even (Qfloor y)); lia.
  - assert (Qfloor x + 1 <= Qfloor y) by lia.
    assert (Float.rne x <= Qfloor x + 1).
    { destruct Hx as [[_ R] | [[_ R] | [_ R]]]; rewrite R; try lia.
      destruct (Z.even (Qfloor x)); lia. }
    assert (Qfloor y <= Float.rne y).
    { destruct Hy as [[_ R] | [[_ R] | [_ R]]]; rewrite R; try lia.
      destruct (Z.even (Qfloor y)); lia. }
    lia.
Qed.

Lemma rne_error (q : Q) :
  (inject_Z (Float.rne q) - (1 # 2) <= q <= inject_Z (Float.rne q) + (1 # 2))%Q.
Proof.
  destruct (rne_cases q) as [[H1 H2] H].
  destruct H as [[H R] | [[H R] | [H R]]]; rewrite R.
  - lra.
  - rewrite inject_Z_plus. change (inject_Z 1) with 1%Q. lra.
  - destruct (Z.even (Qfloor q)).
    + lra.
    + rewrite inject_Z_plus. change (inject_Z 1) with 1%Q. lra.
Qed.

Lemma rne_nonneg (q : Q) : (0 <= q)%Q -> 0 <= Float.rne q.
Proof. intros H. rewrite <- (rne_Z 0). apply rne_le. exact H. Qed.

Lemma ulp_exponent_le (x y : Q) :
  (0 < x)%Q -> (x <= y)%Q -> Float.ulp_exponent x <= Float.ulp_exponent y.
Proof.
  intros Hx Hxy. unfold Float.ulp_exponent. pose proof (ilog2_le x y Hx Hxy). lia.
Qed.

Lemma ulp_exponent_comp (x y : Q) :
  (0 < x)%Q -> (x == y)%Q -> Float.ulp_exponent x = Float.ulp_exponent y.
Proof. intros Hx E. unfold Float.ulp_exponent. rewrite (ilog2_comp x y Hx E). reflexivity. Qed.

Lemma Qdiv_pow2 (k e : Z) : (Float.pow2 k / Float.pow2 e == Float.pow2 (k - e))%Q.
Proof. symmetry. apply pow2_sub. Qed.

Lemma nearest_pos_nonneg (q : Q) : (0 < q)%Q -> (0 <= Float.nearest_pos q)%Q.
Proof.
  intros Hq. unfold Float.nearest_pos. pose proof (pow2_pos (Float.ulp_exponent q)) as He.
  assert (0 <= Float.rne (q / Float.pow2 (Float.ulp_exponent q))) as H.
  { apply rne_nonneg. apply Qle_shift_div_l; [exact He | lra]. }
  rewrite Zle_Qle in H. change (inject_Z 0) with 0%Q in H. nra.
Qed.

Lemma nearest_pos_upper (q : Q) (k : Z) :
  (0 < q)%Q -> (q <= Float.pow2 k)%Q -> Float.ulp_exponent q <= k ->
  (Float.nearest_pos q <= Float.pow2 k)%Q.
Proof.
  intros Hq Hk He. unfold Float.nearest_pos. set (e := Float.ulp_exponent q) in *.
  pose proof (pow2_pos e) as Hpe.
  assert (H : Float.rne (q / Float.pow2 e) <= 2 ^ (k - e)).
  { rewrite <- (rne_Z (2 ^ (k - e))). apply rne_le.
    rewrite <- pow2_Z by lia. rewrite <- Qdiv_pow2.
    apply Qdiv_le_cross; [exact Hpe | exact Hpe | nra]. }
  rewrite Zle_Qle in H. rewrite <- pow2_Z in H by lia.
  assert (E : (Float.pow2 k == Float.pow2 (k - e) * Float.pow2 e)%Q).
  { rewrite <- pow2_add. replace (k - e + e) with k by lia. reflexivity. }
  rewrite E. nra.
Qed.

Lemma nearest_pos_lower (q : Q) (k : Z) :
  (0 < q)%Q -> (Float.pow2 k <= q)%Q -> Float.ulp_exponent q <= k ->
  (Float.pow2 k <= Float.nearest_pos q)%Q.
Proof.
  intros Hq Hk He. unfold Float.nearest_pos. set (e := Float.ulp_exponent q) in *.
  pose proof (pow2_pos e) as Hpe.
  assert (H : 2 ^ (k - e) <= Float.rne (q / Float.pow2 e)).
  { rewrite <- (rne_Z (2 ^ (k - e))). apply rne_le.
    rewrite <- pow2_Z by lia. rewrite <- Qdiv_pow2.
    apply Qdiv_le_cross; [exact Hpe | exact Hpe | nra]. }
  rewrite Zle_Qle in H. rewrite <- pow2_Z in H by lia.
  assert (E : (Float.pow2 k == Float.pow2 (k - e) * Float.pow2 e)%Q).
  { rewrite <- pow2_add. replace (k - e + e) with k by lia. reflexivity. }
  rewrite E. nra.
Qed.

Lemma nearest_pos_le (x y : Q) :
  (0 < x)%Q -> (x <= y)%Q -> (Float.nearest_pos x <= Float.nearest_pos y)%Q.
Proof.
  intros Hx Hxy. assert (Hy : (0 < y)%Q) by lra.
  pose proof (ulp_exponent_le x y Hx Hxy) as He.
  destruct (Z.eq_dec (Float.ulp_exponent x) (Float.ulp_exponent y)) as [E | NE].
  - unfold Float.nearest_pos. rewrite E. set (e := Float.ulp_exponent y).
    pose proof (pow2_pos e) as Hpe.
    assert (H : Float.rne (x / Float.pow2 e) <= Float.rne (y / Float.pow2 e)).
    { apply rne_le. apply Qdiv_le_cross; [exact Hpe | exact Hpe | nra]. }
    rewrite Zle_Qle in H. nra.
  - assert (Hlt : Float.ulp_exponent x < Float.ulp_exponent y) by lia.
    set (k := Float.ilog2 y).
    assert (Hey : Float.ulp_exponent y = k - 52).
    { unfold Float.ulp_exponent in *. fold k. lia. }
    assert (Hkx : Float.ilog2 x < k).
    { unfold Float.ulp_exponent in *. fold k in Hlt. lia. }
    destruct (ilog2_spec x Hx) as [_ Hx2]. destruct (ilog2_spec y Hy) as [Hy1 _].
    fold k in Hy1.
    assert (Hxk : (x <= Float.pow2 k)%Q).
    { assert (Float.pow2 (Float.ilog2 x + 1) <= Float.pow2 k)%Q by (apply pow2_le; lia). lra. }
    apply Qle_trans with (Float.pow2 k).
    + apply nearest_pos_upper; [exact Hx | exact Hxk | lia].
    + apply nearest_pos_lower; [exact Hy | exact Hy1 | lia].
Qed.

Lemma nearest_pos_comp (x y : Q) :
  (0 < x)%Q -> (x == y)%Q -> (Float.nearest_pos x == Float.nearest_pos y)%Q.
Proof.
  intros Hx E. unfold Float.nearest_pos. rewrite (ulp_exponent_comp x y Hx E).
  assert (H : (x / Float.pow2 (Float.ulp_exponent y) == y / Float.pow2 (Float.ulp_exponent y))%Q)
    by (rewrite E; reflexivity).
  rewrite (rne_comp _ _ H). reflexivity.
Qed.

Lemma nearest_cases (q : Q) :
  (q == 0 /\ Float.nearest q = 0)%Q
  \/ (0 < q /\ Float.nearest q = Qred (Float.nearest_pos q))%Q
  \/ (q < 0 /\ Float.nearest q = Qred (- Float.nearest_pos (- q)))%Q.
Proof.
  unfold Float.nearest. destruct (q ?= 0)%Q eqn:E.
  - left. apply Qeq_alt in E. split; [exact E | reflexivity].
  - right. right. apply Qlt_alt in E. split; [exact E | reflexivity].
  - right. left. apply Qgt_alt in E. split; [exact E | reflexivity].
Qed.

Lemma nearest_comp (x y : Q) : (x == y)%Q -> Float.nearest x = Float.nearest y.
Proof.
  intros E. unfold Float.nearest.
  rewrite (Qcompare_comp x y E 0 0 (Qeq_refl 0))%Q.
  destruct (y ?= 0)%Q eqn:C.
  - reflexivity.
  - apply Qlt_alt in C. apply Qred_complete.
    assert (E' : (- x == - y)%Q) by (rewrite E; reflexivity).
    rewrite (nearest_pos_comp (- x) (- y)); [reflexivity | lra | exact E'].
  - apply Qgt_alt in C. apply Qred_complete.
    apply nearest_pos_comp; [lra | exact E].
Qed.

Lemma nearest_0 : Float.nearest 0 = 0%Q.
Proof. reflexivity. Qed.

Lemma nearest_le (x y : Q) : (x <= y)%Q -> (Float.nearest x <= Float.nearest y)%Q.
Proof.
  intros Hxy.
  destruct (nearest_cases x) as [[Hx Ex] | [[Hx Ex] | [Hx Ex]]];
    destruct (nearest_cases y) as [[Hy Ey] | [[Hy Ey] | [Hy Ey]]];
    rewrite Ex, Ey; rewrite ?Qred_correct; try lra.
  - pose proof (nearest_pos_nonneg y Hy). lra.
  - apply nearest_pos_le; assumption.
  - assert (H : (0 < - x)%Q) by lra. pose proof (nearest_pos_nonneg _ H). lra.
  - assert (H : (0 < - x)%Q) by lra. pose proof (nearest_pos_nonneg _ H).
    pose proof (nearest_pos_nonneg y Hy). lra.
  - assert (H : (0 < - y)%Q) by lra.
    assert (H' : (- y <= - x)%Q) by lra.
    pose proof (nearest_pos_le _ _ H H'). lra.
Qed.

Lemma nearest_opp (q : Q) : (Float.nearest (- q) == - Float.nearest q)%Q.
Proof.
  destruct (nearest_cases q) as [[Hq Eq] | [[Hq Eq] | [Hq Eq]]].
  - rewrite Eq. assert (E : (- q == 0)%Q) by lra.
    rewrite (nearest_comp _ _ E). reflexivity.
  - rewrite Eq.
    destruct (nearest_cases (- q)) as [[H E] | [[H E] | [H E]]]; try lra.
    rewrite E, !Qred_correct.
    assert (E' : (- - q == q)%Q) by lra.
    assert (Hp : (0 < - - q)%Q) by lra.
    rewrite (nearest_pos_comp _ _ Hp E'). reflexivity.
  - rewrite Eq.
    destruct (nearest_cases (- q)) as [[H E] | [[H E] | [H E]]]; try lra.
    rewrite E, !Qred_correct. lra.
Qed.

Lemma nearest_pos_exact (q : Q) (m e : Z) :
  (q == inject_Z m * Float.pow2 e)%Q -> 0 < m < 2 ^ 53 -> -1074 <= e ->
  (Float.nearest_pos q == q)%Q.
Proof.
  intros Hq Hm He. pose proof (pow2_pos e) as Hpe.
  assert (Hm' : (0 < inject_Z m)%Q) by (change 0%Q with (inject_Z 0); rewrite <- Zlt_Qlt; lia).
  assert (Hpos : (0 < q)%Q) by (rewrite Hq; nra).
  assert (Hlt : (q < Float.pow2 (53 + e))%Q).
  { rewrite Hq, pow2_add, (pow2_Z 53) by lia.
    assert (inject_Z m < inject_Z (2 ^ 53))%Q by (rewrite <- Zlt_Qlt; lia). nra. }
  destruct (ilog2_spec q Hpos) as [Hl _].
  assert (HE : Float.ulp_exponent q <= e).
  { assert (Float.ilog2 q < 53 + e) by (apply pow2_lt_inv; lra).
    unfold Float.ulp_exponent. lia. }
  unfold Float.nearest_pos. set (E := Float.ulp_exponent q) in *. pose proof (pow2_pos E) as HpE.
  assert (Hs : (q / Float.pow2 E == inject_Z (m * 2 ^ (e - E)))%Q).
  { rewrite inject_Z_mult, <- pow2_Z by lia. rewrite Hq, pow2_sub. field. lra. }
  rewrite (rne_comp _ _ Hs), rne_Z, <- Hs. field. lra.
Qed.

Lemma representable_nearest (q : Q) : Float.representable q -> (Float.nearest q == q)%Q.
Proof.
  intros (m & e & Hq & Hm & He).
  destruct (nearest_cases q) as [[H E] | [[H E] | [H E]]]; rewrite E.
  - lra.
  - rewrite Qred_correct. apply (nearest_pos_exact q m e); [exact Hq | | exact He].
    pose proof (pow2_pos e) as Hpe.
    assert (0 < inject_Z m)%Q by nra.
    assert (0 < m) by (rewrite Zlt_Qlt; assumption). lia.
  - rewrite Qred_correct.
    assert (Heq : (- q == inject_Z (- m) * Float.pow2 e)%Q).
    { rewrite inject_Z_opp, Hq. ring. }
    rewrite (nearest_pos_exact (- q) (- m) e); [lra | exact Heq | | exact He].
    pose proof (pow2_pos e) as Hpe.
    assert (inject_Z m < 0)%Q by nra.
    assert (m < 0) by (rewrite Zlt_Qlt; assumption). lia.
Qed.

Lemma representable_Z (n : Z) : Z.abs n <= 2 ^ 53 -> Float.representable (inject_Z n).
Proof.
  intros Hn. destruct (Z.eq_dec (Z.abs n) (2 ^ 53)) as [E | NE].
  - exists (n / 2), 1. change (Float.pow2 1) with 2%Q. split; [|split; [|lia]].
    + change 2%Q with (inject_Z 2). rewrite <- inject_Z_mult.
      apply inject_Z_injective.
      assert (n = 2 ^ 53 \/ n = - 2 ^ 53) as [-> | ->] by lia; reflexivity.
    + assert (n = 2 ^ 53 \/ n = - 2 ^ 53) as [-> | ->] by lia; reflexivity.
  - exists n, 0. change (Float.pow2 0) with 1%Q. split; [ring | lia].
Qed.

Lemma representable_pow2 (k : Z) : -1074 <= k -> Float.representable (Float.pow2 k).
Proof. intros Hk. exists 1, k. split; [ring | split; [reflexivity | exact Hk]]. Qed.

Lemma representable_opp (q : Q) : Float.representable q -> Float.representable (- q).
Proof.
  intros (m & e & Hq & Hm & He). exists (- m), e.
  split; [rewrite inject_Z_opp, Hq; ring | split; [lia | exact He]].
Qed.

Lemma representable_comp (x y : Q) : (x == y)%Q -> Float.representable x -> Float.representable y.
Proof. intros E (m & e & H & Hm & He). exists m, e. rewrite <- E. auto. Qed.

Lemma ulp_exponent_spec (q : Q) :
  (0 < q)%Q -> -1074 <= Float.ulp_exponent q /\ (q < Float.pow2 (Float.ulp_exponent q + 53))%Q.
Proof.
  intros Hq. destruct (ilog2_spec q Hq) as [_ H]. unfold Float.ulp_exponent. split; [lia|].
  apply Qlt_le_trans with (1 := H). apply pow2_le. lia.
Qed.

Lemma nearest_pos_representable (q : Q) :
  (0 < q)%Q -> Float.representable (Float.nearest_pos q).
Proof.
  intros Hq. destruct (ulp_exponent_spec q Hq) as [HE Hlt].
  unfold Float.nearest_pos. set (E := Float.ulp_exponent q) in *. pose proof (pow2_pos E) as HpE.
  set (M := Float.rne (q / Float.pow2 E)).
  assert (H0 : 0 <= M).
  { apply rne_nonneg. apply Qle_shift_div_l; [exact HpE | lra]. }
  assert (H1 : M <= 2 ^ 53).
  { unfold M. rewrite <- (rne_Z (2 ^ 53)). apply rne_le.
    rewrite <- (pow2_Z 53) by lia. apply Qle_shift_div_r; [exact HpE|].
    rewrite <- pow2_add. replace (53 + E) with (E + 53) by lia. lra. }
  destruct (Z.eq_dec M (2 ^ 53)) as [E53 | NE].
  - rewrite E53. apply (representable_comp (Float.pow2 (53 + E))).
    + rewrite pow2_add, (pow2_Z 53) by lia. reflexivity.
    + apply representable_pow2. lia.
  - exists M, E. split; [reflexivity | split; [lia | exact HE]].
Qed.

Lemma nearest_representable (q : Q) : Float.representable (Float.nearest q).
Proof.
  destruct (nearest_cases q) as [[H E] | [[H E] | [H E]]]; rewrite E.
  - exists 0, 0. split; [reflexivity | split; [reflexivity | lia]].
  - apply (representable_comp (Float.nearest_pos q)); [symmetry; apply Qred_correct|].
    apply nearest_pos_representable. exact H.
  - apply (representable_comp (- Float.nearest_pos (- q))); [symmetry; apply Qred_correct|].
    apply representable_opp, nearest_pos_representable. lra.
Qed.

Lemma nearest_canonical (q : Q) : Qred (Float.nearest q) = Float.nearest q.
Proof.
  destruct (nearest_cases q) as [[H E] | [[H E] | [H E]]]; rewrite E.
  - reflexivity.
  - apply Qred_complete, Qred_correct.
  - apply Qred_complete, Qred_correct.
Qed.

Lemma nearest_idempotent (q : Q) : Float.nearest (Float.nearest q) = Float.nearest q.
Proof.
  transitivity (Qred (Float.nearest (Float.nearest q))); [symmetry; apply nearest_canonical|].
  transitivity (Qred (Float.nearest q)); [|apply nearest_canonical].
  apply Qred_complete. apply representable_nearest, nearest_representable.
Qed.

Lemma exact_Z (n : Z) : Z.abs n <= 2 ^ 53 -> Float.is_exact (inject_Z n).
Proof. intros H. apply representable_nearest, representable_Z, H. Qed.

Lemma exact_pow2 (k : Z) : -1074 <= k -> Float.is_exact (Float.pow2 k).
Proof. intros H. apply representable_nearest, representable_pow2, H. Qed.

Lemma exact_nearest (q : Q) : Float.is_exact (Float.nearest q).
Proof. unfold Float.is_exact. rewrite nearest_idempotent. reflexivity. Qed.

Lemma exact_opp (q : Q) : Float.is_exact q -> Float.is_exact (- q).
Proof. unfold Float.is_exact. intros H. rewrite nearest_opp, H. reflexivity. Qed.

Lemma nearest_bounds (q lo hi : Q) :
  Float.is_exact lo -> Float.is_exact hi -> (lo <= q <= hi)%Q -> (lo <= Float.nearest q <= hi)%Q.
Proof.
  unfold Float.is_exact. intros Hlo Hhi [H1 H2].
  apply nearest_le in H1. apply nearest_le in H2. lra.
Qed.

Lemma round_cases (q : Q) :
  (Float.huge <= Float.nearest q /\ Float.round q = Float.infinity false)%Q
  \/ (Float.nearest q <= - Float.huge /\ Float.round q = Float.infinity true)%Q
  \/ (- Float.huge < Float.nearest q < Float.huge /\ Float.round q = Float.finite (Float.nearest q))%Q.
Proof.
  unfold Float.round. pose proof (pow2_pos 1024) as Hh. fold Float.huge in Hh.
  destruct (Qle_bool Float.huge (Float.nearest q)) eqn:E1.
  - left. apply Qle_bool_iff in E1. auto.
  - assert (~ (Float.huge <= Float.nearest q)%Q) by (intros H; apply Qle_bool_iff in H; congruence).
    destruct (Qle_bool (Float.nearest q) (- Float.huge)) eqn:E2.
    + right. left. apply Qle_bool_iff in E2. auto.
    + assert (~ (Float.nearest q <= - Float.huge)%Q) by (intros H'; apply Qle_bool_iff in H'; congruence).
      right. right. split; [lra | reflexivity].
Qed.

Lemma round_bounded (q lo hi : Q) :
  Float.is_exact lo -> Float.is_exact hi -> (- Float.huge < lo)%Q -> (hi < Float.huge)%Q -> (lo <= q <= hi)%Q ->
  Float.round q = Float.finite (Float.nearest q) /\ (lo <= Float.nearest q <= hi)%Q.
Proof.
  intros Hlo Hhi Hl Hh Hq. pose proof (nearest_bounds q lo hi Hlo Hhi Hq) as Hn.
  split; [|exact Hn].
  destruct (round_cases q) as [[H _] | [[H _] | [_ H]]]; [lra | lra | exact H].
Qed.

Lemma round_exact (q : Q) :
  Float.is_exact q -> (- Float.huge < q < Float.huge)%Q -> Float.round q = Float.finite (Float.nearest q).
Proof.
  intros He Hq. unfold Float.is_exact in He.
  destruct (round_cases q) as [[H _] | [[H _] | [_ H]]]; [lra | lra | exact H].
Qed.

(** ** Identity of entities *)

Lemma Entity_eq_iff (a b : Entity) :
  Entity__eq__ a (IsEntity b) = true <-> identifier a = identifier b.
Proof.
  unfold Entity__eq__. rewrite Z.eqb_eq. split; congruence.
Qed.

Lemma Entity_eq_not_entity (a : Entity) : Entity__eq__ a NotEntity = false.
Proof. reflexivity. Qed.


(** The hash that events, packets and the depot inherit reads the pair of
    the identifier and the coordinates. *)
Lemma Entity_hash_pair (a b : Entity) :
  identifier a = identifier b -> coords a = coords b ->
  Entity__hash__ a = Entity__hash__ b.
Proof. unfold Entity__hash__. congruence. Qed.

Example inherited_hash_reads_coords :
  identifier event_at_origin = identifier event_moved
  /\ Entity__hash__ event_at_origin = -7476415213373952396
  /\ Entity__hash__ event_moved = 5815918438011728213.
Proof. repeat split; vm_compute; reflexivity. Qed.

(** ** Hops of a packet *)

Lemma TTL_add_hop (p : Packet) (drone : Z) :
  Packet_get_TTL (Packet_add_hop p drone) = Packet_get_TTL p + 1.
Proof. unfold Packet_add_hop. destruct (_ =? _)%nat; reflexivity. Qed.

Lemma last_2_hops_add_hop (p : Packet) (drone : Z) :
  last_2_hops (Packet_add_hop p drone)
  = (if (length (last_2_hops p) =? 2)%nat then tail (last_2_hops p)
     else last_2_hops p) ++ [drone].
Proof. unfold Packet_add_hop. destruct (_ =? _)%nat; reflexivity. Qed.

(** The window is the last two elements of the history of hops. *)
Lemma window_add_hop (p : Packet) (history : list Z) (drone : Z) :
  last_2_hops p = drop (length history - 2) history ->
  last_2_hops (Packet_add_hop p drone)
  = drop (length (history ++ [drone]) - 2) (history ++ [drone]).
Proof.
  intros Hw. rewrite last_2_hops_add_hop, Hw, length_app.
  destruct (decide (length history < 2)%nat) as [Hshort|Hlong].
  - destruct history as [|a [|b rest]]; simpl in *; try lia; reflexivity.
  - assert (Hlen : length (drop (length history - 2) history) = 2%nat)
      by (rewrite length_drop; lia).
    rewrite Hlen. change (2 =? 2)%nat with true. cbv iota.
    replace (length history + length [drone] - 2)%nat
      with ((length history - 2) + 1)%nat by (simpl; lia).
    rewrite <- drop_drop, drop_app_le by lia.
    destruct (drop (length history - 2) history) as [|x [|y tl]];
      simpl in Hlen; try lia.
    reflexivity.
Qed.

Lemma add_hops_spec (hops : list Z) (p : Packet) :
  last_2_hops p = [] ->
  Packet_get_TTL (fold_left Packet_add_hop hops p)
  = Packet_get_TTL p + Z.of_nat (length hops)
  /\ last_2_hops (fold_left Packet_add_hop hops p)
     = drop (length hops - 2) hops.
Proof.
  intros Hnil. induction hops as [|d hops IH] using rev_ind.
  - simpl. split; [lia | exact Hnil].
  - rewrite fold_left_app. destruct IH as [IHt IHw].
    change (fold_left Packet_add_hop [d] ?q) with (Packet_add_hop q d).
    split.
    + rewrite TTL_add_hop, IHt, length_app. simpl. lia.
    + apply window_add_hop. exact IHw.
Qed.

Lemma Packet_init_fields (sim : Simulator) (w : World) (self : ref)
    (created : Z) (ev : option Event) (placeholder : ref) (size : Q) :
  let p := packets (Packet__init__ sim w self created ev placeholder size)
             self in
  Packet_get_TTL p = -1 /\ last_2_hops p = [] /\ time_delivery p = None
  /\ identifier p = self
  /\ forall e, ev = Some e -> event_ref p = e.
Proof.
  unfold Packet__init__, Event__init__.
  destruct ev as [e|]; simpl; destruct (decide (self = self)); try congruence;
    simpl; repeat split; congruence.
Qed.

(** C5. A packet that has just been built has TTL -1; after the calls
    [add_hop(d1)], ..., [add_hop(dn)] its TTL is n - 1 and [last_2_hops] is
    the last two of d1 ... dn (all of them when n < 2), so it never holds
    more than two.  The packet [Event.as_packet] returns has had one hop
    added: its TTL is 0 and its window is the drone alone. *)
Theorem TTL_counts_hops (sim : Simulator) (w : World) (self : ref)
    (created : Z) (ev : option Event) (placeholder : ref) (size : Q)
    (hops : list Z) (e : Event) (drone : Z) :
  let new := packets (Packet__init__ sim w self created ev placeholder size)
                 self in
  let p := fold_left Packet_add_hop hops new in
  let built := Event_as_packet sim w e created drone self size in
  Packet_get_TTL new = -1
  /\ Packet_get_TTL p = Z.of_nat (length hops) - 1
  /\ last_2_hops p = drop (length hops - 2) hops
  /\ (length (last_2_hops p) <= 2)%nat
  /\ built.2 = self
  /\ Packet_get_TTL (packets built.1 self) = 0
  /\ last_2_hops (packets built.1 self) = [drone]
  /\ event_ref (packets built.1 self) = e.
Proof.
  intros new p built.
  destruct (Packet_init_fields sim w self created ev placeholder size)
    as (Httl & Hhops & _).
  fold new in Httl, Hhops.
  destruct (add_hops_spec hops new Hhops) as [Ht Hw]. fold p in Ht, Hw.
  split; [exact Httl|]. split; [lia|]. split; [exact Hw|].
  split; [rewrite Hw, length_drop; lia|].
  destruct (Packet_init_fields sim w self created (Some e) 0 size)
    as (Httl' & Hhops' & _ & _ & Hev).
  subst built. unfold Event_as_packet. cbn [fst snd].
  rewrite packets_set_packet_eq.
  split; [reflexivity|]. split; [rewrite TTL_add_hop, Httl'; reflexivity|].
  split.
  - rewrite last_2_hops_add_hop, Hhops'. reflexivity.
  - unfold Packet_add_hop. rewrite Hhops'. simpl. apply Hev. reflexivity.
Qed.

(** ** The feedback broadcast *)

Lemma broadcast_spec (sim : Simulator) (w : World)
    (current_drone id_event delay outcome reward : Z) :
  broadcast sim w current_drone id_event delay outcome reward
  = mkWorld (packets w) (metrics w)
      (feedbacks w
       ++ feedback_calls sim current_drone id_event delay outcome reward).
Proof.
  unfold broadcast, feedback_calls. revert w.
  induction (drones sim) as [|drone rest IH]; intros w; simpl.
  - rewrite app_nil_r. destruct w; reflexivity.
  - rewrite IH. simpl. rewrite <- app_assoc. reflexivity.
Qed.

Lemma exempted_names_eq : exempted_names = "GEORNDGEOS".
Proof. reflexivity. Qed.

Lemma three_names_are_exempted (sim : Simulator) :
  In (routing_algorithm_name sim) ["GEO"; "RND"; "GEOS"] ->
  broadcasts_feedback sim = false.
Proof.
  unfold broadcasts_feedback.
  intros [<- | [<- | [<- | []]]]; reflexivity.
Qed.

(** ** Buffer maintenance *)

Lemma Packet_is_expired_iff (p : Packet) (cur_step : Z) :
  Packet_is_expired p cur_step = true <-> deadline (event_ref p) < cur_step.
Proof. unfold Packet_is_expired. rewrite Z.gtb_lt. reflexivity. Qed.

Lemma update_loop_spec (sim : Simulator) (self : Drone) (cur_step : Z)
    (buffer : list ref) (st : update_loop) :
  let w := loop_world st in
  fold_left (update_packets_body sim self cur_step) buffer st
  = mkLoop
      (mkWorld (packets w) (metrics w)
         (feedbacks w
          ++ (if broadcasts_feedback sim
              then flat_map (expiry_calls sim w self)
                     (List.filter (dead w cur_step) buffer)
              else [])))
      (tmp_buffer st ++ List.filter (alive w cur_step) buffer)
      (fold_left tighten
         (map (deadline_of w) (List.filter (alive w cur_step) buffer))
         (loop_tightest st)).
Proof.
  revert st. induction buffer as [|pck rest IH]; intros st; simpl.
  - destruct st as [[]]; simpl.
    destruct (broadcasts_feedback sim); rewrite !app_nil_r; reflexivity.
  - assert (Ha : alive (loop_world st) cur_step pck
                = negb (dead (loop_world st) cur_step pck)) by reflexivity.
    rewrite IH. cbn [List.filter]. rewrite Ha.
    unfold update_packets_body.
    change (Packet_is_expired (packets (loop_world st) pck) cur_step)
      with (dead (loop_world st) cur_step pck).
    destruct (dead (loop_world st) cur_step pck); cbn [negb].
    + destruct (broadcasts_feedback sim) eqn:Hb.
      * rewrite broadcast_spec.
        cbn [loop_world tmp_buffer loop_tightest packets metrics feedbacks
             flat_map].
        rewrite <- app_assoc. reflexivity.
      * reflexivity.
    + cbn [loop_world tmp_buffer loop_tightest map fold_left].
      rewrite <- app_assoc. reflexivity.
Qed.

Lemma double_le (d d' : Z) : d <= d' -> (double d <= double d')%Q.
Proof. intros H. apply nearest_le. rewrite <- Zle_Qle. exact H. Qed.

Lemma canonical_eq (a b : Q) : Qred a = a -> Qred b = b -> (a == b)%Q -> a = b.
Proof. intros Ha Hb E. rewrite <- Ha, <- Hb. apply Qred_complete, E. Qed.

Lemma double_eq (d d' : Z) : (double d == double d')%Q -> double d = double d'.
Proof. apply canonical_eq; apply nearest_canonical. Qed.

Lemma Qred_inject_Z (d : Z) : Qred (inject_Z d) = inject_Z d.
Proof.
  unfold Qred, inject_Z. pose proof (Z.ggcd_gcd d 1) as Hg.
  pose proof (Z.ggcd_correct_divisors d 1) as Hd.
  destruct (Z.ggcd d 1) as [g [a b]]. simpl in Hg. rewrite Z.gcd_1_r in Hg.
  subst g. destruct Hd as [Ha Hb]. rewrite !Z.mul_1_l in *. subst a b.
  reflexivity.
Qed.

(** The float of an integer of at most 53 bits is the integer. *)
Lemma double_small (d : Z) : Z.abs d <= 2 ^ 53 -> double d = inject_Z d.
Proof.
  intros H. apply canonical_eq;
    [apply nearest_canonical | apply Qred_inject_Z | apply exact_Z, H].
Qed.

Lemma tighten_cases (t : float_or_nan) (d : Z) :
  tighten t d
  = match t with
    | NaN => Num (double d)
    | Num a => Num (Qmin (Float.nearest a) (double d))
    end.
Proof. destruct t; reflexivity. Qed.

Lemma Qmin_cases (a b : Q) :
  ((a <= b)%Q /\ Qmin a b = a) \/ ((b < a)%Q /\ Qmin a b = b).
Proof.
  unfold Qmin, GenericMinMax.gmin. destruct (a ?= b)%Q eqn:E.
  - left. apply Qeq_alt in E. split; [lra | reflexivity].
  - left. apply Qlt_alt in E. split; [lra | reflexivity].
  - right. apply Qgt_alt in E. split; [lra | reflexivity].
Qed.

Lemma tighten_least (ds : list Z) (t : float_or_nan) (seen : list Z) :
  least_of seen t -> least_of (seen ++ ds) (fold_left tighten ds t).
Proof.
  revert t seen. induction ds as [|d ds IH]; intros t seen Ht; simpl.
  - rewrite app_nil_r. exact Ht.
  - replace (seen ++ d :: ds) with ((seen ++ [d]) ++ ds)
      by (rewrite <- app_assoc; reflexivity).
    apply IH. rewrite tighten_cases. destruct t as [|m]; simpl in *.
    + subst seen. exists d. split; [|reflexivity].
      split; [left; reflexivity|]. intros d' [<- | []]. lia.
    + destruct Ht as (d0 & [Hin Hle] & ->).
      unfold double at 1. rewrite nearest_idempotent. fold (double d0).
      destruct (Z_le_gt_dec d0 d) as [Hd | Hd].
      * exists d0. split.
        -- split; [apply in_or_app; left; exact Hin|].
           intros d' Hd'. apply in_app_or in Hd'.
           destruct Hd' as [Hd' | [<- | []]]; [apply Hle, Hd' | exact Hd].
        -- pose proof (double_le d0 d Hd) as Hm.
           destruct (Qmin_cases (double d0) (double d)) as [[_ ->] | [Hlt _]];
             [reflexivity | lra].
      * exists d. split.
        -- split; [apply in_or_app; right; left; reflexivity|].
           intros d' Hd'. apply in_app_or in Hd'.
           destruct Hd' as [Hd' | [<- | []]]; [specialize (Hle _ Hd')|]; lia.
        -- assert (Hm : (double d <= double d0)%Q) by (apply double_le; lia).
           destruct (Qmin_cases (double d0) (double d)) as [[Hle' ->] | [_ ->]];
             [apply double_eq; lra | reflexivity].
Qed.

Lemma alive_iff (w : World) (cur_step : Z) (pck : ref) :
  alive w cur_step pck = (cur_step <=? deadline_of w pck).
Proof.
  unfold alive, Packet_is_expired, deadline_of.
  destruct (Z.gtb_spec cur_step (deadline (event_ref (packets w pck))));
    destruct (Z.leb_spec cur_step (deadline (event_ref (packets w pck))));
    simpl; lia || reflexivity.
Qed.

Lemma filter_alive (w : World) (cur_step : Z) (buffer : list ref) :
  List.filter (alive w cur_step) buffer
  = List.filter (fun pck => cur_step <=? deadline_of w pck) buffer.
Proof.
  induction buffer as [|pck rest IH]; simpl; [reflexivity|].
  rewrite alive_iff, IH. reflexivity.
Qed.

(** What [update_packets] returns, attribute by attribute. *)
Lemma update_packets_eq (sim : Simulator) (w : World) (self : Drone)
    (cur_step : Z) :
  let kept := List.filter (alive w cur_step) (_Drone__buffer self) in
  let tightest := fold_left tighten (map (deadline_of w) kept) NaN in
  Drone_update_packets sim w self cur_step
  = (mkWorld (packets w) (metrics w)
       (feedbacks w
        ++ (if broadcasts_feedback sim
            then flat_map (expiry_calls sim w self)
                   (List.filter (dead w cur_step) (_Drone__buffer self))
            else [])),
     let self := set_tightest_event_deadline self (Some tightest) in
     let self := set_buffer self kept in
     if (length kept =? 0)%nat then set_move_routing self false else self).
Proof.
  unfold Drone_update_packets. rewrite update_loop_spec.
  cbn [loop_world tmp_buffer loop_tightest app]. f_equal.
  unfold Drone_buffer_length. cbn [set_buffer _Drone__buffer].
  destruct (List.filter (alive w cur_step) (_Drone__buffer self));
    reflexivity.
Qed.

(** C2, as the code has it. [update_packets(step)] keeps, in order, the
    packets whose event deadline is at least [step] and removes exactly those
    whose deadline is below [step] (the expired ones); a packet whose deadline
    is [step] itself stays.  [tightest_event_deadline] becomes the float of
    the least deadline among the packets kept, which is that deadline itself
    when it has at most 53 bits, and not-a-number when none is kept;
    [move_routing] is cleared when the buffer ends empty.  The packets
    themselves are not touched. *)
Theorem update_packets_keeps_unexpired (sim : Simulator) (w : World)
    (self : Drone) (cur_step : Z) :
  let after := Drone_update_packets sim w self cur_step in
  let kept :=
    List.filter (fun pck => cur_step <=? deadline_of w pck)
      (_Drone__buffer self) in
  _Drone__buffer after.2 = kept
  /\ (forall pck, In pck (_Drone__buffer self) ->
      (Packet_is_expired (packets w pck) cur_step = true
       <-> deadline_of w pck < cur_step)
      /\ (In pck (_Drone__buffer after.2) <-> ~ deadline_of w pck < cur_step))
  /\ ((forall pck, In pck kept -> has_float (deadline_of w pck)) ->
      exists t, tightest_event_deadline after.2 = Some t
                /\ least_of (map (deadline_of w) kept) t
                /\ forall d, least (map (deadline_of w) kept) d ->
                     Z.abs d <= 2 ^ 53 -> t = Num (inject_Z d))
  /\ (kept = [] -> move_routing after.2 = false)
  /\ (kept <> [] -> move_routing after.2 = move_routing self)
  /\ packets after.1 = packets w.
Proof.
  intros after kept. subst after. rewrite update_packets_eq.
  rewrite filter_alive. fold kept. cbn [fst snd].
  assert (Hbuf : _Drone__buffer
                   (if (length kept =? 0)%nat
                    then set_move_routing
                           (set_buffer
                              (set_tightest_event_deadline self
                                 (Some (fold_left tighten
                                          (map (deadline_of w) kept) NaN)))
                              kept) false
                    else set_buffer
                           (set_tightest_event_deadline self
                              (Some (fold_left tighten
                                       (map (deadline_of w) kept) NaN)))
                           kept) = kept)
    by (destruct (length kept =? 0)%nat; reflexivity).
  split; [exact Hbuf|]. split; [|split; [|split; [|split]]].
  - intros pck Hin. split; [apply Packet_is_expired_iff|].
    rewrite Hbuf. unfold kept. rewrite filter_In, Z.leb_le. intuition lia.
  - intros _. exists (fold_left tighten (map (deadline_of w) kept) NaN).
    pose proof (tighten_least (map (deadline_of w) kept) NaN [] eq_refl)
      as Hleast. cbn [app] in Hleast.
    split; [destruct (length kept =? 0)%nat; reflexivity|].
    split; [exact Hleast|].
    intros d [Hin Hle] Hsmall.
    destruct (fold_left tighten (map (deadline_of w) kept) NaN) as [|m].
    + rewrite Hleast in Hin. destruct Hin.
    + destruct Hleast as (d' & [Hin' Hle'] & ->).
      assert (d' = d) as -> by (specialize (Hle _ Hin'); specialize (Hle' _ Hin); lia).
      rewrite double_small by exact Hsmall. reflexivity.
  - intros ->. reflexivity.
  - intros Hne. destruct kept; [congruence | reflexivity].
  - reflexivity.
Qed.

(** The scenario of the specification: deadlines 100 and 150, step 101. *)
Lemma update_packets_keeps_unexpired_witness :
  let after :=
    Drone_update_packets (sample_simulator "QL") two_deadlines
      drone_with_two_packets 101 in
  map (deadline_of two_deadlines) (_Drone__buffer drone_with_two_packets)
  = [100; 150]
  /\ _Drone__buffer after.2 = [2001]
  /\ tightest_event_deadline after.2 = Some (Num 150)
  /\ move_routing after.2 = true.
Proof.
  cbv zeta.
  destruct (update_packets_keeps_unexpired (sample_simulator "QL")
              two_deadlines drone_with_two_packets 101)
    as (Hbuf & _ & Htight & _ & Hmove & _).
  assert (Hkept : List.filter (fun pck => 101 <=? deadline_of two_deadlines pck)
                    (_Drone__buffer drone_with_two_packets) = [2001])
    by (vm_compute; reflexivity).
  rewrite Hkept in Hbuf, Htight, Hmove.
  split; [vm_compute; reflexivity|]. split; [exact Hbuf|]. split.
  - destruct Htight as (t & Ht & _ & Hsmall).
    { intros pck [<- | []]. vm_compute. reflexivity. }
    rewrite Ht. rewrite (Hsmall 150); [reflexivity | | vm_compute; discriminate].
    split; [left; vm_compute; reflexivity|].
    intros d' [<- | []]. vm_compute. discriminate.
  - rewrite Hmove; [reflexivity | discriminate].
Defined.

(** C2, as it is stated, fails on a packet whose deadline is the current
    step: the deadline 5 is below 5 + 1, and [update_packets(5)] keeps the
    packet. *)
Lemma update_packets_keeps_deadline_at_step :
  let w := (after_sensing "QL").1 in
  let self := (after_sensing "QL").2 in
  let after := Drone_update_packets (sample_simulator "QL") w self 5 in
  _Drone__buffer self = [2000]
  /\ deadline_of w 2000 = 5
  /\ deadline_of w 2000 < 5 + 1
  /\ _Drone__buffer after.2 = [2000]
  /\ ~ (forall pck, In pck (_Drone__buffer self) ->
        deadline_of w pck < 5 + 1 -> ~ In pck (_Drone__buffer after.2)).
Proof.
  assert (Hb : _Drone__buffer (after_sensing "QL").2 = [2000])
    by (vm_compute; reflexivity).
  assert (Hd : deadline_of (after_sensing "QL").1 2000 = 5)
    by (vm_compute; reflexivity).
  assert (Ha : _Drone__buffer
                 (Drone_update_packets (sample_simulator "QL")
                    (after_sensing "QL").1 (after_sensing "QL").2 5).2
               = [2000])
    by (vm_compute; reflexivity).
  cbv zeta. rewrite Hb, Hd, Ha. repeat split; try lia.
  intros H. apply (H 2000); [left; reflexivity | rewrite Hd; lia
                            | left; reflexivity].
Qed.

(** The tightest deadline is a float: a deadline of 2^53 + 1 is held as
    2^53. *)
Example update_packets_rounds_deadline :
  let sim := sample_simulator "QL" in
  let far := Event__init__ sim empty_world 1000 (10, 0)%Q 0 (Some (2 ^ 53 + 1)) in
  let w := Packet__init__ sim far.1 2000 0 (Some far.2) 0 100 in
  let after := Drone_update_packets sim w drone_with_packet 0 in
  deadline_of w 2000 = 2 ^ 53 + 1
  /\ _Drone__buffer after.2 = [2000]
  /\ tightest_event_deadline after.2 = Some (Num (inject_Z (2 ^ 53))).
Proof. vm_compute. repeat split. Qed.

(** The calls [update_packets] makes: for each expired packet, in the order
    of the buffer, one call per drone of the simulation, and none at all
    when the name of the routing algorithm occurs inside "GEORNDGEOS". *)
Lemma update_packets_feedbacks (sim : Simulator) (w : World) (self : Drone)
    (cur_step : Z) :
  feedbacks (Drone_update_packets sim w self cur_step).1
  = feedbacks w
    ++ (if Py.str_in (routing_algorithm_name sim) "GEORNDGEOS" then []
        else flat_map (expiry_calls sim w self)
               (List.filter (dead w cur_step) (_Drone__buffer self))).
Proof.
  rewrite update_packets_eq. cbn [fst feedbacks].
  unfold broadcasts_feedback. rewrite exempted_names_eq.
  destruct (Py.str_in (routing_algorithm_name sim) "GEORNDGEOS");
    reflexivity.
Qed.

Example expiry_feedback_QL :
  feedbacks
    (Drone_update_packets (sample_simulator "QL") (after_sensing "QL").1
       (after_sensing "QL").2 6).1
  = [mkFeedback 0 0 1000 5 (-1) (-100); mkFeedback 1 0 1000 5 (-1) (-100)].
Proof. vm_compute. reflexivity. Qed.

(** C3. The routing algorithm named "OS" is none of "GEO", "RND" and
    "GEOS", and yet no feedback is broadcast for it, neither when its packet
    expires in [update_packets] nor when the depot receives the packet: its
    name occurs inside the single string that the three adjacent literals
    make. *)
Theorem feedback_skipped_for_name_inside_literal :
  let sim := sample_simulator "OS" in
  let w := (after_sensing "OS").1 in
  let self := (after_sensing "OS").2 in
  ~ In (routing_algorithm_name sim) ["GEO"; "RND"; "GEOS"]
  /\ broadcasts_feedback sim = false
  /\ _Drone__buffer self = [2000]
  /\ Packet_is_expired (packets w 2000) 6 = true
  /\ _Drone__buffer (Drone_update_packets sim w self 6).2 = []
  /\ feedbacks (Drone_update_packets sim w self 6).1 = []
  /\ feedbacks (Depot_transfer_notified_packets sim w sample_depot self 3).1
     = [].
Proof.
  cbv zeta. split.
  - simpl. intros [H | [H | [H | []]]]; discriminate H.
  - repeat split; vm_compute; reflexivity.
Qed.

(** ** Offloading to the depot *)

Lemma is_in_iff (pck : ref) (buffer : list ref) :
  is_in pck buffer = true <-> In pck buffer.
Proof.
  unfold is_in. rewrite existsb_exists. split.
  - intros (x & Hin & Heq). apply Z.eqb_eq in Heq. subst x. exact Hin.
  - intros Hin. exists pck. split; [exact Hin | apply Z.eqb_refl].
Qed.

Lemma transfer_body_packets (sim : Simulator) (current_drone : Drone)
    (cur_step : Z) (w : World) (pck r : ref) :
  packets (transfer_body sim current_drone cur_step w pck) r
  = if decide (r = pck) then set_time_delivery (packets w r) (Some cur_step)
    else packets w r.
Proof.
  unfold transfer_body. destruct (broadcasts_feedback sim).
  - rewrite broadcast_spec. simpl.
    destruct (decide (r = pck)) as [->|]; reflexivity.
  - simpl. destruct (decide (r = pck)) as [->|]; reflexivity.
Qed.

Lemma transfer_loop_packets (sim : Simulator) (current_drone : Drone)
    (cur_step : Z) (buffer : list ref) (w : World) (r : ref) :
  packets (fold_left (transfer_body sim current_drone cur_step) buffer w) r
  = if is_in r buffer then set_time_delivery (packets w r) (Some cur_step)
    else packets w r.
Proof.
  revert w. induction buffer as [|pck rest IH]; intros w; [reflexivity|].
  cbn [fold_left]. rewrite IH, transfer_body_packets.
  unfold is_in. cbn [existsb]. fold (is_in r rest).
  destruct (decide (r = pck)) as [->|Hne].
  - rewrite Z.eqb_refl. cbn [orb]. destruct (is_in pck rest); reflexivity.
  - apply Z.eqb_neq in Hne. rewrite Hne. reflexivity.
Qed.

Lemma delivery_calls_ext (sim : Simulator) (w w' : World)
    (current_drone : Drone) (cur_step : Z) (buffer : list ref) :
  (forall r, event_ref (packets w' r) = event_ref (packets w r)) ->
  flat_map (delivery_calls sim w' current_drone cur_step) buffer
  = flat_map (delivery_calls sim w current_drone cur_step) buffer.
Proof.
  intros Hev. induction buffer as [|pck rest IH]; [reflexivity|].
  cbn [flat_map]. rewrite IH. unfold delivery_calls. rewrite Hev.
  reflexivity.
Qed.

Lemma transfer_loop_log (sim : Simulator) (current_drone : Drone)
    (cur_step : Z) (buffer : list ref) (w : World) :
  let w' := fold_left (transfer_body sim current_drone cur_step) buffer w in
  drones_packets_to_depot_list (metrics w')
  = drones_packets_to_depot_list (metrics w)
    ++ map (fun pck => (pck, cur_step)) buffer
  /\ feedbacks w'
     = feedbacks w
       ++ (if broadcasts_feedback sim
           then flat_map (delivery_calls sim w current_drone cur_step) buffer
           else []).
Proof.
  revert w. induction buffer as [|pck rest IH]; intros w.
  - cbn. rewrite app_nil_r. destruct (broadcasts_feedback sim);
      rewrite app_nil_r; split; reflexivity.
  - cbn [fold_left]. cbv zeta in IH |- *.
    destruct (IH (transfer_body sim current_drone cur_step w pck))
      as [IHl IHf].
    rewrite IHl, IHf. clear IHl IHf IH.
    rewrite (delivery_calls_ext sim w
               (transfer_body sim current_drone cur_step w pck))
      by (intros r; rewrite transfer_body_packets;
          destruct (decide (r = pck)); reflexivity).
    unfold transfer_body, delivery_calls.
    destruct (broadcasts_feedback sim).
    + rewrite broadcast_spec. cbn. rewrite <- !app_assoc. split; reflexivity.
    + cbn. rewrite <- !app_assoc. split; reflexivity.
Qed.

(** C7. [transfer_notified_packets] appends the buffer of the drone to the
    log of the depot, whatever the log holds already; every packet of that
    buffer has [time_delivery] set to the step and nothing else of it changed,
    and the other packets are untouched; the chronological list gains one
    entry per packet of the buffer, in order.  The drone is only read, so a
    second offload finds the same buffer and appends all of it again, to the
    log and to the list. *)
Theorem transfer_notified_packets_spec (sim : Simulator) (w : World)
    (self : Depot) (current_drone : Drone) (cur_step next_step : Z) :
  let buffer := Drone_all_packets current_drone in
  let once :=
    Depot_transfer_notified_packets sim w self current_drone cur_step in
  let twice :=
    Depot_transfer_notified_packets sim once.1 once.2 current_drone
      next_step in
  Depot_all_packets once.2 = Depot_all_packets self ++ buffer
  /\ (forall pck, In pck buffer ->
      packets once.1 pck = set_time_delivery (packets w pck) (Some cur_step)
      /\ time_delivery (packets once.1 pck) = Some cur_step)
  /\ (forall pck, ~ In pck buffer -> packets once.1 pck = packets w pck)
  /\ drones_packets_to_depot_list (metrics once.1)
     = drones_packets_to_depot_list (metrics w)
       ++ map (fun pck => (pck, cur_step)) buffer
  /\ Depot_all_packets twice.2 = (Depot_all_packets self ++ buffer) ++ buffer
  /\ drones_packets_to_depot_list (metrics twice.1)
     = (drones_packets_to_depot_list (metrics w)
        ++ map (fun pck => (pck, cur_step)) buffer)
       ++ map (fun pck => (pck, next_step)) buffer
  /\ (forall pck, In pck buffer ->
      time_delivery (packets twice.1 pck) = Some next_step).
Proof.
  intros buffer once twice.
  assert (Hpk : forall step w0 d pck, In pck buffer ->
            packets (Depot_transfer_notified_packets sim w0 d current_drone
                       step).1 pck
            = set_time_delivery (packets w0 pck) (Some step)).
  { intros step w0 d pck Hin. unfold Depot_transfer_notified_packets.
    cbn [fst]. rewrite transfer_loop_packets.
    apply is_in_iff in Hin. fold buffer. rewrite Hin. reflexivity. }
  assert (Hlog : forall step w0 d,
            drones_packets_to_depot_list
              (metrics (Depot_transfer_notified_packets sim w0 d
                          current_drone step).1)
            = drones_packets_to_depot_list (metrics w0)
              ++ map (fun pck => (pck, step)) buffer).
  { intros step w0 d. unfold Depot_transfer_notified_packets. cbn [fst].
    apply transfer_loop_log. }
  split; [reflexivity|]. split.
  { intros pck Hin. subst once. rewrite (Hpk _ _ _ _ Hin).
    split; reflexivity. }
  split.
  { intros pck Hnin. subst once. unfold Depot_transfer_notified_packets.
    cbn [fst]. rewrite transfer_loop_packets. fold buffer.
    destruct (is_in pck buffer) eqn:Hin; [|reflexivity].
    apply is_in_iff in Hin. contradiction. }
  split; [apply Hlog|]. split; [reflexivity|]. split.
  { subst twice. rewrite Hlog. subst once. rewrite Hlog. reflexivity. }
  intros pck Hin. subst twice. rewrite (Hpk _ _ _ _ Hin). reflexivity.
Qed.

Lemma transfer_notified_packets_spec_witness :
  let w := two_deadlines in
  let self := drone_with_two_packets in
  let once :=
    Depot_transfer_notified_packets (sample_simulator "QL") w sample_depot
      self 120 in
  let twice :=
    Depot_transfer_notified_packets (sample_simulator "QL") once.1 once.2
      self 121 in
  Depot_all_packets once.2 = [2000; 2001]
  /\ time_delivery (packets w 2000) = None
  /\ time_delivery (packets once.1 2000) = Some 120
  /\ drones_packets_to_depot_list (metrics once.1)
     = [(2000, 120); (2001, 120)]
  /\ Depot_all_packets twice.2 = [2000; 2001; 2000; 2001]
  /\ drones_packets_to_depot_list (metrics twice.1)
     = [(2000, 120); (2001, 120); (2000, 121); (2001, 121)]
  /\ time_delivery (packets twice.1 2000) = Some 121.
Proof.
  cbv zeta.
  destruct (transfer_notified_packets_spec (sample_simulator "QL")
              two_deadlines sample_depot drone_with_two_packets 120 121)
    as (Hlog & Hset & _ & Hlist & Hlog2 & Hlist2 & Hset2).
  assert (Hin : In 2000 (Drone_all_packets drone_with_two_packets))
    by (left; reflexivity).
  split; [rewrite Hlog; reflexivity|].
  split; [vm_compute; reflexivity|].
  split; [exact (proj2 (Hset 2000 Hin))|].
  split; [rewrite Hlist; reflexivity|].
  split; [rewrite Hlog2; reflexivity|].
  split; [rewrite Hlist2; reflexivity|].
  exact (Hset2 2000 Hin).
Defined.

(** ** Packet intake *)

Lemma is_known_packet_iff (w : World) (self : Drone) (packet : ref) :
  Drone_is_known_packet w self packet = true
  <-> In (event_id w packet) (map (event_id w) (_Drone__buffer self)).
Proof.
  unfold Drone_is_known_packet. rewrite existsb_exists, in_map_iff.
  split; intros (pk & H1 & H2); exists pk.
  - apply Entity_eq_iff in H2. split; assumption.
  - split; [assumption|]. apply Entity_eq_iff. exact H1.
Qed.

Lemma accept_one (w : World) (self : Drone) (packet : ref) :
  Drone_accept_packets w self [packet]
  = if Drone_is_known_packet w self packet then self
    else set_buffer self (_Drone__buffer self ++ [packet]).
Proof.
  unfold Drone_accept_packets. cbn [fold_left].
  destruct (Drone_is_known_packet w self packet); reflexivity.
Qed.

Lemma accept_cons (w : World) (self : Drone) (packet : ref)
    (rest : list ref) :
  Drone_accept_packets w self (packet :: rest)
  = Drone_accept_packets w (Drone_accept_packets w self [packet]) rest.
Proof. reflexivity. Qed.

Lemma distinct_events_NoDup (w : World) (buffer : list ref) :
  distinct_events w buffer <-> NoDup (map (event_id w) buffer).
Proof.
  rewrite NoDup_alt. unfold distinct_events. split.
  - intros H i j x Hi Hj.
    change (map (event_id w) buffer) with (event_id w <$> buffer) in Hi, Hj.
    rewrite list_lookup_fmap in Hi, Hj.
    destruct (buffer !! i) as [p|] eqn:Hp; [|discriminate].
    destruct (buffer !! j) as [q|] eqn:Hq; [|discriminate].
    apply (H i j p q Hp Hq). apply Entity_eq_iff.
    cbn in Hi, Hj. unfold event_id in Hi, Hj. congruence.
  - intros H i j p q Hp Hq Heq. apply Entity_eq_iff in Heq.
    apply (H i j (event_id w p));
      change (map (event_id w) buffer) with (event_id w <$> buffer);
      rewrite list_lookup_fmap.
    + rewrite Hp. reflexivity.
    + rewrite Hq. cbn. unfold event_id. congruence.
Qed.

Lemma accept_packets_NoDup (w : World) (incoming : list ref) (self : Drone) :
  NoDup (map (event_id w) (_Drone__buffer self)) ->
  NoDup (map (event_id w)
           (_Drone__buffer (Drone_accept_packets w self incoming))).
Proof.
  revert self. induction incoming as [|packet rest IH]; intros self Hnd.
  - exact Hnd.
  - rewrite accept_cons. apply IH. rewrite accept_one.
    destruct (Drone_is_known_packet w self packet) eqn:Hk; [exact Hnd|].
    cbn [set_buffer _Drone__buffer]. rewrite map_app. cbn [map].
    apply NoDup_app. split; [exact Hnd|]. split.
    + intros x Hx Hx'. apply list_elem_of_In in Hx.
      apply list_elem_of_singleton in Hx'. subst x.
      apply is_known_packet_iff in Hx. congruence.
    + apply NoDup_singleton.
Qed.

(** [accept_packets] writes the buffer alone, and only at its end. *)
Lemma accept_packets_frame (w : World) (incoming : list ref) (self : Drone) :
  exists added,
    Drone_accept_packets w self incoming
    = set_buffer self (_Drone__buffer self ++ added)
    /\ forall p, In p added -> In p incoming.
Proof.
  revert self. induction incoming as [|packet rest IH]; intros self.
  - exists []. split; [|intros p []]. cbn. rewrite app_nil_r.
    destruct self; reflexivity.
  - rewrite accept_cons, accept_one.
    destruct (Drone_is_known_packet w self packet).
    + destruct (IH self) as (added & -> & Hsub). exists added.
      split; [reflexivity|]. intros p Hp. right. auto.
    + destruct (IH (set_buffer self (_Drone__buffer self ++ [packet])))
        as (added & -> & Hsub).
      exists (packet :: added). split.
      * cbn [set_buffer _Drone__buffer Drone_entity depot_coords path speed
             buffer_max_size residual_energy initial_energy
             come_back_to_mission last_move_routing
             accumulated_moving_energy accumulated_hello_energy
             accumulated_send_energy tightest_event_deadline current_waypoint
             distance_from_depot move_routing last_mission_coords].
        rewrite <- app_assoc. reflexivity.
      * intros p [<- | Hp]; [left; reflexivity | right; auto].
Qed.

Lemma feel_event_buffer (sim : Simulator) (w : World) (self : Drone)
    (cur_step : Z) (ev pk : ref) (size : Q) :
  _Drone__buffer (Drone_feel_event sim w self cur_step ev pk size).2
  = if negb (move_routing self) && negb (come_back_to_mission self)
    then _Drone__buffer self ++ [pk]
    else _Drone__buffer self.
Proof.
  unfold Drone_feel_event.
  destruct (Event__init__ sim w ev (coords self) cur_step None) as [w1 event].
  destruct (Event_as_packet sim w1 event cur_step (identifier self) pk size)
    as [w2 pk'] eqn:Hp.
  assert (pk' = pk) as -> by (unfold Event_as_packet in Hp; congruence).
  destruct (negb (move_routing self) && negb (come_back_to_mission self));
    reflexivity.
Qed.

Lemma feel_event_frame (sim : Simulator) (w : World) (self : Drone)
    (cur_step : Z) (ev pk : ref) (size : Q) :
  (Drone_feel_event sim w self cur_step ev pk size).2
  = set_buffer self
      (_Drone__buffer (Drone_feel_event sim w self cur_step ev pk size).2).
Proof.
  unfold Drone_feel_event.
  destruct (Event__init__ sim w ev (coords self) cur_step None) as [w1 event].
  destruct (Event_as_packet sim w1 event cur_step (identifier self) pk size)
    as [w2 pk'].
  destruct (negb (move_routing self) && negb (come_back_to_mission self));
    destruct self; reflexivity.
Qed.

Lemma NoDup_map_filter {A B : Type} (f : A -> B) (keep : A -> bool)
    (l : list A) :
  NoDup (map f l) -> NoDup (map f (List.filter keep l)).
Proof.
  induction l as [|x l IH]; [trivial|]. cbn [map List.filter].
  rewrite NoDup_cons. intros [Hx Hl]. destruct (keep x); [|auto].
  cbn [map]. apply NoDup_cons. split; [|auto].
  intros Hin. apply Hx. apply list_elem_of_In in Hin.
  apply list_elem_of_In. apply in_map_iff in Hin.
  destruct Hin as (y & Hy & Hin). apply filter_In in Hin.
  apply in_map_iff. exists y. tauto.
Qed.

Lemma list_remove_In (w : World) (buffer : list ref) (packet pk : ref) :
  In pk (list_remove w buffer packet) -> In pk buffer.
Proof.
  induction buffer as [|x rest IH]; [trivial|]. cbn [list_remove].
  destruct (packet_eqb w x packet); [right; assumption|].
  intros [<- | Hin]; [left; reflexivity | right; auto].
Qed.

Lemma NoDup_map_list_remove {B : Type} (f : ref -> B) (w : World)
    (buffer : list ref) (packet : ref) :
  NoDup (map f buffer) -> NoDup (map f (list_remove w buffer packet)).
Proof.
  induction buffer as [|x rest IH]; [trivial|]. cbn [map list_remove].
  rewrite NoDup_cons. intros [Hx Hl].
  destruct (packet_eqb w x packet); [exact Hl|].
  cbn [map]. apply NoDup_cons. split; [|auto].
  intros Hin. apply Hx. apply list_elem_of_In in Hin.
  apply list_elem_of_In. apply in_map_iff in Hin.
  destruct Hin as (y & Hy & Hin). apply list_remove_In in Hin.
  apply in_map_iff. exists y. tauto.
Qed.

Lemma remove_packets_NoDup (w : World) (outgoing : list ref) (self : Drone) :
  NoDup (map (event_id w) (_Drone__buffer self)) ->
  NoDup (map (event_id w)
           (_Drone__buffer (Drone_remove_packets w self outgoing))).
Proof.
  revert self. induction outgoing as [|packet rest IH]; intros self Hnd;
    [exact Hnd|].
  unfold Drone_remove_packets. cbn [fold_left]. apply IH.
  destruct (existsb _ _); [|exact Hnd].
  cbn [set_buffer _Drone__buffer]. apply NoDup_map_list_remove. exact Hnd.
Qed.

(** [feel_event] builds one packet, at [pk], about an event at [ev], and
    touches no other packet. *)
Lemma feel_event_packets (sim : Simulator) (w : World) (self : Drone)
    (cur_step : Z) (ev pk : ref) (size : Q) :
  let w' := (Drone_feel_event sim w self cur_step ev pk size).1 in
  event_id w' pk = ev /\ forall r, r <> pk -> packets w' r = packets w r.
Proof.
  unfold Drone_feel_event, Event__init__, Event_as_packet, Packet__init__,
    event_id.
  destruct (negb (coords_eqb (coords self) (-1, -1)%Q)
            && negb (cur_step =? -1));
    destruct (negb (move_routing self) && negb (come_back_to_mission self));
    cbn; (destruct (decide (pk = pk)); [|congruence]);
    (split; [unfold Packet_add_hop; reflexivity|]);
    intros r Hr; destruct (decide (r = pk)); congruence.
Qed.

Lemma call_keeps_distinct (sim : Simulator) (st : World * Drone)
    (c : buffer_call) :
  NoDup (map (event_id st.1) (_Drone__buffer st.2)) ->
  fresh st c ->
  NoDup (map (event_id (call sim st c).1) (_Drone__buffer (call sim st c).2)).
Proof.
  destruct st as [w self]. cbn [fst snd]. intros Hnd Hfresh.
  destruct c as [cur_step ev pk size | incoming | cur_step | outgoing |];
    cbn [call fst snd].
  - destruct Hfresh as [Hpk Hev]. cbn [fst snd] in Hpk, Hev.
    destruct (feel_event_packets sim w self cur_step ev pk size)
      as [Hid Hother].
    assert (Hsame :
              map (event_id (Drone_feel_event sim w self cur_step ev pk size).1)
                (_Drone__buffer self)
              = map (event_id w) (_Drone__buffer self)).
    { apply map_ext_in. intros r Hr. unfold event_id.
      rewrite Hother; [reflexivity|]. intros ->. contradiction. }
    rewrite feel_event_buffer.
    destruct (negb (move_routing self) && negb (come_back_to_mission self)).
    + rewrite map_app, Hsame. cbn [map]. rewrite Hid.
      apply NoDup_app. split; [exact Hnd|]. split; [|apply NoDup_singleton].
      intros x Hx Hx'. apply list_elem_of_singleton in Hx'. subst x.
      apply list_elem_of_In in Hx. contradiction.
    + rewrite Hsame. exact Hnd.
  - apply accept_packets_NoDup. exact Hnd.
  - rewrite update_packets_eq. cbn [fst snd].
    assert (Hkept : NoDup (map (event_id w)
                             (List.filter (alive w cur_step)
                                (_Drone__buffer self))))
      by (apply NoDup_map_filter; exact Hnd).
    destruct (length _ =? 0)%nat; exact Hkept.
  - apply remove_packets_NoDup. exact Hnd.
  - constructor.
Qed.

Lemma calls_keep_distinct (sim : Simulator) (calls : list buffer_call)
    (st : World * Drone) :
  distinct_events st.1 (_Drone__buffer st.2) ->
  all_fresh sim st calls ->
  distinct_events (fold_left (call sim) calls st).1
    (_Drone__buffer (fold_left (call sim) calls st).2).
Proof.
  revert st. induction calls as [|c rest IH]; intros st Hd Hf; [exact Hd|].
  destruct Hf as [Hc Hrest]. cbn [fold_left]. apply IH; [|exact Hrest].
  apply distinct_events_NoDup. apply call_keeps_distinct; [|exact Hc].
  apply distinct_events_NoDup. exact Hd.
Qed.

(** C4. [accept_packets] keeps the buffer free of two packets whose events
    compare equal: if it was so before the call it is so after it, and a
    drone that starts from an empty buffer has it so after any call.  The
    other calls that change the buffer ([feel_event], whose new event and
    packet are at fresh addresses, [update_packets], [remove_packets],
    [empty_buffer]) keep it so too, whatever their order, so the buffer is
    never found otherwise.  A packet is known exactly when some packet of the
    buffer has an event with the same identifier, whatever the identifiers of
    the two packets; accepting a known packet changes nothing, so the length
    of the buffer stays. *)
Theorem accept_packets_distinct_events (sim : Simulator) (w : World)
    (self : Drone) (incoming : list ref) (packet : ref)
    (calls : list buffer_call) :
  (distinct_events w (_Drone__buffer self) ->
   distinct_events w (_Drone__buffer (Drone_accept_packets w self incoming)))
  /\ distinct_events w
       (_Drone__buffer
          (Drone_accept_packets w (Drone_empty_buffer self) incoming))
  /\ (distinct_events w (_Drone__buffer self) ->
      all_fresh sim (w, self) calls ->
      distinct_events (fold_left (call sim) calls (w, self)).1
        (_Drone__buffer (fold_left (call sim) calls (w, self)).2))
  /\ (Drone_is_known_packet w self packet = true
      <-> exists pk, In pk (_Drone__buffer self)
                     /\ identifier (event_ref (packets w pk))
                        = identifier (event_ref (packets w packet)))
  /\ (Drone_is_known_packet w self packet = true ->
      Drone_accept_packets w self [packet] = self
      /\ length (_Drone__buffer (Drone_accept_packets w self [packet]))
         = length (_Drone__buffer self)).
Proof.
  split; [|split; [|split; [|split]]].
  - rewrite !distinct_events_NoDup. apply accept_packets_NoDup.
  - rewrite distinct_events_NoDup. apply accept_packets_NoDup.
    cbn. constructor.
  - apply (calls_keep_distinct sim calls (w, self)).
  - rewrite is_known_packet_iff, in_map_iff. unfold event_id.
    split; intros (pk & H1 & H2); exists pk; split; assumption.
  - intros Hk. rewrite accept_one, Hk. split; reflexivity.
Qed.

Lemma accept_packets_distinct_events_witness :
  let sim := sample_simulator "QL" in
  let calls := [Feel 1 1002 2003 100; Accept [2001; 2002]; Update 3] in
  distinct_events three_packets (_Drone__buffer drone_with_packet)
  /\ Drone_is_known_packet three_packets drone_with_packet 2001 = true
  /\ identifier (packets three_packets 2001)
     <> identifier (packets three_packets 2000)
  /\ _Drone__buffer
       (Drone_accept_packets three_packets drone_with_packet [2001; 2002])
     = [2000; 2002]
  /\ distinct_events three_packets
       (_Drone__buffer
          (Drone_accept_packets three_packets drone_with_packet [2001; 2002]))
  /\ length
       (_Drone__buffer
          (Drone_accept_packets three_packets drone_with_packet [2001]))
     = length (_Drone__buffer drone_with_packet)
  /\ all_fresh sim (three_packets, drone_with_packet) calls
  /\ _Drone__buffer
       (fold_left (call sim) calls (three_packets, drone_with_packet)).2
     = [2000; 2003; 2002]
  /\ distinct_events
       (fold_left (call sim) calls (three_packets, drone_with_packet)).1
       (_Drone__buffer
          (fold_left (call sim) calls (three_packets, drone_with_packet)).2).
Proof.
  cbv zeta.
  assert (H0 : distinct_events three_packets (_Drone__buffer drone_with_packet)).
  { apply distinct_events_NoDup. vm_compute. apply NoDup_singleton. }
  assert (Hk : Drone_is_known_packet three_packets drone_with_packet 2001
               = true) by (vm_compute; reflexivity).
  assert (Hf : all_fresh (sample_simulator "QL")
                 (three_packets, drone_with_packet)
                 [Feel 1 1002 2003 100; Accept [2001; 2002]; Update 3]).
  { cbn [all_fresh fresh]. split; [|tauto]. split; vm_compute.
    - intros [H | []]. discriminate H.
    - intros [H | []]. discriminate H. }
  destruct (accept_packets_distinct_events (sample_simulator "QL")
              three_packets drone_with_packet [2001; 2002] 2001
              [Feel 1 1002 2003 100; Accept [2001; 2002]; Update 3])
    as (H1 & _ & H3 & _ & H5).
  split; [exact H0|]. split; [exact Hk|].
  split; [vm_compute; discriminate|].
  split; [vm_compute; reflexivity|].
  split; [exact (H1 H0)|]. split; [exact (proj2 (H5 Hk))|].
  split; [exact Hf|]. split; [vm_compute; reflexivity|].
  exact (H3 H0 Hf).
Defined.

Lemma is_full_iff (self : Drone) :
  Drone_is_full self = true
  <-> Drone_buffer_length self = buffer_max_size self.
Proof. unfold Drone_is_full. apply Z.eqb_eq. Qed.

(** C8. Neither intake looks at [buffer_max_size].  On mission (neither
    [move_routing] nor [come_back_to_mission]), [feel_event] appends the
    packet it builds; [accept_packets] appends a packet whose event is not
    known.  Both do so when the buffer is at its capacity or beyond, and the
    capacity itself is not changed, so the length then exceeds it.  [is_full]
    compares the length with the capacity for equality. *)
Theorem intake_ignores_capacity (sim : Simulator) (w : World) (self : Drone)
    (cur_step : Z) (ev pk : ref) (size : Q) (packet : ref) :
  let sensed := (Drone_feel_event sim w self cur_step ev pk size).2 in
  let accepted := Drone_accept_packets w self [packet] in
  (move_routing self = false -> come_back_to_mission self = false ->
   _Drone__buffer sensed = _Drone__buffer self ++ [pk]
   /\ buffer_max_size sensed = buffer_max_size self
   /\ (buffer_max_size self <= Drone_buffer_length self ->
       buffer_max_size sensed < Drone_buffer_length sensed))
  /\ (Drone_is_known_packet w self packet = false ->
      _Drone__buffer accepted = _Drone__buffer self ++ [packet]
      /\ buffer_max_size accepted = buffer_max_size self
      /\ (buffer_max_size self <= Drone_buffer_length self ->
          buffer_max_size accepted < Drone_buffer_length accepted))
  /\ (Drone_is_full self = true
      <-> Drone_buffer_length self = buffer_max_size self).
Proof.
  intros sensed accepted. split; [|split; [|apply is_full_iff]].
  - intros Hm Hc.
    assert (Hb : _Drone__buffer sensed = _Drone__buffer self ++ [pk])
      by (subst sensed; rewrite feel_event_buffer, Hm, Hc; reflexivity).
    assert (Hs : buffer_max_size sensed = buffer_max_size self)
      by (subst sensed; rewrite feel_event_frame; reflexivity).
    split; [exact Hb|]. split; [exact Hs|].
    unfold Drone_buffer_length. rewrite Hb, Hs, length_app. simpl. lia.
  - intros Hk. subst accepted. rewrite accept_one, Hk.
    split; [reflexivity|]. split; [reflexivity|].
    unfold Drone_buffer_length. cbn [set_buffer _Drone__buffer buffer_max_size].
    rewrite length_app. simpl. lia.
Qed.

Lemma intake_ignores_capacity_witness :
  let sim := sample_simulator "QL" in
  let w := after_two_events.1 in
  let self := after_two_events.2 in
  Drone_is_full self = true
  /\ _Drone__buffer (Drone_feel_event sim w self 2 1002 2002 100).2
     = [2000; 2001; 2002]
  /\ buffer_max_size (Drone_feel_event sim w self 2 1002 2002 100).2
     < Drone_buffer_length (Drone_feel_event sim w self 2 1002 2002 100).2
  /\ _Drone__buffer (Drone_accept_packets w self [77]) = [2000; 2001; 77]
  /\ buffer_max_size (Drone_accept_packets w self [77])
     < Drone_buffer_length (Drone_accept_packets w self [77]).
Proof.
  cbv zeta.
  destruct (intake_ignores_capacity (sample_simulator "QL")
              after_two_events.1 after_two_events.2 2 1002 2002 100 77)
    as (Hfeel & Haccept & Hfull).
  assert (Hm : move_routing after_two_events.2 = false)
    by (vm_compute; reflexivity).
  assert (Hc : come_back_to_mission after_two_events.2 = false)
    by (vm_compute; reflexivity).
  assert (Hk : Drone_is_known_packet after_two_events.1 after_two_events.2 77
               = false) by (vm_compute; reflexivity).
  assert (Hcap : buffer_max_size after_two_events.2
                 <= Drone_buffer_length after_two_events.2)
    by (vm_compute; discriminate).
  destruct (Hfeel Hm Hc) as (Hb1 & _ & Hover1).
  destruct (Haccept Hk) as (Hb2 & _ & Hover2).
  split; [apply Hfull; vm_compute; reflexivity|].
  split; [rewrite Hb1; vm_compute; reflexivity|].
  split; [exact (Hover1 Hcap)|].
  split; [rewrite Hb2; vm_compute; reflexivity|].
  exact (Hover2 Hcap).
Defined.

(** ** The proactive diversion *)

Lemma round_comp (x y : Q) : (x == y)%Q -> Float.round x = Float.round y.
Proof. intros E. unfold Float.round. rewrite (nearest_comp x y E). reflexivity. Qed.

Lemma is_float_round (x y : Q) :
  Float.is_float y -> (x == y)%Q -> Float.round x = Float.finite (Qred y).
Proof. intros H E. rewrite (round_comp x y E). exact H. Qed.

Lemma Float_lt_finite (a b : Q) :
  Float.lt (Float.finite a) (Float.finite b) <-> (a < b)%Q.
Proof.
  unfold Float.lt, Float.ltb, Float.leb. rewrite negb_true_iff. split.
  - intros H. apply Qnot_le_lt. intros Hle.
    apply Qle_bool_iff in Hle. congruence.
  - intros H. destruct (Qle_bool b a) eqn:Hle; [|reflexivity].
    apply Qle_bool_iff in Hle. lra.
Qed.

Lemma Float_le_finite (a b : Q) :
  Float.le (Float.finite a) (Float.finite b) <-> (a <= b)%Q.
Proof. unfold Float.le, Float.leb. apply Qle_bool_iff. Qed.

(** What [packet_is_expiring] returns on a numeric deadline. *)
Lemma packet_is_expiring_Num (sim : Simulator) (self : Drone) (cur_step : Z)
    (d : Q) :
  ~ (speed self == 0)%Q ->
  tightest_event_deadline self = Some (Num d) ->
  has_float cur_step ->
  let travel := Float.div (distance_from_depot self) (speed self) in
  let remaining :=
    Float.mul (Float.sub d (double cur_step)) (time_step_duration sim) in
  Drone_packet_is_expiring sim self cur_step
  = Return (Float.ltb (Float.sub remaining 5) travel
            && Float.leb travel remaining).
Proof.
  intros Hspeed Ht Hstep. unfold Drone_packet_is_expiring.
  destruct (Qeq_bool (speed self) 0) eqn:Hz;
    [apply Qeq_bool_iff in Hz; contradiction|].
  rewrite Ht. unfold has_float in Hstep. rewrite Hstep. reflexivity.
Qed.

(** When no operation rounds, the window is that of the exact
    quantities. *)
Lemma window_exact (d step tick distance speed : Q) :
  Float.is_float (distance / speed) ->
  Float.is_float (d - step) ->
  Float.is_float ((d - step) * tick) ->
  Float.is_float ((d - step) * tick - 5) ->
  let travel := Float.div distance speed in
  let remaining := Float.mul (Float.sub d step) tick in
  Float.lt (Float.sub remaining 5) travel /\ Float.le travel remaining
  <-> ((d - step) * tick - 5 < distance / speed
       /\ distance / speed <= (d - step) * tick)%Q.
Proof.
  intros Htravel Hdiff Hprod Hwin travel remaining.
  assert (Etravel : travel = Float.finite (Qred (distance / speed)))
    by exact Htravel.
  assert (Eremaining : remaining = Float.finite (Qred ((d - step) * tick))).
  { unfold remaining. cbn [Float.sub]. rewrite Hdiff. cbn [Float.mul].
    apply is_float_round; [exact Hprod|]. rewrite Qred_correct. reflexivity. }
  assert (Ewin : Float.sub remaining 5
                 = Float.finite (Qred ((d - step) * tick - 5))).
  { rewrite Eremaining. cbn [Float.sub].
    apply is_float_round; [exact Hwin|]. rewrite Qred_correct. reflexivity. }
  rewrite Ewin, Etravel, Eremaining, Float_lt_finite, Float_le_finite.
  rewrite !Qred_correct. reflexivity.
Qed.

(** C6, as the code has it. With a positive speed, a numeric
    [tightest_event_deadline] and a step that has a float,
    [packet_is_expiring(step)] returns, and it returns true exactly when the
    travel time to the depot is above the time remaining minus 5 and at most
    the time remaining: the lower end of the window is excluded.  The travel
    time, the time remaining and the time remaining minus 5 are the floats
    that the division, the subtraction and the product of floats give; when
    each of these results is a float without rounding, the window is that of
    the exact quantities. *)
Theorem packet_is_expiring_window (sim : Simulator) (self : Drone)
    (cur_step : Z) (d : Q) :
  (0 < speed self)%Q ->
  tightest_event_deadline self = Some (Num d) ->
  has_float cur_step ->
  let travel := Float.div (distance_from_depot self) (speed self) in
  let remaining :=
    Float.mul (Float.sub d (double cur_step)) (time_step_duration sim) in
  exists b : bool,
    Drone_packet_is_expiring sim self cur_step = Return b
    /\ (b = true
        <-> Float.lt (Float.sub remaining 5) travel
            /\ Float.le travel remaining)
    /\ (Z.abs cur_step <= 2 ^ 53 ->
        Float.is_float (distance_from_depot self / speed self) ->
        Float.is_float (d - inject_Z cur_step) ->
        Float.is_float ((d - inject_Z cur_step) * time_step_duration sim) ->
        Float.is_float
          ((d - inject_Z cur_step) * time_step_duration sim - 5) ->
        (b = true
         <-> ((d - inject_Z cur_step) * time_step_duration sim - 5
              < distance_from_depot self / speed self
              /\ distance_from_depot self / speed self
                 <= (d - inject_Z cur_step) * time_step_duration sim)%Q)).
Proof.
  intros Hspeed Ht Hstep travel remaining.
  assert (Hne : ~ (speed self == 0)%Q) by lra.
  rewrite (packet_is_expiring_Num sim self cur_step d Hne Ht Hstep).
  fold travel. fold remaining.
  eexists. split; [reflexivity|]. split.
  - rewrite andb_true_iff. reflexivity.
  - intros Hsmall Htravel Hdiff Hprod Hwin. rewrite andb_true_iff.
    fold (Float.lt (Float.sub remaining 5) travel).
    fold (Float.le travel remaining). unfold remaining, travel.
    rewrite (double_small cur_step Hsmall).
    apply window_exact; assumption.
Qed.

Lemma packet_is_expiring_window_witness :
  exists b : bool,
    Drone_packet_is_expiring (sample_simulator "QL") (expiring_drone 6) 0
    = Return b
    /\ (b = true <-> ((10 - inject_Z 0) * 1 - 5 < 6 / 1
                      /\ 6 / 1 <= (10 - inject_Z 0) * 1)%Q).
Proof.
  destruct (packet_is_expiring_window (sample_simulator "QL")
              (expiring_drone 6) 0 10) as (b & Hb & _ & Hexact);
    [reflexivity | reflexivity | vm_compute; reflexivity |].
  exists b. split; [exact Hb|].
  apply Hexact; vm_compute; first [reflexivity | discriminate].
Defined.

Example packet_is_expiring_inside :
  Drone_packet_is_expiring (sample_simulator "QL") (expiring_drone 6) 0
  = Return true.
Proof. vm_compute. reflexivity. Qed.

(** C6, as it is stated, fails at the lower end of the window: a travel
    time of 5 with 10 remaining lies in the closed interval from 10 - 5 to 10,
    and [packet_is_expiring] returns false. *)
Lemma packet_is_expiring_excludes_lower_end :
  let self := expiring_drone 5 in
  let sim := sample_simulator "QL" in
  let travel := (distance_from_depot self / speed self)%Q in
  let remaining := (inject_Z (10 - 0) * time_step_duration sim)%Q in
  (0 < speed self)%Q
  /\ tightest_event_deadline self = Some (Num 10)
  /\ (remaining - 5 <= travel /\ travel <= remaining)%Q
  /\ Drone_packet_is_expiring sim self 0 = Return false.
Proof.
  cbv zeta. split; [reflexivity|]. split; [reflexivity|].
  split; [split; vm_compute; discriminate | vm_compute; reflexivity].
Qed.

(** Rounding moves the ends of the window.  With ticks of 0.15, that is of
    the float below it, 100 steps remaining and 15 units to travel at speed
    1, the time remaining is below 15 and the travel time is not within it;
    the product rounds to 15 and [packet_is_expiring] returns true. *)
Example packet_is_expiring_rounds :
  let tick := Float.nearest (15 # 100) in
  let sim := mkSimulator 5 tick 10 5 2 1000 "QL" [0; 1] in
  let self :=
    set_tightest_event_deadline
      (set_distance_from_depot (expiring_drone 15) 15) (Some (Num 100)) in
  (tick < 15 # 100)%Q
  /\ ~ (distance_from_depot self / speed self
        <= (100 - inject_Z 0) * time_step_duration sim)%Q
  /\ Drone_packet_is_expiring sim self 0 = Return true.
Proof.
  cbv zeta. split; [vm_compute; reflexivity|].
  split; [vm_compute; intros H; apply H; reflexivity | vm_compute; reflexivity].
Qed.

(** ** The energy ledger *)

Lemma stored_Return (x : Float.float) (q : Q) :
  stored x = Return q <-> x = Float.finite q.
Proof.
  destruct x; simpl; split; intros H; try discriminate; congruence.
Qed.

Lemma stored_cases (x : Float.float) :
  (exists q, stored x = Return q) \/ stored x = NotFinite.
Proof. destruct x; simpl; eauto. Qed.

(** What a call of [decrease_energy] that returns has written. *)
Lemma decrease_energy_Return (d d' : Drone) (action : string) :
  Drone_decrease_energy d action = Return d' ->
  (action = "transmission"
   /\ Float.sub (residual_energy d) 100 = Float.finite (residual_energy d')
   /\ d' = set_energy d (residual_energy d') (accumulated_moving_energy d)
             (accumulated_hello_energy d) (accumulated_send_energy d + 100)%Q)
  \/ (action = "move"
      /\ Float.sub (residual_energy d) (Float.mul (speed d) 100)
         = Float.finite (residual_energy d')
      /\ Float.add (accumulated_moving_energy d) (Float.mul (speed d) 100)
         = Float.finite (accumulated_moving_energy d')
      /\ d' = set_energy d (residual_energy d') (accumulated_moving_energy d')
                (accumulated_hello_energy d) (accumulated_send_energy d))
  \/ (action = "hello"
      /\ Float.sub (residual_energy d) 10 = Float.finite (residual_energy d')
      /\ d' = set_energy d (residual_energy d') (accumulated_moving_energy d)
                (accumulated_hello_energy d + 10)%Q (accumulated_send_energy d))
  \/ (~ In action ["transmission"; "move"; "hello"] /\ d' = d).
Proof.
  unfold Drone_decrease_energy.
  destruct (String.eqb_spec action "transmission") as [-> | N1].
  { destruct (stored (Float.sub (residual_energy d) 100)) as [r| | |] eqn:E;
      cbn [mbind result_bind]; try discriminate.
    intros [= <-]. left. apply stored_Return in E. auto. }
  destruct (String.eqb_spec action "move") as [-> | N2].
  { destruct (stored (Float.sub (residual_energy d)
                        (Float.mul (speed d) 100))) as [r| | |] eqn:E;
      cbn [mbind result_bind]; try discriminate.
    destruct (stored (Float.add (accumulated_moving_energy d)
                        (Float.mul (speed d) 100))) as [m| | |] eqn:E';
      cbn [mbind result_bind]; try discriminate.
    intros [= <-]. right. left.
    apply stored_Return in E. apply stored_Return in E'. auto. }
  destruct (String.eqb_spec action "hello") as [-> | N3].
  { destruct (stored (Float.sub (residual_energy d) 10)) as [r| | |] eqn:E;
      cbn [mbind result_bind]; try discriminate.
    intros [= <-]. right. right. left. apply stored_Return in E. auto. }
  intros [= <-]. right. right. right. split; [|reflexivity].
  simpl. intros [H | [H | [H | []]]]; congruence.
Qed.

(** A call that rounds nothing returns and keeps the balance. *)
Lemma decrease_energy_exact (d : Drone) (action : string) :
  spends_exactly d action ->
  exists d', Drone_decrease_energy d action = Return d'
             /\ (ledger_balanced d -> ledger_balanced d').
Proof.
  unfold spends_exactly, Drone_decrease_energy, ledger_balanced.
  destruct (String.eqb action "transmission").
  { intros H. cbn [Float.sub]. rewrite H. cbn [stored mbind result_bind].
    eexists. split; [reflexivity|].
    cbn [set_energy initial_energy residual_energy accumulated_send_energy
         accumulated_moving_energy accumulated_hello_energy].
    rewrite Qred_correct. intros Hb. lra. }
  destruct (String.eqb action "move").
  { intros (Hc & Hr & Hm). cbn [Float.mul]. rewrite Hc. cbn [Float.sub Float.add].
    assert (E1 : Float.round (residual_energy d - Qred (speed d * 100))
                 = Float.finite (Qred (residual_energy d - speed d * 100)))
      by (apply is_float_round;
          [exact Hr | rewrite Qred_correct; reflexivity]).
    assert (E2 : Float.round
                   (accumulated_moving_energy d + Qred (speed d * 100))
                 = Float.finite
                     (Qred (accumulated_moving_energy d + speed d * 100)))
      by (apply is_float_round;
          [exact Hm | rewrite Qred_correct; reflexivity]).
    rewrite E1, E2.
    cbn [stored mbind result_bind]. eexists. split; [reflexivity|].
    cbn [set_energy initial_energy residual_energy accumulated_send_energy
         accumulated_moving_energy accumulated_hello_energy].
    rewrite !Qred_correct. intros Hb. lra. }
  destruct (String.eqb action "hello").
  { intros H. cbn [Float.sub]. rewrite H. cbn [stored mbind result_bind].
    eexists. split; [reflexivity|].
    cbn [set_energy initial_energy residual_energy accumulated_send_energy
         accumulated_moving_energy accumulated_hello_energy].
    rewrite Qred_correct. intros Hb. lra. }
  intros _. eexists. split; [reflexivity | tauto].
Qed.

Lemma decrease_energy_all_exact (actions : list string) (d : Drone) :
  spend_exactly actions d -> ledger_balanced d ->
  exists d', decrease_energy_all actions d = Return d' /\ ledger_balanced d'.
Proof.
  revert d. induction actions as [|action rest IH]; intros d Hex Hb.
  - exists d. split; [reflexivity | exact Hb].
  - destruct Hex as [Hstep Hrest].
    destruct (decrease_energy_exact d action Hstep) as (d1 & E1 & Hb1).
    cbn [decrease_energy_all]. rewrite E1. cbn [mbind result_bind].
    apply IH; [apply Hrest, E1 | apply Hb1, Hb].
Qed.

Lemma init_balanced (sim : Simulator) (id : Z) (path : list coordinates)
    (depot : Depot) (speed_sample energy_sample : Q) (d : Drone) :
  Drone__init__ sim id path depot speed_sample energy_sample = Return d ->
  initial_energy d = residual_energy d
  /\ accumulated_send_energy d = 0%Q
  /\ accumulated_moving_energy d = 0%Q
  /\ accumulated_hello_energy d = 0%Q
  /\ ledger_balanced d.
Proof.
  unfold Drone__init__. destruct (getitem path 0); [|discriminate].
  destruct (stored (Float.add (drone_speed sim) speed_sample));
    cbn [mbind result_bind]; try discriminate.
  destruct (stored (Float.add (drone_max_energy sim) energy_sample));
    cbn [mbind result_bind]; try discriminate.
  intros [= <-]. repeat split. unfold ledger_balanced. simpl. lra.
Qed.

(** C10, as the code has it. A call of [decrease_energy] with
    "transmission", "move" or "hello" takes 100, speed * 100 or 10 from
    [residual_energy] and adds the same amount to the send, moving or hello
    counter, leaving the other two as they are; with any other action the
    drone is unchanged.  The cost of a move, the energy left and the moving
    counter are floats, each the rounded result of its operation.  The
    balance [initial_energy - residual_energy = send + moving + hello] holds
    from the constructor on and is kept by a sequence of calls none of which
    rounds. *)
Theorem energy_ledger (d d' : Drone) (action : string)
    (actions : list string) :
  Drone_decrease_energy d action = Return d' ->
  (action = "transmission" ->
   Float.sub (residual_energy d) 100 = Float.finite (residual_energy d')
   /\ accumulated_send_energy d' = (accumulated_send_energy d + 100)%Q
   /\ accumulated_moving_energy d' = accumulated_moving_energy d
   /\ accumulated_hello_energy d' = accumulated_hello_energy d)
  /\ (action = "move" ->
      Float.sub (residual_energy d) (Float.mul (speed d) 100)
      = Float.finite (residual_energy d')
      /\ Float.add (accumulated_moving_energy d) (Float.mul (speed d) 100)
         = Float.finite (accumulated_moving_energy d')
      /\ accumulated_send_energy d' = accumulated_send_energy d
      /\ accumulated_hello_energy d' = accumulated_hello_energy d)
  /\ (action = "hello" ->
      Float.sub (residual_energy d) 10 = Float.finite (residual_energy d')
      /\ accumulated_hello_energy d' = (accumulated_hello_energy d + 10)%Q
      /\ accumulated_send_energy d' = accumulated_send_energy d
      /\ accumulated_moving_energy d' = accumulated_moving_energy d)
  /\ (~ In action ["transmission"; "move"; "hello"] -> d' = d)
  /\ initial_energy d' = initial_energy d
  /\ (forall sim id path depot speed_sample energy_sample,
      Drone__init__ sim id path depot speed_sample energy_sample = Return d ->
      ledger_balanced d)
  /\ (ledger_balanced d -> spend_exactly actions d ->
      exists spent,
        decrease_energy_all actions d = Return spent
        /\ ledger_balanced spent).
Proof.
  intros Hcall.
  assert (Hinit : initial_energy d' = initial_energy d).
  { destruct (decrease_energy_Return d d' action Hcall)
      as [(_ & _ & ->) | [(_ & _ & _ & ->) | [(_ & _ & ->) | (_ & ->)]]];
      reflexivity. }
  destruct (decrease_energy_Return d d' action Hcall)
    as [(Ha & Hr & Hd) | [(Ha & Hr & Hm & Hd) | [(Ha & Hr & Hd) | (Ha & Hd)]]].
  - split; [|split; [|split; [|split; [|split; [|split]]]]].
    + intros _. rewrite Hd at 2 3 4. repeat split. exact Hr.
    + intros E. rewrite Ha in E. discriminate E.
    + intros E. rewrite Ha in E. discriminate E.
    + intros Hn. exfalso. apply Hn. rewrite Ha. simpl. tauto.
    + exact Hinit.
    + intros sim id path depot ss es H. eapply init_balanced. exact H.
    + intros Hb Hex. apply decrease_energy_all_exact; assumption.
  - split; [|split; [|split; [|split; [|split; [|split]]]]].
    + intros E. rewrite Ha in E. discriminate E.
    + intros _. rewrite Hd at 3 4. repeat split; assumption.
    + intros E. rewrite Ha in E. discriminate E.
    + intros Hn. exfalso. apply Hn. rewrite Ha. simpl. tauto.
    + exact Hinit.
    + intros sim id path depot ss es H. eapply init_balanced. exact H.
    + intros Hb Hex. apply decrease_energy_all_exact; assumption.
  - split; [|split; [|split; [|split; [|split; [|split]]]]].
    + intros E. rewrite Ha in E. discriminate E.
    + intros E. rewrite Ha in E. discriminate E.
    + intros _. rewrite Hd at 2 3 4. repeat split. exact Hr.
    + intros Hn. exfalso. apply Hn. rewrite Ha. simpl. tauto.
    + exact Hinit.
    + intros sim id path depot ss es H. eapply init_balanced. exact H.
    + intros Hb Hex. apply decrease_energy_all_exact; assumption.
  - split; [|split; [|split; [|split; [|split; [|split]]]]].
    + intros E. exfalso. apply Ha. rewrite E. simpl. tauto.
    + intros E. exfalso. apply Ha. rewrite E. simpl. tauto.
    + intros E. exfalso. apply Ha. rewrite E. simpl. tauto.
    + intros _. exact Hd.
    + exact Hinit.
    + intros sim id path depot ss es H. eapply init_balanced. exact H.
    + intros Hb Hex. apply decrease_energy_all_exact; assumption.
Qed.

Lemma energy_ledger_witness :
  let d := sample_drone in
  let moved := set_energy sample_drone 500 500 0 0 in
  Drone_decrease_energy d "move" = Return moved
  /\ Float.sub 1000 (Float.mul 5 100) = Float.finite 500
  /\ ledger_balanced d
  /\ exists spent,
       decrease_energy_all ["move"; "hello"; "idle"; "transmission"; "move"] d
       = Return spent
       /\ ledger_balanced spent
       /\ (initial_energy spent - residual_energy spent == 1110)%Q.
Proof.
  cbv zeta.
  assert (E : Drone_decrease_energy sample_drone "move"
              = Return (set_energy sample_drone 500 500 0 0))
    by (vm_compute; reflexivity).
  destruct (energy_ledger sample_drone (set_energy sample_drone 500 500 0 0)
              "move" ["move"; "hello"; "idle"; "transmission"; "move"] E)
    as (_ & Hmove & _ & _ & _ & Hinit & Hall).
  destruct (Hmove eq_refl) as (Hres & _).
  assert (Hbal : ledger_balanced sample_drone).
  { apply (Hinit (sample_simulator "QL") 0 [(10, 0)%Q; (20, 0)%Q] sample_depot
             0%Q 0%Q). vm_compute. reflexivity. }
  destruct (Hall Hbal) as (spent & Hspent & Hbs).
  { repeat (split;
            [vm_compute; repeat split
            |intros ? Hstep; vm_compute in Hstep; injection Hstep as <-]).
    exact I. }
  split; [exact E|]. split; [exact Hres|]. split; [exact Hbal|].
  exists spent. split; [exact Hspent|]. split; [exact Hbs|].
  vm_compute in Hspent. injection Hspent as <-. vm_compute. reflexivity.
Defined.

(** C10, as it is stated, fails when a call rounds.  The drone with speed
    8.2 and energy 999129 is balanced as its constructor leaves it; one
    "move" costs 819.9999999999999, the float of 8.2 * 100, which is what the
    moving counter holds, and leaves 998309, the float nearest to the
    difference: the energy spent is 820. *)
Lemma energy_ledger_drifts :
  let sim :=
    mkSimulator 5 1 10 (Float.nearest (82 # 10)) 2 999129 "QL" [0; 1] in
  Drone__init__ sim 0 [(10, 0)%Q; (20, 0)%Q] sample_depot 0 0
  = Return thrifty_drone
  /\ ledger_balanced thrifty_drone
  /\ exists moved,
       Drone_decrease_energy thrifty_drone "move" = Return moved
       /\ residual_energy moved = 998309%Q
       /\ accumulated_moving_energy moved
          = (7212796278210559 # 8796093022208)%Q
       /\ (initial_energy moved - residual_energy moved == 820)%Q
       /\ ~ ledger_balanced moved.
Proof.
  cbv zeta. split; [vm_compute; reflexivity|].
  split; [vm_compute; reflexivity|].
  eexists. split; [vm_compute; reflexivity|].
  split; [reflexivity|]. split; [reflexivity|].
  split; [vm_compute; reflexivity|]. vm_compute. discriminate.
Qed.

(** ** Movement *)

Lemma update_position_no_exit (self : Drone) (p1 : coordinates) (code : Z) :
  _Drone__update_position self p1 <> Exit code.
Proof.
  unfold _Drone__update_position, index_path.
  destruct (come_back_to_mission self); [discriminate|].
  destruct (getitem _ _); discriminate.
Qed.

Lemma interpolate_no_exit (t : Float.float) (p0 p1 : coordinates) (code : Z) :
  interpolate t p0 p1 <> Exit code.
Proof.
  unfold interpolate.
  destruct (stored_cases (Float.add (Float.mul (Float.sub 1 t) (fst p0))
                            (Float.mul t (fst p1)))) as [(x & ->) | ->];
    cbn [mbind result_bind]; [|discriminate].
  destruct (stored_cases (Float.add (Float.mul (Float.sub 1 t) (snd p0))
                            (Float.mul t (snd p1)))) as [(y & ->) | ->];
    cbn [mbind result_bind]; discriminate.
Qed.

(** Rounding keeps what is above an exact positive number above it. *)
Lemma round_ge (q lo : Q) :
  Float.is_exact lo -> (0 < lo)%Q -> (lo <= q)%Q ->
  Float.round q = Float.infinity false
  \/ exists r, Float.round q = Float.finite r /\ (lo <= r)%Q.
Proof.
  intros Hex Hlo Hq. pose proof (nearest_le lo q Hq) as Hn.
  unfold Float.is_exact in Hex. pose proof (pow2_pos 1024) as Hh.
  fold Float.huge in Hh.
  destruct (round_cases q) as [[_ H] | [[H _] | [_ H]]].
  - left. exact H.
  - lra.
  - right. exists (Float.nearest q). split; [exact H | lra].
Qed.

Lemma round_0 (q : Q) : (q == 0)%Q -> Float.round q = Float.finite 0.
Proof. intros H. rewrite (round_comp q 0 H). reflexivity. Qed.

Lemma negative_false (q : Q) : (0 <= q)%Q -> Float.negative q = false.
Proof.
  intros H. unfold Float.negative. apply Qle_bool_iff in H. rewrite H.
  reflexivity.
Qed.

(** The fraction of a displacement that is not too small over a distance
    that is not too large is positive: it does not underflow. *)
Lemma fraction_positive (time speed distance : Q) :
  (least_displacement <= time * speed)%Q ->
  (0 < distance <= greatest_distance)%Q ->
  Float.lt 0 (fraction time speed distance).
Proof.
  intros Hts [Hd0 Hd]. unfold fraction. cbn [Float.mul].
  assert (Hl : (0 < least_displacement)%Q) by apply pow2_pos.
  destruct (round_ge (time * speed) least_displacement) as [-> | (r & -> & Hr)];
    [apply exact_pow2; lia | exact Hl | exact Hts | |].
  - cbn [Float.div]. rewrite negative_false by lra. reflexivity.
  - cbn [Float.div].
    assert (Hq : (Float.pow2 (-1074) <= r / distance)%Q).
    { apply Qle_shift_div_l; [exact Hd0|].
      apply Qle_trans with (Float.pow2 (-1074) * greatest_distance)%Q.
      - pose proof (pow2_pos (-1074)). nra.
      - unfold greatest_distance. rewrite <- pow2_add.
        change (-1074 + 537) with (-537). exact Hr. }
    destruct (round_ge (r / distance) (Float.pow2 (-1074)))
      as [-> | (r' & -> & Hr')];
      [apply exact_pow2; lia | apply pow2_pos | exact Hq | reflexivity |].
    apply Float_lt_finite. pose proof (pow2_pos (-1074)). lra.
Qed.

Lemma Float_lt_not_le (x y : Float.float) :
  Float.lt x y -> Float.leb y x = false.
Proof.
  unfold Float.lt, Float.ltb.
  destruct x, y; try discriminate; intros H;
    apply negb_true_iff in H; exact H.
Qed.

Lemma getitem_In {A : Type} (l : list A) (i : Z) (x : A) :
  getitem l i = Some x -> In x l.
Proof.
  unfold getitem. intros H. apply list_elem_of_In.
  destruct ((0 <=? i) && (i <? Z.of_nat (length l)));
    [|destruct ((- Z.of_nat (length l) <=? i) && (i <? 0)); [|discriminate]];
    eapply list_elem_of_lookup_2; exact H.
Qed.

(** On the way along the mission a null distance or a null displacement
    returns first, and the exit is out of reach when the fraction does not
    underflow. *)
Lemma move_to_mission_no_exit (dist : coordinates -> coordinates -> Q)
    (self : Drone) (time : Q) (code : Z) :
  within_reach dist self ->
  (time * speed self == 0 \/ least_displacement <= time * speed self)%Q ->
  _Drone__move_to_mission dist self time <> Exit code.
Proof.
  intros Hdist Hts. unfold _Drone__move_to_mission.
  set (self' := if current_waypoint self >=? Z.of_nat (length (path self)) - 1
                then set_current_waypoint self (-1) else self).
  assert (Hs : speed self' = speed self /\ coords self' = coords self
               /\ path self' = path self
               /\ last_mission_coords self' = last_mission_coords self)
    by (subst self'; destruct (_ >=? _); repeat split).
  destruct Hs as (Hs & Hc & Hpath & Hlmc).
  destruct (if come_back_to_mission self'
            then match last_mission_coords self' with
                 | Some c => Return c
                 | None => Raise TypeError
                 end
            else index_path self' (current_waypoint self' + 1))
    as [p1|e|c|] eqn:Hp1; cbn [mbind result_bind];
    [|discriminate| |discriminate].
  2:{ exfalso. destruct (come_back_to_mission self');
        [destruct (last_mission_coords self')|unfold index_path in Hp1;
         destruct (getitem _ _)]; discriminate. }
  destruct (Qeq_bool (dist (coords self') p1) 0) eqn:Hd0; cbn [orb];
    [apply update_position_no_exit|].
  destruct (Float.eqb (Float.mul time (speed self')) 0) eqn:Ht0;
    [apply update_position_no_exit|].
  destruct (Float.leb 1 _); [apply update_position_no_exit|].
  rewrite Hs in *. apply Qeq_bool_neq in Hd0.
  destruct Hts as [H0 | Hts].
  { cbn [Float.mul] in Ht0. rewrite (round_0 _ H0) in Ht0. discriminate Ht0. }
  assert (Hhead : heads_for self p1).
  { unfold heads_for. rewrite <- Hpath, <- Hlmc.
    destruct (come_back_to_mission self').
    - destruct (last_mission_coords self'); [|discriminate].
      injection Hp1 as ->. auto.
    - unfold index_path in Hp1.
      destruct (getitem (path self') _) eqn:Hg; [|discriminate].
      injection Hp1 as ->. right. left. eapply getitem_In. exact Hg. }
  assert (Hd : (0 < dist (coords self') p1 <= greatest_distance)%Q).
  { rewrite Hc in *. destruct (Hdist p1 Hhead) as [H1 H2]. split; [|exact H2].
    destruct (Qle_lt_or_eq _ _ H1) as [H | H]; [exact H|].
    exfalso. apply Hd0. symmetry. exact H. }
  pose proof (fraction_positive time (speed self) _ Hts Hd) as Hpos.
  unfold fraction in Hpos. rewrite (Float_lt_not_le _ _ Hpos).
  destruct (interpolate _ _ _) eqn:Hi; cbn [mbind result_bind];
    try discriminate.
  exfalso. exact (interpolate_no_exit _ _ _ _ Hi).
Qed.

(** On the way to the depot only a null distance returns first: away from
    the depot, the drone leaves the interpreter exactly when the fraction is
    at most 0. *)
Lemma move_to_depot_exit_iff (dist : coordinates -> coordinates -> Q)
    (self : Drone) (time : Q) :
  ~ (dist (coords self) (depot_coords self) == 0)%Q ->
  _Drone__move_to_depot dist self time = Exit 1
  <-> Float.le
        (fraction time (speed self) (dist (coords self) (depot_coords self)))
        0.
Proof.
  intros Hd. unfold _Drone__move_to_depot, fraction, Float.le.
  destruct (Qeq_bool (dist (coords self) (depot_coords self)) 0) eqn:Hd0;
    [apply Qeq_bool_iff in Hd0; contradiction|].
  set (t := Float.div _ _).
  destruct (Float.leb 1 t) eqn:H1.
  - split; [discriminate|]. intros Hle. exfalso.
    destruct t as [q|[]|]; simpl in H1, Hle; try discriminate.
    apply Qle_bool_iff in H1. apply Qle_bool_iff in Hle. lra.
  - destruct (Float.leb t 0) eqn:Hneg.
    + split; reflexivity.
    + split; [|discriminate]. intros H.
      destruct (interpolate _ _ _) eqn:Hi; cbn [mbind result_bind] in H;
        try discriminate.
      exfalso. exact (interpolate_no_exit _ _ _ _ Hi).
Qed.

(** A null displacement is a null fraction: the stalled drone exits. *)
Lemma move_to_depot_stalled (dist : coordinates -> coordinates -> Q)
    (self : Drone) (time : Q) :
  ~ (dist (coords self) (depot_coords self) == 0)%Q ->
  (time * speed self == 0)%Q ->
  _Drone__move_to_depot dist self time = Exit 1.
Proof.
  intros Hd H0. apply move_to_depot_exit_iff; [exact Hd|].
  unfold fraction. cbn [Float.mul]. rewrite (round_0 _ H0). cbn [Float.div].
  rewrite round_0; [reflexivity|]. unfold Qdiv. ring.
Qed.

(** So does the drone whose displacement, though positive, is a fraction of
    the distance below every positive float. *)
Example move_to_depot_underflow :
  let self :=
    mkDrone (mkEntity 0 (10, 0)%Q) (0, 0)%Q [(10, 0)%Q; (20, 0)%Q]
      (Float.pow2 (-1074)) 2 1000 1000 false false 0 0 0 None 0 [2000] 10
      true None in
  (0 < speed self)%Q
  /\ fraction 1 (speed self)
       (taxicab_distance (coords self) (depot_coords self))
     = Float.finite 0
  /\ _Drone__move_to_depot taxicab_distance self 1 = Exit 1.
Proof. cbv zeta. repeat split; vm_compute; reflexivity. Qed.

Lemma move_to_depot_no_exit (dist : coordinates -> coordinates -> Q)
    (self : Drone) (time : Q) (code : Z) :
  within_reach dist self ->
  (least_displacement <= time * speed self)%Q ->
  _Drone__move_to_depot dist self time <> Exit code.
Proof.
  intros Hdist Hts. unfold _Drone__move_to_depot.
  destruct (Qeq_bool (dist (coords self) (depot_coords self)) 0) eqn:Hd0;
    [discriminate|].
  destruct (Float.leb 1 _); [discriminate|]. apply Qeq_bool_neq in Hd0.
  assert (Hd : (0 < dist (coords self) (depot_coords self)
                <= greatest_distance)%Q).
  { destruct (Hdist (depot_coords self)) as [H1 H2];
      [left; reflexivity|].
    split; [|exact H2].
    destruct (Qle_lt_or_eq _ _ H1) as [H | H]; [exact H|].
    exfalso. apply Hd0. symmetry. exact H. }
  pose proof (fraction_positive time (speed self) _ Hts Hd) as Hpos.
  unfold fraction in Hpos. rewrite (Float_lt_not_le _ _ Hpos).
  destruct (interpolate _ _ _) eqn:Hi; cbn [mbind result_bind];
    try discriminate.
  exfalso. exact (interpolate_no_exit _ _ _ _ Hi).
Qed.

(** C9. A drone with speed 0, which is not negative, ten units away from
    the depot and diverted to it: the fraction is 0, not negative, and the
    movement step leaves the interpreter with code 1.  The same drone on its
    mission does not: there a null displacement returns before the fraction
    is computed. *)
Theorem stalled_drone_exits_on_the_way_to_depot :
  let dist := taxicab_distance in
  let self := stalled_drone in
  let time := 1%Q in
  (0 <= speed self)%Q /\ (0 <= time)%Q
  /\ (0 < dist (coords self) (depot_coords self))%Q
  /\ (time * speed self / dist (coords self) (depot_coords self) == 0)%Q
  /\ ~ (time * speed self / dist (coords self) (depot_coords self) < 0)%Q
  /\ _Drone__move_to_depot dist self time = Exit 1
  /\ Drone_move dist empty_world self time = Exit 1
  /\ forall code,
       _Drone__move_to_mission dist (set_move_routing self false) time
       <> Exit code.
Proof.
  cbv zeta. repeat split; vm_compute; congruence.
Qed.

(** The patrol of the specification: on the path from (0, 0) to (10, 0) at
    speed 5, the drone is at (10, 0) after two ticks and on its way back to
    (0, 0) after the third. *)
Example patrol_two_points :
  patrol 1 patrol_drone = Some ((5, 0)%Q, 0)
  /\ patrol 2 patrol_drone = Some ((10, 0)%Q, 1)
  /\ patrol 3 patrol_drone = Some ((5, 0)%Q, -1)
  /\ patrol 4 patrol_drone = Some ((0, 0)%Q, 0).
Proof. repeat split; vm_compute; reflexivity. Qed.

(** * Further properties *)

(** ** Events and packets *)

(** X1. An event built with the default deadline at step [t] has deadline
    [t + event_duration] and is expired at a step exactly when the step is
    past it; a deadline given to the constructor is taken as it is.  The
    event is counted in [metrics.events] unless its coordinates are
    (-1, -1) or its time is -1: either one is enough to leave it out.  The
    constructor touches neither the packets nor the feedback log. *)
Theorem event_construction (sim : Simulator) (w : World) (self : ref)
    (c : coordinates) (t d step : Z) :
  let built := Event__init__ sim w self c t None in
  let given := Event__init__ sim w self c t (Some d) in
  identifier built.2 = self
  /\ coords built.2 = c
  /\ deadline built.2 = t + event_duration sim
  /\ (Event_is_expired built.2 step = true <-> t + event_duration sim < step)
  /\ deadline given.2 = d
  /\ (((fst c == -1)%Q /\ (snd c == -1)%Q) \/ t = -1 -> built.1 = w)
  /\ (~ ((fst c == -1)%Q /\ (snd c == -1)%Q) -> t <> -1 ->
      events (metrics built.1) = {[ self ]} ∪ events (metrics w)
      /\ drones_packets (metrics built.1) = drones_packets (metrics w))
  /\ packets built.1 = packets w
  /\ feedbacks built.1 = feedbacks w.
Proof.
  intros built given. subst built given. unfold Event__init__.
  assert (Hc : coords_eqb c (-1, -1)%Q = true
               <-> (fst c == -1)%Q /\ (snd c == -1)%Q)
    by (unfold coords_eqb; rewrite andb_true_iff, !Qeq_bool_iff;
        reflexivity).
  destruct (coords_eqb c (-1, -1)%Q) eqn:Hb;
    destruct (Z.eqb_spec t (-1)) as [Ht|Ht]; cbn [negb andb fst snd];
    (split; [reflexivity|]); (split; [reflexivity|]);
    (split; [reflexivity|]);
    (split; [unfold Event_is_expired; cbn [deadline]; apply Z.gtb_lt|]);
    (split; [reflexivity|]).
  - split; [reflexivity|]. split; [|split; reflexivity].
    intros Hn. exfalso. apply Hn, Hc. reflexivity.
  - split; [reflexivity|]. split; [|split; reflexivity].
    intros Hn. exfalso. apply Hn, Hc. reflexivity.
  - split; [reflexivity|]. split; [|split; reflexivity].
    intros _ Hn. congruence.
  - split; [|split; [|split; reflexivity]].
    + intros [H | H]; [apply Hc in H; discriminate | congruence].
    + intros _ _. split; reflexivity.
Qed.

Lemma event_construction_witness :
  let sim := sample_simulator "QL" in
  events (metrics (Event__init__ sim empty_world 7 (3, 4)%Q 10 None).1)
  = {[ 7 ]} ∪ events (metrics empty_world)
  /\ (Event__init__ sim empty_world 7 (3, 4)%Q (-1) None).1 = empty_world
  /\ (Event__init__ sim empty_world 7 (-1, -1)%Q 10 None).1 = empty_world.
Proof.
  cbv zeta.
  destruct (event_construction (sample_simulator "QL") empty_world 7
              (3, 4)%Q 10 0 0) as (_ & _ & _ & _ & _ & _ & Hreg & _).
  destruct (event_construction (sample_simulator "QL") empty_world 7
              (3, 4)%Q (-1) 0 0) as (_ & _ & _ & _ & _ & Hskip & _).
  destruct (event_construction (sample_simulator "QL") empty_world 7
              (-1, -1)%Q 10 0 0) as (_ & _ & _ & _ & _ & Hskip' & _).
  split; [apply Hreg; [intros [H _]; discriminate H | discriminate]|].
  split; [apply Hskip; right; reflexivity|].
  apply Hskip'. left. split; reflexivity.
Defined.

(** X2. Building a packet writes the store at the address of the packet and
    nowhere else, and leaves the feedback log alone.  Without an event (the
    acknowledgement and hello packets) the packet is about a placeholder
    event at (-1, -1) with time -1 and deadline [event_duration - 1], and no
    metric changes: neither the event nor the packet is counted.  With an
    event the packet takes the coordinates of the event and is counted in
    [metrics.drones_packets]; the events counted do not change. *)
Theorem packet_construction (sim : Simulator) (w : World) (self : ref)
    (created : Z) (ev : option Event) (placeholder : ref) (size : Q) :
  let w' := Packet__init__ sim w self created ev placeholder size in
  let p := packets w' self in
  (forall r, r <> self -> packets w' r = packets w r)
  /\ feedbacks w' = feedbacks w
  /\ (ev = None ->
      metrics w' = metrics w
      /\ event_ref p
         = mkEvent (mkEntity placeholder (-1, -1)%Q) (-1)
             (-1 + event_duration sim)
      /\ coords p = (-1, -1)%Q)
  /\ (forall e, ev = Some e ->
      event_ref p = e /\ coords p = coords e
      /\ drones_packets (metrics w') = {[ self ]} ∪ drones_packets (metrics w)
      /\ events (metrics w') = events (metrics w)).
Proof.
  intros w' p. subst w' p. unfold Packet__init__, Event__init__.
  destruct ev as [e|]; simpl.
  - destruct (decide (self = self)); [|congruence].
    split; [intros r Hr; destruct (decide (r = self));
            [contradiction | reflexivity]|].
    split; [reflexivity|]. split; [discriminate|].
    intros e' [= <-]. repeat split; reflexivity.
  - destruct (decide (self = self)); [|congruence].
    split; [intros r Hr; destruct (decide (r = self));
            [contradiction | reflexivity]|].
    split; [reflexivity|]. split; [|discriminate].
    intros _. repeat split; reflexivity.
Qed.

Lemma packet_construction_witness :
  let sim := sample_simulator "QL" in
  let hello := Packet__init__ sim empty_world 2000 3 None 1000 100 in
  let data :=
    Packet__init__ sim empty_world 2000 3 (Some event_at_origin) 1000 100 in
  metrics hello = metrics empty_world
  /\ coords (packets hello 2000) = (-1, -1)%Q
  /\ deadline (event_ref (packets hello 2000)) = 4
  /\ event_ref (packets data 2000) = event_at_origin
  /\ drones_packets (metrics data)
     = {[ 2000 ]} ∪ drones_packets (metrics empty_world).
Proof.
  cbv zeta.
  destruct (packet_construction (sample_simulator "QL") empty_world 2000 3
              None 1000 100) as (_ & _ & Hnone & _).
  destruct (packet_construction (sample_simulator "QL") empty_world 2000 3
              (Some event_at_origin) 1000 100) as (_ & _ & _ & Hsome).
  destruct (Hnone eq_refl) as (Hm & He & Hc).
  destruct (Hsome event_at_origin eq_refl) as (He' & _ & Hd & _).
  split; [exact Hm|]. split; [exact Hc|]. split; [rewrite He; reflexivity|].
  split; [exact He'|]. exact Hd.
Defined.

Lemma add_hop_event (p : Packet) (drone : Z) :
  event_ref (Packet_add_hop p drone) = event_ref p
  /\ _Packet__max_TTL (Packet_add_hop p drone) = _Packet__max_TTL p
  /\ time_delivery (Packet_add_hop p drone) = time_delivery p
  /\ Packet_entity (Packet_add_hop p drone) = Packet_entity p.
Proof. unfold Packet_add_hop. destruct (_ =? _)%nat; repeat split. Qed.

Lemma add_hops_event (hops : list Z) (p : Packet) :
  event_ref (fold_left Packet_add_hop hops p) = event_ref p
  /\ _Packet__max_TTL (fold_left Packet_add_hop hops p) = _Packet__max_TTL p
  /\ Packet_get_TTL (fold_left Packet_add_hop hops p)
     = Packet_get_TTL p + Z.of_nat (length hops).
Proof.
  revert p. induction hops as [|d hops IH]; intros p.
  - cbn. repeat split. lia.
  - cbn [fold_left]. destruct (IH (Packet_add_hop p d)) as (He & Hm & Ht).
    destruct (add_hop_event p d) as (He' & Hm' & _).
    rewrite He, Hm, Ht, He', Hm', TTL_add_hop. repeat split.
    rewrite length_cons. lia.
Qed.

(** X3. The hops of a packet never make it expire: a packet is expired
    exactly when its event is, whatever its TTL.  The maximal TTL is stored and
    not enforced: once the hops outnumber it, the TTL is above it and the
    expiry is what it was. *)
Theorem hops_do_not_expire (p : Packet) (hops : list Z) (cur_step : Z) :
  let p' := fold_left Packet_add_hop hops p in
  Packet_is_expired p' cur_step = Event_is_expired (event_ref p) cur_step
  /\ Packet_is_expired p' cur_step = Packet_is_expired p cur_step
  /\ (_Packet__max_TTL p - Packet_get_TTL p < Z.of_nat (length hops) ->
      _Packet__max_TTL p' < Packet_get_TTL p').
Proof.
  intros p'. subst p'. destruct (add_hops_event hops p) as (He & Hm & Ht).
  unfold Packet_is_expired, Event_is_expired. rewrite He, Hm, Ht.
  repeat split. lia.
Qed.

Lemma hops_do_not_expire_witness :
  let p := packets three_packets 2000 in
  let hops := [1; 2; 3; 4; 5; 6; 7; 8; 9; 10; 11] in
  _Packet__max_TTL p = 10
  /\ Packet_get_TTL (fold_left Packet_add_hop hops p) = 11
  /\ _Packet__max_TTL (fold_left Packet_add_hop hops p)
     < Packet_get_TTL (fold_left Packet_add_hop hops p)
  /\ Packet_is_expired (fold_left Packet_add_hop hops p) 5 = false.
Proof.
  cbv zeta.
  destruct (hops_do_not_expire (packets three_packets 2000)
              [1; 2; 3; 4; 5; 6; 7; 8; 9; 10; 11] 5) as (_ & Hsame & Hover).
  split; [vm_compute; reflexivity|]. split; [vm_compute; reflexivity|].
  split; [apply Hover; vm_compute; reflexivity|].
  rewrite Hsame. vm_compute. reflexivity.
Defined.





(** X5. The dictionary of a packet that [as_packet] has just built agrees
    with the dictionary of its event on the coordinates and on the deadline,
    names the event under "id_event" and itself under "id", and reports the
    TTL 0; it has these six keys and no other. *)
Theorem packet_json_of_event (sim : Simulator) (w : World) (e : Event)
    (created drone : Z) (self : ref) (size : Q) (key : string) :
  let p := packets (Event_as_packet sim w e created drone self size).1 self in
  Packet_to_json p !! "coord" = Event_to_json e !! "coord"
  /\ Packet_to_json p !! "i_dead" = Event_to_json e !! "i_dead"
  /\ Packet_to_json p !! "id_event" = Event_to_json e !! "id"
  /\ Packet_to_json p !! "id" = Some (JNum self)
  /\ Packet_to_json p !! "i_gen" = Some (JNum created)
  /\ Packet_to_json p !! "TTL" = Some (JNum 0)
  /\ (~ In key ["coord"; "i_gen"; "i_dead"; "id"; "TTL"; "id_event"] ->
      Packet_to_json p !! key = None).
Proof.
  intros p.
  destruct (Packet_init_fields sim w self created (Some e) 0 size)
    as (Httl & Hhops & _ & Hid & Hev).
  specialize (Hev e eq_refl).
  assert (Hp : p = Packet_add_hop
                     (packets (Packet__init__ sim w self created (Some e) 0
                                 size) self) drone).
  { subst p. unfold Event_as_packet. cbn [fst].
    apply packets_set_packet_eq. }
  destruct (add_hop_event
              (packets (Packet__init__ sim w self created (Some e) 0 size)
                 self) drone) as (He & _ & _ & Hent).
  assert (Hevent : event_ref p = e) by (rewrite Hp, He; exact Hev).
  assert (Hident : identifier p = self)
    by (rewrite Hp, Hent; exact Hid).
  assert (Hcoords : coords p = coords e).
  { rewrite Hp, Hent. unfold Packet__init__. simpl.
    destruct (decide (self = self)); [reflexivity | congruence]. }
  assert (Hcreated : time_step_creation p = created).
  { rewrite Hp. unfold Packet_add_hop, Packet__init__. simpl.
    destruct (decide (self = self)); [|congruence].
    destruct (_ =? _)%nat; reflexivity. }
  assert (Hzero : _Packet__TTL p = 0).
  { rewrite Hp. change (Packet_get_TTL
                          (Packet_add_hop
                             (packets (Packet__init__ sim w self created
                                         (Some e) 0 size) self) drone) = 0).
    rewrite TTL_add_hop, Httl. reflexivity. }
  unfold Packet_to_json, Event_to_json.
  rewrite Hevent, Hident, Hcoords, Hcreated, Hzero.
  repeat split; try reflexivity.
  intros Hkey. rewrite !lookup_insert_ne; [apply lookup_empty|..];
    intros <-; apply Hkey; simpl; tauto.
Qed.

Lemma packet_json_of_event_witness :
  let p :=
    packets (Event_as_packet (sample_simulator "QL") empty_world
               event_at_origin 3 0 2000 100).1 2000 in
  Packet_to_json p !! "i_dead" = Some (JNum 50)
  /\ Packet_to_json p !! "id_event" = Some (JNum 1)
  /\ Packet_to_json p !! "deadline" = None.
Proof.
  cbv zeta.
  destruct (packet_json_of_event (sample_simulator "QL") empty_world
              event_at_origin 3 0 2000 100 "deadline")
    as (_ & Hdead & Hev & _ & _ & _ & Hother).
  split; [rewrite Hdead; reflexivity|]. split; [rewrite Hev; reflexivity|].
  apply Hother. simpl. intros H.
  repeat (destruct H as [H | H]; [discriminate H|]). exact H.
Defined.

(** ** Construction of a drone *)

(** X6. The constructor raises [IndexError] on an empty path.  Otherwise,
    unless the speed or the energy it computes overflows, the drone stands on
    the first point of its path, on mission, with an empty buffer, no
    tightest deadline yet, its whole energy and a balanced ledger, and the
    movement can rely on it.  Its speed and its energy are the floats of the
    two sums, which are the sums themselves when these are floats.  It is
    full from the start exactly when the capacity of the simulation is 0, and
    [packet_is_expiring] raises on it until [update_packets] has run once. *)
Theorem drone_construction (sim : Simulator) (id : Z)
    (waypoints : list coordinates) (depot : Depot)
    (speed_sample energy_sample : Q) (cur_step : Z) :
  (waypoints = [] ->
   Drone__init__ sim id waypoints depot speed_sample energy_sample
   = Raise IndexError)
  /\ (forall start rest, waypoints = start :: rest ->
      (Drone__init__ sim id waypoints depot speed_sample energy_sample
       = NotFinite
       /\ ~ (exists s e,
               Float.add (drone_speed sim) speed_sample = Float.finite s
               /\ Float.add (drone_max_energy sim) energy_sample
                  = Float.finite e))
      \/ exists d,
        Drone__init__ sim id waypoints depot speed_sample energy_sample
        = Return d
        /\ identifier d = id /\ coords d = start /\ path d = waypoints
        /\ depot_coords d = coords depot
        /\ current_waypoint d = 0
        /\ _Drone__buffer d = []
        /\ move_routing d = false /\ come_back_to_mission d = false
        /\ last_move_routing d = false
        /\ Float.add (drone_max_energy sim) energy_sample
           = Float.finite (residual_energy d)
        /\ (Float.is_float (drone_max_energy sim + energy_sample) ->
            residual_energy d == drone_max_energy sim + energy_sample)%Q
        /\ initial_energy d = residual_energy d
        /\ Float.add (drone_speed sim) speed_sample = Float.finite (speed d)
        /\ (Float.is_float (drone_speed sim + speed_sample) ->
            speed d == drone_speed sim + speed_sample)%Q
        /\ well_formed d /\ ledger_balanced d
        /\ (Drone_is_full d = true <-> drone_max_buffer_size sim = 0)
        /\ (exists e, Drone_packet_is_expiring sim d cur_step = Raise e)).
Proof.
  unfold Drone__init__. split; [intros ->; reflexivity|].
  intros start rest ->. cbn [getitem length].
  change (if (0 <=? 0) && (0 <? Z.of_nat (length (start :: rest)))
          then (start :: rest) !! Z.to_nat 0 else _)
    with (if (0 <? Z.of_nat (length (start :: rest)))
          then Some start else None).
  cbn [orb andb]. replace (0 <? Z.of_nat (length (start :: rest))) with true
    by (symmetry; apply Z.ltb_lt; cbn [length]; lia).
  destruct (Float.add (drone_speed sim) speed_sample) as [s|b|] eqn:Es.
  2,3: left; split; [reflexivity | intros (s & e & H & _); discriminate H].
  destruct (Float.add (drone_max_energy sim) energy_sample) as [e|b|] eqn:Ee.
  2,3: left; split; [reflexivity | intros (s' & e & _ & H); discriminate H].
  right. cbn [stored mbind result_bind]. eexists.
  split; [reflexivity|]. cbn.
  repeat (split; [reflexivity|]).
  split; [|split; [reflexivity|split; [reflexivity|split; [|split; [|split; [|split]]]]]].
  - intros H. cbn [Float.add] in Ee. rewrite H in Ee. injection Ee as <-.
    apply Qred_correct.
  - intros H. cbn [Float.add] in Es. rewrite H in Es. injection Es as <-.
    apply Qred_correct.
  - unfold well_formed. cbn. split; [discriminate|]. split; [lia|].
    intros [H | H]; discriminate H.
  - unfold ledger_balanced. cbn. lra.
  - unfold Drone_is_full, Drone_buffer_length. cbn.
    rewrite Z.eqb_eq. lia.
  - unfold Drone_packet_is_expiring. cbn [speed tightest_event_deadline].
    destruct (Qeq_bool _ 0); eexists; reflexivity.
Qed.

(** The speed is the float of the sum: with the speed 8 and the sample
    0.1 it is 8.1, which is not their exact sum. *)
Example drone_construction_rounds :
  let sample := Float.nearest (1 # 10) in
  let sim := mkSimulator 5 1 10 8 2 1000 "QL" [0; 1] in
  exists d,
    Drone__init__ sim 0 [(10, 0)%Q; (20, 0)%Q] sample_depot sample 0 = Return d
    /\ speed d = Float.nearest (81 # 10)
    /\ ~ (speed d == 8 + sample)%Q.
Proof.
  cbv zeta. eexists. split; [vm_compute; reflexivity|].
  split; [vm_compute; reflexivity | vm_compute; discriminate].
Qed.

Lemma drone_construction_witness :
  Drone__init__ (sample_simulator "QL") 0 [] sample_depot 0 0
  = Raise IndexError
  /\ exists d,
       Drone__init__ (sample_simulator "QL") 0 [(10, 0)%Q; (20, 0)%Q]
         sample_depot 0 0 = Return d
       /\ coords d = (10, 0)%Q /\ well_formed d
       /\ Drone_packet_is_expiring (sample_simulator "QL") d 0
          = Raise TypeError.
Proof.
  destruct (drone_construction (sample_simulator "QL") 0 [] sample_depot 0 0
              0) as (Hempty & _).
  destruct (drone_construction (sample_simulator "QL") 0
              [(10, 0)%Q; (20, 0)%Q] sample_depot 0 0 0) as (_ & Hsome).
  destruct (Hsome (10, 0)%Q [(20, 0)%Q] eq_refl)
    as [(Hnf & _)
       | (d & Hd & _ & Hc & _ & _ & _ & _ & _ & _ & _ & _ & _ & _ & _ & _
          & Hwf & _)];
    [vm_compute in Hnf; discriminate Hnf|].
  split; [exact (Hempty eq_refl)|].
  exists d. split; [exact Hd|]. split; [exact Hc|]. split; [exact Hwf|].
  vm_compute in Hd. injection Hd as <-. vm_compute. reflexivity.
Defined.

(** ** Buffer maintenance, again *)

Lemma update_packets_maintained (sim : Simulator) (w : World) (self : Drone)
    (cur_step : Z) :
  (Drone_update_packets sim w self cur_step).2
  = maintained w self (List.filter (alive w cur_step) (_Drone__buffer self))
  /\ packets (Drone_update_packets sim w self cur_step).1 = packets w
  /\ metrics (Drone_update_packets sim w self cur_step).1 = metrics w.
Proof. rewrite update_packets_eq. repeat split. Qed.

Lemma maintained_buffer (w : World) (self : Drone) (kept : list ref) :
  _Drone__buffer (maintained w self kept) = kept
  /\ speed (maintained w self kept) = speed self
  /\ distance_from_depot (maintained w self kept) = distance_from_depot self
  /\ tightest_event_deadline (maintained w self kept)
     = Some (fold_left tighten (map (deadline_of w) kept) NaN).
Proof. unfold maintained. destruct (length kept =? 0)%nat; repeat split. Qed.

Lemma maintained_frame (w : World) (self : Drone) (kept : list ref) :
  Drone_entity (maintained w self kept) = Drone_entity self
  /\ come_back_to_mission (maintained w self kept)
     = come_back_to_mission self
  /\ last_move_routing (maintained w self kept) = last_move_routing self
  /\ last_mission_coords (maintained w self kept) = last_mission_coords self
  /\ path (maintained w self kept) = path self
  /\ current_waypoint (maintained w self kept) = current_waypoint self
  /\ depot_coords (maintained w self kept) = depot_coords self
  /\ move_routing (maintained w self kept)
     = (if (length kept =? 0)%nat then false else move_routing self).
Proof. unfold maintained. destruct (length kept =? 0)%nat; repeat split. Qed.

Lemma maintained_twice (w w' : World) (self : Drone) (k1 k2 : list ref) :
  (forall r, deadline_of w' r = deadline_of w r) ->
  (k1 = [] -> k2 = []) ->
  maintained w' (maintained w self k1) k2 = maintained w self k2.
Proof.
  intros Hd Hk. unfold maintained.
  rewrite (map_ext (deadline_of w') (deadline_of w) Hd).
  destruct k1 as [|a k1]; [rewrite (Hk eq_refl); reflexivity|].
  destruct k2; reflexivity.
Qed.

Lemma filter_alive_later (w : World) (s s' : Z) (l : list ref) :
  s <= s' ->
  List.filter (alive w s') (List.filter (alive w s) l)
  = List.filter (alive w s') l.
Proof.
  intros Hs. induction l as [|r l IH]; [reflexivity|]. cbn [List.filter].
  destruct (alive w s r) eqn:Ha.
  - cbn [List.filter]. rewrite IH. reflexivity.
  - rewrite IH. rewrite alive_iff in Ha. rewrite (alive_iff w s' r).
    destruct (Z.leb_spec s' (deadline_of w r)); [|reflexivity].
    apply Z.leb_gt in Ha. lia.
Qed.

Lemma filter_dead_later (w : World) (s s' : Z) (l : list ref) :
  s <= s' ->
  List.filter (dead w s') (List.filter (alive w s) l)
  = List.filter (fun r => alive w s r && dead w s' r) l.
Proof.
  intros Hs. induction l as [|r l IH]; [reflexivity|]. cbn [List.filter].
  destruct (alive w s r) eqn:Ha; cbn [andb List.filter]; rewrite IH;
    reflexivity.
Qed.

Lemma filter_alive_dead_nil (w : World) (s : Z) (l : list ref) :
  List.filter (fun r => alive w s r && dead w s r) l = [].
Proof.
  induction l as [|r l IH]; [reflexivity|].
  cbn [List.filter]. unfold alive at 1, dead at 1.
  destruct (Packet_is_expired (packets w r) s); cbn [negb andb]; exact IH.
Qed.

(** X7. Maintaining the buffer at a step and then at a later step leaves
    the drone as maintaining it at the later step alone does.  The calls of the
    second pass are for the packets that expired in between, those that the
    first pass kept: no expiry is announced twice.  In particular a second
    pass at the same step changes neither the drone nor the feedback log. *)
Theorem update_packets_twice (sim : Simulator) (w : World) (self : Drone)
    (s s' : Z) :
  s <= s' ->
  let first := Drone_update_packets sim w self s in
  let second := Drone_update_packets sim first.1 first.2 s' in
  let direct := Drone_update_packets sim w self s' in
  second.2 = direct.2
  /\ packets second.1 = packets w
  /\ feedbacks second.1
     = feedbacks first.1
       ++ (if broadcasts_feedback sim
           then flat_map (expiry_calls sim w self)
                  (List.filter (fun r => alive w s r && dead w s' r)
                     (_Drone__buffer self))
           else [])
  /\ (s = s' -> second.2 = first.2 /\ feedbacks second.1 = feedbacks first.1).
Proof.
  intros Hs first second direct.
  assert (Hfirst : first
                   = (mkWorld (packets w) (metrics w) (feedbacks first.1),
                      maintained w self
                        (List.filter (alive w s) (_Drone__buffer self)))).
  { subst first. rewrite update_packets_eq. reflexivity. }
  assert (Hsecond2 : second.2 = direct.2).
  { subst second direct.
    rewrite (proj1 (update_packets_maintained sim first.1 first.2 s')).
    rewrite (proj1 (update_packets_maintained sim w self s')).
    rewrite Hfirst. cbn [fst snd].
    rewrite (proj1 (maintained_buffer w self _)).
    change (alive {| packets := packets w; metrics := metrics w;
                     feedbacks := feedbacks first.1 |} s')
      with (alive w s').
    rewrite filter_alive_later by exact Hs.
    apply maintained_twice; [reflexivity|].
    intros Hnil. rewrite <- (filter_alive_later w s s') by exact Hs.
    rewrite Hnil. reflexivity. }
  assert (Hfb : feedbacks second.1
                = feedbacks first.1
                  ++ (if broadcasts_feedback sim
                      then flat_map (expiry_calls sim w self)
                             (List.filter
                                (fun r => alive w s r && dead w s' r)
                                (_Drone__buffer self))
                      else [])).
  { subst second. rewrite update_packets_eq. cbn [fst feedbacks].
    rewrite Hfirst. cbn [fst snd feedbacks].
    rewrite (proj1 (maintained_buffer w self _)).
    change (dead {| packets := packets w; metrics := metrics w;
                    feedbacks := feedbacks first.1 |} s')
      with (dead w s').
    rewrite filter_dead_later by exact Hs.
    destruct (broadcasts_feedback sim); [|reflexivity].
    f_equal. apply flat_map_ext. intros r. unfold expiry_calls.
    rewrite (proj1 (maintained_frame w self _)). reflexivity. }
  split; [exact Hsecond2|]. split.
  { subst second. rewrite (proj1 (proj2 (update_packets_maintained _ _ _ _))).
    rewrite Hfirst. reflexivity. }
  split; [exact Hfb|].
  intros <-. split.
  - rewrite Hsecond2. reflexivity.
  - rewrite Hfb.
    rewrite filter_alive_dead_nil.
    destruct (broadcasts_feedback sim); apply app_nil_r.
Qed.

Lemma update_packets_twice_witness :
  let sim := sample_simulator "QL" in
  let first := Drone_update_packets sim two_deadlines drone_with_two_packets
                 101 in
  let second := Drone_update_packets sim first.1 first.2 151 in
  let again := Drone_update_packets sim first.1 first.2 101 in
  _Drone__buffer first.2 = [2001]
  /\ length (feedbacks first.1) = 2%nat
  /\ second.2 = (Drone_update_packets sim two_deadlines
                   drone_with_two_packets 151).2
  /\ _Drone__buffer second.2 = []
  /\ length (feedbacks second.1) = 4%nat
  /\ again.2 = first.2
  /\ feedbacks again.1 = feedbacks first.1.
Proof.
  cbv zeta.
  destruct (update_packets_twice (sample_simulator "QL") two_deadlines
              drone_with_two_packets 101 151 ltac:(lia))
    as (Hsame & _ & Hfb & _).
  destruct (update_packets_twice (sample_simulator "QL") two_deadlines
              drone_with_two_packets 101 101 ltac:(lia))
    as (_ & _ & _ & Hidem).
  destruct (Hidem eq_refl) as (Hd & Hf).
  split; [vm_compute; reflexivity|]. split; [vm_compute; reflexivity|].
  split; [exact Hsame|]. split; [rewrite Hsame; vm_compute; reflexivity|].
  split; [rewrite Hfb; vm_compute; reflexivity|].
  split; [exact Hd | exact Hf].
Defined.

Lemma length_flat_map_const {A B : Type} (f : A -> list B) (n : nat)
    (l : list A) :
  (forall x, length (f x) = n) -> length (flat_map f l) = (length l * n)%nat.
Proof.
  intros Hf. induction l as [|x l IH]; [reflexivity|].
  cbn [flat_map]. rewrite length_app, Hf, IH. cbn [length]. lia.
Qed.

Lemma length_feedback_calls (sim : Simulator) (a b c d e : Z) :
  length (feedback_calls sim a b c d e) = length (drones sim).
Proof. unfold feedback_calls. apply length_map. Qed.

Lemma In_feedback_calls (sim : Simulator) (a b c d e : Z) (fb : Feedback) :
  In fb (feedback_calls sim a b c d e)
  <-> exists drone, In drone (drones sim) /\ fb = mkFeedback drone a b c d e.
Proof.
  unfold feedback_calls. rewrite in_map_iff.
  split; intros (drone & H1 & H2); exists drone; split; auto.
Qed.

Lemma dead_iff (w : World) (cur_step : Z) (pck : ref) :
  dead w cur_step pck = true <-> deadline_of w pck < cur_step.
Proof. apply Packet_is_expired_iff. Qed.

(** X8. The calls [update_packets] makes are, for a routing algorithm that
    takes feedback, one per expired packet of the buffer and per drone of the
    simulation, and no other: each names the drone that held the packet and the
    event of the packet, with outcome -1, reward -100 and the duration of an
    event as delay.  For an algorithm that takes none no call is made.  The
    metrics are not touched. *)
Theorem expiry_feedback_shape (sim : Simulator) (w : World) (self : Drone)
    (cur_step : Z) :
  let after := Drone_update_packets sim w self cur_step in
  let expired := List.filter (dead w cur_step) (_Drone__buffer self) in
  exists new,
    feedbacks after.1 = feedbacks w ++ new
    /\ length new
       = (if broadcasts_feedback sim
          then (length expired * length (drones sim))%nat else 0%nat)
    /\ (forall fb, In fb new <->
        broadcasts_feedback sim = true
        /\ exists pck drone,
             In pck (_Drone__buffer self) /\ deadline_of w pck < cur_step
             /\ In drone (drones sim)
             /\ fb = mkFeedback drone (identifier self) (event_id w pck)
                       (event_duration sim) (-1) (-100))
    /\ metrics after.1 = metrics w.
Proof.
  intros after expired. subst after. rewrite update_packets_eq.
  cbn [fst feedbacks metrics]. fold expired.
  eexists. split; [reflexivity|].
  destruct (broadcasts_feedback sim).
  - split; [|split; [|reflexivity]].
    + apply length_flat_map_const. intros pck. apply length_feedback_calls.
    + intros fb. rewrite in_flat_map. split.
      * intros (pck & Hin & Hfb). split; [reflexivity|].
        apply filter_In in Hin. destruct Hin as [Hin Hdead].
        apply dead_iff in Hdead. apply In_feedback_calls in Hfb.
        destruct Hfb as (drone & Hd & ->). exists pck, drone. auto.
      * intros (_ & pck & drone & Hin & Hdead & Hd & ->).
        exists pck. split.
        -- apply filter_In. split; [exact Hin | apply dead_iff; exact Hdead].
        -- apply In_feedback_calls. exists drone. auto.
  - split; [reflexivity|]. split; [|reflexivity].
    intros fb. split; [intros [] | intros [H _]; discriminate H].
Qed.

Lemma expiry_feedback_shape_witness :
  let sim := sample_simulator "QL" in
  let after :=
    Drone_update_packets sim two_deadlines drone_with_two_packets 101 in
  feedbacks after.1
  = [mkFeedback 0 0 1000 5 (-1) (-100); mkFeedback 1 0 1000 5 (-1) (-100)]
  /\ In (mkFeedback 1 0 1000 5 (-1) (-100)) (feedbacks after.1).
Proof.
  cbv zeta.
  destruct (expiry_feedback_shape (sample_simulator "QL") two_deadlines
              drone_with_two_packets 101) as (new & Hfb & _ & Hin & _).
  split; [vm_compute; reflexivity|].
  rewrite Hfb. apply in_or_app. right. apply Hin.
  split; [reflexivity|]. exists 2000, 1.
  split; [left; reflexivity|]. split; [vm_compute; reflexivity|].
  split; [right; left; reflexivity|]. reflexivity.
Defined.





(** ** The depot, again *)

Lemma transfer_body_metrics (sim : Simulator) (current_drone : Drone)
    (cur_step : Z) (w : World) (pck : ref) :
  let m := metrics w in
  metrics (transfer_body sim current_drone cur_step w pck)
  = mkMetrics (events m) (drones_packets m)
      (all_data_packets_in_simulation m) (events_not_listened m)
      ({[ (pck, cur_step) ]} ∪ drones_packets_to_depot m)
      (drones_packets_to_depot_list m ++ [(pck, cur_step)])
      (time_on_active_routing m) (time_on_mission m).
Proof.
  unfold transfer_body. destruct (broadcasts_feedback sim);
    [rewrite broadcast_spec|]; reflexivity.
Qed.

Lemma transfer_loop_metrics (sim : Simulator) (current_drone : Drone)
    (cur_step : Z) (buffer : list ref) (w : World) :
  let m := metrics w in
  let m' :=
    metrics (fold_left (transfer_body sim current_drone cur_step) buffer w) in
  events m' = events m /\ drones_packets m' = drones_packets m
  /\ all_data_packets_in_simulation m' = all_data_packets_in_simulation m
  /\ events_not_listened m' = events_not_listened m
  /\ time_on_active_routing m' = time_on_active_routing m
  /\ time_on_mission m' = time_on_mission m
  /\ forall x, x ∈ drones_packets_to_depot m'
               <-> x ∈ drones_packets_to_depot m
                   \/ exists pck, In pck buffer /\ x = (pck, cur_step).
Proof.
  revert w. induction buffer as [|pck rest IH]; intros w; cbv zeta.
  - cbn [fold_left]. repeat split; try reflexivity; [tauto|].
    intros [H | (pck & [] & _)]. exact H.
  - cbn [fold_left].
    destruct (IH (transfer_body sim current_drone cur_step w pck))
      as (H1 & H2 & H3 & H4 & H5 & H6 & H7).
    rewrite transfer_body_metrics in H1, H2, H3, H4, H5, H6, H7.
    cbn in H1, H2, H3, H4, H5, H6, H7.
    repeat (split; [assumption|]).
    intros x. rewrite H7, elem_of_union, elem_of_singleton. split.
    + intros [[-> | H] | (p & Hp & ->)].
      * right. exists pck. split; [left|]; reflexivity.
      * left. exact H.
      * right. exists p. split; [right; exact Hp | reflexivity].
    + intros [H | (p & [<- | Hp] & ->)].
      * left. right. exact H.
      * left. left. reflexivity.
      * right. exists p. split; [exact Hp | reflexivity].
Qed.

(** X10. When the routing algorithm takes feedback, the depot calls every
    drone of the simulation once for each packet it is handed, with outcome 1,
    reward 100 and, as delay, the steps elapsed since the event of the packet
    was sensed; otherwise it calls none.  The set of delivered packets gains
    the pair of each packet with the step, and the other metrics stay.  The
    set forgets what the list records: a second offload at the same step
    leaves the set as it was and adds the entries to the list once more. *)
Theorem depot_feedback_and_set (sim : Simulator) (w : World) (self : Depot)
    (current_drone : Drone) (cur_step : Z) :
  let buffer := Drone_all_packets current_drone in
  let once :=
    Depot_transfer_notified_packets sim w self current_drone cur_step in
  let twice :=
    Depot_transfer_notified_packets sim once.1 once.2 current_drone
      cur_step in
  (exists new,
     feedbacks once.1 = feedbacks w ++ new
     /\ length new
        = (if broadcasts_feedback sim
           then (length buffer * length (drones sim))%nat else 0%nat)
     /\ forall fb, In fb new <->
          broadcasts_feedback sim = true
          /\ exists pck drone,
               In pck buffer /\ In drone (drones sim)
               /\ fb = mkFeedback drone (identifier current_drone)
                         (event_id w pck)
                         (cur_step
                          - current_time (event_ref (packets w pck)))
                         1 100)
  /\ (forall x, x ∈ drones_packets_to_depot (metrics once.1)
                <-> x ∈ drones_packets_to_depot (metrics w)
                    \/ exists pck, In pck buffer /\ x = (pck, cur_step))
  /\ events (metrics once.1) = events (metrics w)
  /\ drones_packets (metrics once.1) = drones_packets (metrics w)
  /\ all_data_packets_in_simulation (metrics once.1)
     = all_data_packets_in_simulation (metrics w)
  /\ drones_packets_to_depot (metrics twice.1)
     = drones_packets_to_depot (metrics once.1)
  /\ length (drones_packets_to_depot_list (metrics twice.1))
     = (length (drones_packets_to_depot_list (metrics w))
        + 2 * length buffer)%nat.
Proof.
  intros buffer once twice.
  destruct (transfer_loop_log sim current_drone cur_step buffer w)
    as [Hlist Hfb].
  destruct (transfer_loop_metrics sim current_drone cur_step buffer w)
    as (H1 & H2 & H3 & _ & _ & _ & Hset).
  destruct (transfer_loop_log sim current_drone cur_step buffer once.1)
    as [Hlist2 _].
  destruct (transfer_loop_metrics sim current_drone cur_step buffer once.1)
    as (_ & _ & _ & _ & _ & _ & Hset2).
  split; [|split; [exact Hset|split; [exact H1|split; [exact H2|
           split; [exact H3|split]]]]].
  - eexists. split; [exact Hfb|].
    destruct (broadcasts_feedback sim).
    + split.
      * apply length_flat_map_const. intros pck. apply length_feedback_calls.
      * intros fb. rewrite in_flat_map. split.
        -- intros (pck & Hin & Hc). split; [reflexivity|].
           apply In_feedback_calls in Hc. destruct Hc as (drone & Hd & ->).
           exists pck, drone. auto.
        -- intros (_ & pck & drone & Hin & Hd & ->). exists pck.
           split; [exact Hin|]. apply In_feedback_calls. exists drone. auto.
    + split; [reflexivity|]. intros fb.
      split; [intros [] | intros [H _]; discriminate H].
  - apply set_eq. intros x.
    change (metrics twice.1)
      with (metrics (fold_left (transfer_body sim current_drone cur_step)
                       buffer once.1)).
    rewrite Hset2. split; [|tauto].
    intros [H | (pck & Hin & ->)]; [exact H|].
    apply Hset. right. exists pck. auto.
  - change (metrics twice.1)
      with (metrics (fold_left (transfer_body sim current_drone cur_step)
                       buffer once.1)).
    rewrite Hlist2.
    change (metrics once.1)
      with (metrics (fold_left (transfer_body sim current_drone cur_step)
                       buffer w)).
    rewrite Hlist, !length_app, !length_map. lia.
Qed.

Lemma depot_feedback_and_set_witness :
  let sim := sample_simulator "QL" in
  let once :=
    Depot_transfer_notified_packets sim two_deadlines sample_depot
      drone_with_two_packets 120 in
  feedbacks once.1
  = [mkFeedback 0 0 1000 70 1 100; mkFeedback 1 0 1000 70 1 100;
     mkFeedback 0 0 1001 20 1 100; mkFeedback 1 0 1001 20 1 100]
  /\ (2001, 120) ∈ drones_packets_to_depot (metrics once.1)
  /\ length
       (drones_packets_to_depot_list
          (metrics
             (Depot_transfer_notified_packets sim once.1 once.2
                drone_with_two_packets 120).1)) = 4%nat.
Proof.
  cbv zeta.
  destruct (depot_feedback_and_set (sample_simulator "QL") two_deadlines
              sample_depot drone_with_two_packets 120)
    as (_ & Hset & _ & _ & _ & _ & Hlen).
  split; [vm_compute; reflexivity|]. split.
  - apply Hset. right. exists 2001. split; [right; left|]; reflexivity.
  - rewrite Hlen. reflexivity.
Defined.

Lemma depot_feedback_shape_aux (sim : Simulator) (w : World) (self : Depot)
    (current_drone : Drone) (cur_step : Z) :
  exists new,
    feedbacks
      (Depot_transfer_notified_packets sim w self current_drone cur_step).1
    = feedbacks w ++ new
    /\ forall fb, In fb new ->
         exists pck,
           In pck (_Drone__buffer current_drone)
           /\ fb_outcome fb = 1
           /\ fb_delay fb
              = cur_step - current_time (event_ref (packets w pck)).
Proof.
  destruct (transfer_loop_log sim current_drone cur_step
              (_Drone__buffer current_drone) w) as [_ Hfb].
  eexists. split; [exact Hfb|]. intros fb Hin.
  destruct (broadcasts_feedback sim); [|destruct Hin].
  apply in_flat_map in Hin. destruct Hin as (pck & Hpck & Hc).
  apply In_feedback_calls in Hc. destruct Hc as (drone & _ & ->).
  exists pck. repeat split. exact Hpck.
Qed.

(** X11. Maintenance before the offload bounds the delay the depot reports.
    If every packet of the buffer carries the default deadline of its event
    (the time it was sensed plus the duration of an event), then after
    [update_packets] at a step, every call the depot makes at that step
    reports success with a delay of at most the duration of an event. *)
Theorem delivery_delay_bounded (sim : Simulator) (w : World) (self : Depot)
    (current_drone : Drone) (cur_step : Z) :
  (forall pck, In pck (_Drone__buffer current_drone) ->
     deadline_of w pck
     = current_time (event_ref (packets w pck)) + event_duration sim) ->
  let kept := Drone_update_packets sim w current_drone cur_step in
  let offload :=
    Depot_transfer_notified_packets sim kept.1 self kept.2 cur_step in
  exists new,
    feedbacks offload.1 = feedbacks kept.1 ++ new
    /\ forall fb, In fb new ->
         fb_outcome fb = 1 /\ fb_delay fb <= event_duration sim.
Proof.
  intros Hdefault kept offload.
  destruct (depot_feedback_shape_aux sim kept.1 self kept.2 cur_step)
    as (new & Hfb & Hin).
  exists new. split; [exact Hfb|]. intros fb Hfbin.
  destruct (Hin fb Hfbin) as (pck & Hpck & -> & ->).
  split; [reflexivity|].
  subst kept. rewrite (proj1 (update_packets_maintained _ _ _ _)) in Hpck.
  rewrite (proj1 (maintained_buffer _ _ _)) in Hpck.
  apply filter_In in Hpck. destruct Hpck as [Hpck Halive].
  rewrite alive_iff in Halive. apply Z.leb_le in Halive.
  rewrite (proj1 (proj2 (update_packets_maintained _ _ _ _))).
  specialize (Hdefault pck Hpck). unfold deadline_of in *. lia.
Qed.

Lemma delivery_delay_bounded_witness :
  let sim := sample_simulator "QL" in
  let kept := Drone_update_packets sim after_two_events.1 after_two_events.2
                3 in
  let offload :=
    Depot_transfer_notified_packets sim kept.1 sample_depot kept.2 3 in
  feedbacks offload.1
  = [mkFeedback 0 0 1000 3 1 100; mkFeedback 1 0 1000 3 1 100;
     mkFeedback 0 0 1001 2 1 100; mkFeedback 1 0 1001 2 1 100]
  /\ exists new,
       feedbacks offload.1 = feedbacks kept.1 ++ new
       /\ forall fb, In fb new -> fb_outcome fb = 1 /\ fb_delay fb <= 5.
Proof.
  cbv zeta. split; [vm_compute; reflexivity|].
  apply (delivery_delay_bounded (sample_simulator "QL") after_two_events.1
           sample_depot after_two_events.2 3).
  intros pck Hin.
  assert (Hb : _Drone__buffer after_two_events.2 = [2000; 2001])
    by (vm_compute; reflexivity).
  rewrite Hb in Hin.
  destruct Hin as [<- | [<- | []]]; vm_compute; reflexivity.
Defined.

(** ** Packet intake, again *)

Lemma feel_event_packet (sim : Simulator) (w : World) (self : Drone)
    (cur_step : Z) (ev pk : ref) (size : Q) :
  packets (Drone_feel_event sim w self cur_step ev pk size).1 pk
  = mkPacket (mkEntity pk (coords self)) cur_step
      (mkEvent (mkEntity ev (coords self)) cur_step
         (cur_step + event_duration sim))
      0 (packets_max_ttl sim) 0 0 size [identifier self] None.
Proof.
  unfold Drone_feel_event, Event__init__, Event_as_packet, Packet__init__.
  destruct (negb (coords_eqb (coords self) (-1, -1)%Q)
            && negb (cur_step =? -1));
    destruct (negb (move_routing self) && negb (come_back_to_mission self));
    cbn; (destruct (decide (pk = pk)); [|congruence]);
    unfold Packet_add_hop; reflexivity.
Qed.

Lemma feel_event_metrics (sim : Simulator) (w : World) (self : Drone)
    (cur_step : Z) (ev pk : ref) (size : Q) :
  let m := metrics w in
  let m' := metrics (Drone_feel_event sim w self cur_step ev pk size).1 in
  let on_mission :=
    negb (move_routing self) && negb (come_back_to_mission self) in
  events m'
  = (if negb (coords_eqb (coords self) (-1, -1)%Q) && negb (cur_step =? -1)
     then {[ ev ]} ∪ events m else events m)
  /\ drones_packets m' = {[ pk ]} ∪ drones_packets m
  /\ all_data_packets_in_simulation m'
     = (if on_mission then all_data_packets_in_simulation m + 1
        else all_data_packets_in_simulation m)
  /\ events_not_listened m'
     = (if on_mission then events_not_listened m
        else {[ ev ]} ∪ events_not_listened m)
  /\ drones_packets_to_depot m' = drones_packets_to_depot m
  /\ drones_packets_to_depot_list m' = drones_packets_to_depot_list m
  /\ time_on_mission m' = time_on_mission m
  /\ time_on_active_routing m' = time_on_active_routing m
  /\ feedbacks (Drone_feel_event sim w self cur_step ev pk size).1
     = feedbacks w.
Proof.
  unfold Drone_feel_event, Event__init__, Event_as_packet, Packet__init__.
  destruct (negb (coords_eqb (coords self) (-1, -1)%Q)
            && negb (cur_step =? -1));
    destruct (negb (move_routing self) && negb (come_back_to_mission self));
    cbn; repeat split; reflexivity.
Qed.

(** X12. [feel_event] always builds the packet: at its address the store
    holds a packet about a new event at the position of the drone, sensed at
    the step and due [event_duration] steps later, with TTL 0 and the drone as
    its one hop, and no other packet is written.  The packet is counted in
    [metrics.drones_packets] whether or not it is kept.  On mission it joins
    the buffer and the count of data packets grows by one; a drone that is
    diverted or coming back keeps its buffer, and the event goes to
    [metrics.events_not_listened].  No feedback is sent. *)
Theorem feel_event_effects (sim : Simulator) (w : World) (self : Drone)
    (cur_step : Z) (ev pk : ref) (size : Q) :
  let after := Drone_feel_event sim w self cur_step ev pk size in
  let p := packets after.1 pk in
  (forall r, r <> pk -> packets after.1 r = packets w r)
  /\ event_ref p
     = mkEvent (mkEntity ev (coords self)) cur_step
         (cur_step + event_duration sim)
  /\ identifier p = pk /\ coords p = coords self
  /\ Packet_get_TTL p = 0 /\ last_2_hops p = [identifier self]
  /\ time_delivery p = None
  /\ feedbacks after.1 = feedbacks w
  /\ drones_packets (metrics after.1) = {[ pk ]} ∪ drones_packets (metrics w)
  /\ (move_routing self = false -> come_back_to_mission self = false ->
      after.2 = set_buffer self (_Drone__buffer self ++ [pk])
      /\ all_data_packets_in_simulation (metrics after.1)
         = all_data_packets_in_simulation (metrics w) + 1
      /\ events_not_listened (metrics after.1)
         = events_not_listened (metrics w))
  /\ (move_routing self = true \/ come_back_to_mission self = true ->
      after.2 = self
      /\ all_data_packets_in_simulation (metrics after.1)
         = all_data_packets_in_simulation (metrics w)
      /\ events_not_listened (metrics after.1)
         = {[ ev ]} ∪ events_not_listened (metrics w)).
Proof.
  intros after p. subst after p.
  destruct (feel_event_packets sim w self cur_step ev pk size) as [_ Hother].
  destruct (feel_event_metrics sim w self cur_step ev pk size)
    as (_ & Hdp & Hall & Hnot & _ & _ & _ & _ & Hfb).
  pose proof (feel_event_frame sim w self cur_step ev pk size) as Hframe.
  pose proof (feel_event_buffer sim w self cur_step ev pk size) as Hbuf.
  rewrite feel_event_packet. cbn [event_ref Packet_entity identifier coords
    Packet_get_TTL _Packet__TTL last_2_hops time_delivery].
  split; [exact Hother|]. repeat (split; [reflexivity|]).
  split; [exact Hfb|]. split; [exact Hdp|]. split.
  - intros Hm Hc. rewrite Hm, Hc in Hall, Hnot, Hbuf. cbn in Hall, Hnot, Hbuf.
    split; [rewrite Hframe, Hbuf; reflexivity|]. split; assumption.
  - intros Hor.
    assert (Hoff : negb (move_routing self)
                   && negb (come_back_to_mission self) = false)
      by (destruct Hor as [-> | ->]; [reflexivity | apply andb_false_r]).
    rewrite Hoff in Hall, Hnot, Hbuf.
    split; [rewrite Hframe, Hbuf; destruct self; reflexivity|].
    split; assumption.
Qed.

Lemma feel_event_effects_witness :
  let sim := sample_simulator "QL" in
  let diverted := set_move_routing sample_drone true in
  let kept := Drone_feel_event sim empty_world sample_drone 0 1000 2000 100 in
  let lost := Drone_feel_event sim empty_world diverted 0 1000 2000 100 in
  _Drone__buffer kept.2 = [2000]
  /\ all_data_packets_in_simulation (metrics kept.1) = 1
  /\ lost.2 = diverted
  /\ 2000 ∈ drones_packets (metrics lost.1)
  /\ 1000 ∈ events_not_listened (metrics lost.1)
  /\ deadline (event_ref (packets lost.1 2000)) = 5.
Proof.
  cbv zeta.
  destruct (feel_event_effects (sample_simulator "QL") empty_world
              sample_drone 0 1000 2000 100)
    as (_ & _ & _ & _ & _ & _ & _ & _ & _ & Hon & _).
  destruct (feel_event_effects (sample_simulator "QL") empty_world
              (set_move_routing sample_drone true) 0 1000 2000 100)
    as (_ & Hev & _ & _ & _ & _ & _ & _ & Hdp & _ & Hoff).
  destruct (Hon eq_refl eq_refl) as (Hself & Hall & _).
  destruct (Hoff (or_introl eq_refl)) as (Hself' & _ & Hnot).
  split; [rewrite Hself; reflexivity|]. split; [rewrite Hall; reflexivity|].
  split; [exact Hself'|]. split; [rewrite Hdp; set_solver|].
  split; [rewrite Hnot; set_solver|]. rewrite Hev. reflexivity.
Defined.

(** X13. A packet sensed on mission at a step lives [event_duration] steps:
    [update_packets] at a later step keeps it exactly when that step is at
    most the step of sensing plus the duration of an event. *)
Theorem sensed_packet_lifetime (sim : Simulator) (w : World) (self : Drone)
    (cur_step later : Z) (ev pk : ref) (size : Q) :
  move_routing self = false -> come_back_to_mission self = false ->
  let sensed := Drone_feel_event sim w self cur_step ev pk size in
  let kept := Drone_update_packets sim sensed.1 sensed.2 later in
  In pk (_Drone__buffer sensed.2)
  /\ (In pk (_Drone__buffer kept.2) <-> later <= cur_step + event_duration sim).
Proof.
  intros Hm Hc sensed kept.
  assert (Hbuf : _Drone__buffer sensed.2 = _Drone__buffer self ++ [pk])
    by (subst sensed; rewrite feel_event_buffer, Hm, Hc; reflexivity).
  split; [rewrite Hbuf; apply in_or_app; right; left; reflexivity|].
  subst kept. rewrite (proj1 (update_packets_maintained _ _ _ _)).
  rewrite (proj1 (maintained_buffer _ _ _)), filter_In, Hbuf, alive_iff.
  unfold deadline_of. subst sensed. rewrite feel_event_packet.
  cbn [event_ref deadline]. rewrite Z.leb_le. split; [tauto|].
  intros H. split; [apply in_or_app; right; left; reflexivity | exact H].
Qed.

Lemma sensed_packet_lifetime_witness :
  let sim := sample_simulator "QL" in
  let sensed := Drone_feel_event sim empty_world sample_drone 0 1000 2000
                  100 in
  In 2000 (_Drone__buffer (Drone_update_packets sim sensed.1 sensed.2 5).2)
  /\ ~ In 2000
         (_Drone__buffer (Drone_update_packets sim sensed.1 sensed.2 6).2).
Proof.
  cbv zeta.
  destruct (sensed_packet_lifetime (sample_simulator "QL") empty_world
              sample_drone 0 5 1000 2000 100 eq_refl eq_refl) as [_ H5].
  destruct (sensed_packet_lifetime (sample_simulator "QL") empty_world
              sample_drone 0 6 1000 2000 100 eq_refl eq_refl) as [_ H6].
  split; [apply H5; vm_compute; discriminate|].
  intros H. apply H6 in H. vm_compute in H. apply H. reflexivity.
Defined.

Lemma accept_packets_known (w : World) (incoming : list ref) (self : Drone)
    (x : Z) :
  In x (known_events w (Drone_accept_packets w self incoming))
  <-> In x (known_events w self) \/ In x (map (event_id w) incoming).
Proof.
  revert self. induction incoming as [|packet rest IH]; intros self.
  - cbn. tauto.
  - rewrite accept_cons, IH, accept_one. cbn [map In].
    destruct (Drone_is_known_packet w self packet) eqn:Hk.
    + apply is_known_packet_iff in Hk. fold (known_events w self) in Hk.
      split; [tauto|]. intros [H | [<- | H]]; tauto.
    + unfold known_events. cbn [set_buffer _Drone__buffer].
      rewrite map_app, in_app_iff. cbn [map In]. tauto.
Qed.

Lemma accept_known_unchanged (w : World) (incoming : list ref)
    (self : Drone) :
  (forall p, In p incoming -> Drone_is_known_packet w self p = true) ->
  Drone_accept_packets w self incoming = self.
Proof.
  induction incoming as [|packet rest IH]; intros Hk; [reflexivity|].
  rewrite accept_cons, accept_one, (Hk packet (or_introl eq_refl)).
  apply IH. intros p Hp. apply Hk. right. exact Hp.
Qed.

(** X14. After [accept_packets] the drone knows the events it knew and the
    events of the packets it was offered, and no other; every packet offered
    is then known, so offering the same packets again changes nothing.  The
    buffer grows at its end, by packets taken from those offered.  Two drones
    that accept each other's buffers in turn end up knowing the same
    events. *)
Theorem accept_packets_union (w : World) (self other : Drone)
    (incoming : list ref) :
  let accepted := Drone_accept_packets w self incoming in
  let other' := Drone_accept_packets w other (Drone_all_packets accepted) in
  let self' := Drone_accept_packets w self (Drone_all_packets other) in
  (forall x, In x (known_events w accepted)
             <-> In x (known_events w self) \/ In x (map (event_id w) incoming))
  /\ (forall p, In p incoming -> Drone_is_known_packet w accepted p = true)
  /\ Drone_accept_packets w accepted incoming = accepted
  /\ (exists added,
        accepted = set_buffer self (_Drone__buffer self ++ added)
        /\ forall p, In p added -> In p incoming)
  /\ (forall x,
        In x (known_events w self')
        <-> In x (known_events w
                    (Drone_accept_packets w other (Drone_all_packets self')))).
Proof.
  intros accepted other' self'.
  assert (Hknown : forall p, In p incoming ->
                     Drone_is_known_packet w accepted p = true).
  { intros p Hp. apply is_known_packet_iff. fold (known_events w accepted).
    apply accept_packets_known. right. apply in_map. exact Hp. }
  split; [intros x; apply accept_packets_known|]. split; [exact Hknown|].
  split; [apply accept_known_unchanged; exact Hknown|].
  split; [apply accept_packets_frame|].
  intros x. rewrite accept_packets_known. subst self'.
  unfold Drone_all_packets.
  fold (known_events w (Drone_accept_packets w self (_Drone__buffer other))).
  rewrite accept_packets_known. fold (known_events w other). tauto.
Qed.

Lemma accept_packets_union_witness :
  let self := drone_with_packet in
  let other := set_buffer sample_drone [2002] in
  let self' := Drone_accept_packets three_packets self [2002] in
  let other' := Drone_accept_packets three_packets other [2000; 2002] in
  _Drone__buffer self' = [2000; 2002]
  /\ _Drone__buffer other' = [2002; 2000]
  /\ Drone_is_known_packet three_packets self' 2002 = true
  /\ forall x, In x (known_events three_packets self')
               <-> In x (known_events three_packets other').
Proof.
  cbv zeta.
  destruct (accept_packets_union three_packets drone_with_packet
              (set_buffer sample_drone [2002]) [2002])
    as (_ & Hknown & _ & _ & Hsync).
  split; [vm_compute; reflexivity|]. split; [vm_compute; reflexivity|].
  split; [apply Hknown; left; reflexivity|]. exact Hsync.
Defined.

Lemma packet_eqb_by_address (w : World) (a b : ref) :
  identifier (packets w a) = a -> identifier (packets w b) = b ->
  packet_eqb w a b = (a =? b).
Proof.
  intros Ha Hb. unfold packet_eqb, Entity__eq__. rewrite Ha, Hb.
  rewrite (Z.eqb_sym b a). apply orb_diag.
Qed.

Lemma list_remove_absent (w : World) (buffer : list ref) (packet : ref) :
  existsb (packet_eqb w packet) buffer = false ->
  identified_by_address w (packet :: buffer) ->
  list_remove w (buffer ++ [packet]) packet = buffer.
Proof.
  induction buffer as [|x rest IH]; intros Hno Hid.
  - cbn. unfold packet_eqb. rewrite Z.eqb_refl. reflexivity.
  - cbn [existsb] in Hno. apply orb_false_iff in Hno. destruct Hno as [Hx Hno].
    cbn [app list_remove].
    assert (Hpx : packet_eqb w x packet = false).
    { rewrite packet_eqb_by_address in Hx |- *;
        try (apply Hid; simpl; tauto).
      rewrite Z.eqb_sym. exact Hx. }
    rewrite Hpx, IH; [reflexivity | exact Hno |].
    intros r [<- | Hr]; apply Hid; simpl; tauto.
Qed.

Lemma list_remove_length (w : World) (buffer : list ref) (packet : ref) :
  (length (list_remove w buffer packet) <= length buffer)%nat.
Proof.
  induction buffer as [|x rest IH]; [reflexivity|]. cbn [list_remove].
  destruct (packet_eqb w x packet); cbn [length]; lia.
Qed.

Lemma list_remove_gone (w : World) (buffer : list ref) (packet : ref) :
  NoDup buffer -> identified_by_address w (packet :: buffer) ->
  ~ In packet (list_remove w buffer packet).
Proof.
  induction buffer as [|x rest IH]; intros Hnd Hid; [intros []|].
  apply NoDup_cons in Hnd. destruct Hnd as [Hx Hnd].
  cbn [list_remove].
  rewrite packet_eqb_by_address by (apply Hid; simpl; tauto).
  destruct (Z.eqb_spec x packet) as [->|Hne].
  - intros Hin. apply Hx. apply list_elem_of_In. exact Hin.
  - intros [Heq | Hin]; [congruence|]. revert Hin. apply IH; [exact Hnd|].
    intros r [<- | Hr]; apply Hid; simpl; tauto.
Qed.

(** X15. [remove_packets], given a list that is not the buffer itself,
    only removes: the buffer does not grow, every packet left was there
    before, and a packet that equals none of the buffer leaves it as it is.
    For packets that are their own identifier, removing a packet that was just
    accepted gives the drone back as it was, and removing a packet from a
    buffer without repetition leaves a buffer without it. *)
Theorem remove_packets_spec (w : World) (self : Drone)
    (outgoing : list ref) (packet : ref) :
  let removed := Drone_remove_packets w self outgoing in
  (length (_Drone__buffer removed) <= length (_Drone__buffer self))%nat
  /\ (forall p, In p (_Drone__buffer removed) -> In p (_Drone__buffer self))
  /\ (existsb (packet_eqb w packet) (_Drone__buffer self) = false ->
      Drone_remove_packets w self [packet] = self)
  /\ (identified_by_address w (packet :: _Drone__buffer self) ->
      ~ In packet (_Drone__buffer self) ->
      Drone_is_known_packet w self packet = false ->
      Drone_remove_packets w (Drone_accept_packets w self [packet]) [packet]
      = self)
  /\ (identified_by_address w (packet :: _Drone__buffer self) ->
      NoDup (_Drone__buffer self) ->
      ~ In packet (_Drone__buffer (Drone_remove_packets w self [packet]))).
Proof.
  intros removed. subst removed. split; [|split; [|split; [|split]]].
  - revert self. induction outgoing as [|p rest IH]; intros self;
      [reflexivity|].
    unfold Drone_remove_packets. cbn [fold_left].
    fold (Drone_remove_packets w
            (if existsb (packet_eqb w p) (_Drone__buffer self)
             then set_buffer self (list_remove w (_Drone__buffer self) p)
             else self) rest).
    etransitivity; [apply IH|].
    destruct (existsb _ _); [|reflexivity].
    cbn [set_buffer _Drone__buffer]. apply list_remove_length.
  - revert self. induction outgoing as [|p rest IH]; intros self q Hq;
      [exact Hq|].
    unfold Drone_remove_packets in Hq. cbn [fold_left] in Hq.
    fold (Drone_remove_packets w
            (if existsb (packet_eqb w p) (_Drone__buffer self)
             then set_buffer self (list_remove w (_Drone__buffer self) p)
             else self) rest) in Hq.
    apply IH in Hq. destruct (existsb _ _); [|exact Hq].
    cbn [set_buffer _Drone__buffer] in Hq.
    eapply list_remove_In. exact Hq.
  - intros Hno. unfold Drone_remove_packets. cbn [fold_left].
    rewrite Hno. reflexivity.
  - intros Hid Hnin Hk. rewrite accept_one, Hk.
    unfold Drone_remove_packets. cbn [fold_left set_buffer _Drone__buffer].
    assert (Hno : existsb (packet_eqb w packet) (_Drone__buffer self)
                  = false).
    { apply not_true_is_false. intros Hex. apply existsb_exists in Hex.
      destruct Hex as (x & Hx & Heq).
      rewrite packet_eqb_by_address in Heq by (apply Hid; simpl; tauto).
      apply Z.eqb_eq in Heq. subst x. contradiction. }
    rewrite existsb_app. cbn [existsb]. unfold packet_eqb at 2.
    rewrite Z.eqb_refl. cbn [orb]. rewrite orb_true_r.
    rewrite list_remove_absent by assumption.
    destruct self; reflexivity.
  - intros Hid Hnd. unfold Drone_remove_packets. cbn [fold_left].
    destruct (existsb (packet_eqb w packet) (_Drone__buffer self)) eqn:Hex.
    + cbn [set_buffer _Drone__buffer]. apply list_remove_gone; assumption.
    + intros Hin. apply not_true_iff_false in Hex. apply Hex.
      apply existsb_exists. exists packet. split; [exact Hin|].
      unfold packet_eqb. rewrite Z.eqb_refl. reflexivity.
Qed.

Lemma remove_packets_spec_witness :
  let self := set_buffer sample_drone [2000; 2002] in
  identified_by_address three_packets [2001; 2000; 2002]
  /\ Drone_remove_packets three_packets self [2001] = self
  /\ _Drone__buffer (Drone_remove_packets three_packets self [2000]) = [2002]
  /\ ~ In 2000 (_Drone__buffer (Drone_remove_packets three_packets self [2000])).
Proof.
  cbv zeta.
  assert (Hid : forall r, identified_by_address three_packets
                            [r; 2000; 2002] ->
                          identified_by_address three_packets
                            (r :: _Drone__buffer
                                    (set_buffer sample_drone [2000; 2002])))
    by (intros r H; exact H).
  assert (Hall : forall r, In r [2000; 2001; 2002] ->
                   identifier (packets three_packets r) = r).
  { intros r [<- | [<- | [<- | []]]]; vm_compute; reflexivity. }
  destruct (remove_packets_spec three_packets
              (set_buffer sample_drone [2000; 2002]) [] 2001)
    as (_ & _ & Habsent & _).
  destruct (remove_packets_spec three_packets
              (set_buffer sample_drone [2000; 2002]) [] 2000)
    as (_ & _ & _ & _ & Hgone).
  split; [intros r Hr; apply Hall; simpl in *; tauto|].
  split; [apply Habsent; vm_compute; reflexivity|].
  split; [vm_compute; reflexivity|].
  apply Hgone.
  - intros r Hr. apply Hall. simpl in *. tauto.
  - cbn. apply NoDup_cons. split; [|apply NoDup_singleton].
    intros H. apply list_elem_of_singleton in H. discriminate H.
Defined.

(** ** Movement, again *)

Lemma getitem_Some {A : Type} (l : list A) (i : Z) :
  0 <= i < Z.of_nat (length l) -> exists x, getitem l i = Some x.
Proof.
  intros [H0 H1]. unfold getitem.
  destruct (Z.leb_spec 0 i); [|lia]. destruct (Z.ltb_spec i (Z.of_nat (length l)));
    [|lia]. cbn [andb].
  destruct (lookup_lt_is_Some_2 l (Z.to_nat i)) as [x Hx]; [lia|].
  exists x. exact Hx.
Qed.

Lemma wrapped_fields (self : Drone) :
  Drone_entity (wrapped self) = Drone_entity self
  /\ path (wrapped self) = path self
  /\ speed (wrapped self) = speed self
  /\ come_back_to_mission (wrapped self) = come_back_to_mission self
  /\ last_mission_coords (wrapped self) = last_mission_coords self
  /\ move_routing (wrapped self) = move_routing self
  /\ last_move_routing (wrapped self) = last_move_routing self
  /\ _Drone__buffer (wrapped self) = _Drone__buffer self
  /\ depot_coords (wrapped self) = depot_coords self.
Proof. unfold wrapped. destruct (_ >=? _); repeat split. Qed.

Lemma wrapped_waypoint (self : Drone) :
  path self <> [] ->
  -1 <= current_waypoint self < Z.of_nat (length (path self)) ->
  -1 <= current_waypoint (wrapped self) < Z.of_nat (length (path self)) - 1
  /\ (current_waypoint (wrapped self)
      = if current_waypoint self >=? Z.of_nat (length (path self)) - 1
        then -1 else current_waypoint self).
Proof.
  intros Hp Hb. unfold wrapped.
  assert (0 < Z.of_nat (length (path self)))
    by (destruct (path self); [congruence | cbn [length]; lia]).
  destruct (Z.geb_spec (current_waypoint self)
              (Z.of_nat (length (path self)) - 1)); cbn; split; lia || reflexivity.
Qed.

(** The point [__move_to_mission] heads for is the one [next_target]
    names. *)
Lemma next_target_heading (self : Drone) (p1 : coordinates) :
  move_routing self = false ->
  Drone_next_target self = Return (Some p1) ->
  heading self = Return p1.
Proof.
  intros Hm Ht. unfold heading. unfold Drone_next_target in Ht.
  rewrite Hm in Ht.
  destruct (wrapped_fields self) as (_ & Hpath & _ & Hcb & Hlmc & _).
  rewrite Hcb, Hlmc. unfold index_path in *. rewrite Hpath.
  destruct (come_back_to_mission self).
  - destruct (last_mission_coords self); congruence.
  - unfold wrapped.
    destruct (current_waypoint self >=? Z.of_nat (length (path self)) - 1);
      cbn [current_waypoint set_current_waypoint];
      [change (-1 + 1) with 0|];
      destruct (getitem (path self) _); cbn in Ht; congruence.
Qed.

Lemma update_position_arrived (self : Drone) (p1 : coordinates) :
  heading self = Return p1 ->
  _Drone__update_position (wrapped self) p1 = Return (arrived self p1).
Proof.
  unfold heading, _Drone__update_position, arrived.
  rewrite (proj1 (proj2 (proj2 (proj2 (wrapped_fields self))))).
  destruct (come_back_to_mission self); [reflexivity|].
  cbn [current_waypoint set_current_waypoint].
  unfold index_path. cbn [path set_current_waypoint].
  destruct (getitem (path (wrapped self))
              (current_waypoint (wrapped self) + 1)); [|discriminate].
  intros [= ->]. reflexivity.
Qed.

(** One tick along the mission, in terms of the point it heads for. *)
Lemma move_to_mission_heading (dist : coordinates -> coordinates -> Q)
    (self : Drone) (time : Q) :
  _Drone__move_to_mission dist self time
  = p1 ← heading self;
    let t := fraction time (speed self) (dist (coords self) p1) in
    if Qeq_bool (dist (coords self) p1) 0
       || Float.eqb (Float.mul time (speed self)) 0
       || Float.leb 1 t
    then _Drone__update_position (wrapped self) p1
    else if Float.leb t 0 then Exit 1
    else c ← interpolate t (coords self) p1;
         Return (set_coords (wrapped self) c).
Proof.
  unfold _Drone__move_to_mission. fold (wrapped self). fold (heading self).
  destruct (wrapped_fields self) as (Hent & _ & Hspeed & _).
  assert (Hcoords : coords (wrapped self) = coords self)
    by (rewrite Hent; reflexivity).
  rewrite Hcoords, Hspeed.
  destruct (heading self) as [p1| | |]; cbn [mbind result_bind];
    try reflexivity.
  unfold fraction.
  destruct (Qeq_bool (dist (coords self) p1) 0
            || Float.eqb (Float.mul time (speed self)) 0);
    cbn [orb]; [reflexivity|].
  destruct (Float.leb 1 _); reflexivity.
Qed.

Lemma move_to_mission_step (dist : coordinates -> coordinates -> Q)
    (self : Drone) (time : Q) (p1 : coordinates) :
  move_routing self = false ->
  Drone_next_target self = Return (Some p1) ->
  let t := fraction time (speed self) (dist (coords self) p1) in
  _Drone__move_to_mission dist self time
  = if Qeq_bool (dist (coords self) p1) 0
       || Float.eqb (Float.mul time (speed self)) 0
       || Float.leb 1 t
    then Return (arrived self p1)
    else if Float.leb t 0 then Exit 1
    else c ← interpolate t (coords self) p1;
         Return (set_coords (wrapped self) c).
Proof.
  intros Hm Ht t. pose proof (next_target_heading self p1 Hm Ht) as Hhead.
  rewrite move_to_mission_heading, Hhead. cbn [mbind result_bind]. fold t.
  rewrite (update_position_arrived self p1 Hhead). reflexivity.
Qed.

(** What a "move" that returns has written. *)
Lemma decrease_energy_move (d d' : Drone) :
  Drone_decrease_energy d "move" = Return d' ->
  Float.sub (residual_energy d) (Float.mul (speed d) 100)
  = Float.finite (residual_energy d')
  /\ Float.add (accumulated_moving_energy d) (Float.mul (speed d) 100)
     = Float.finite (accumulated_moving_energy d')
  /\ d' = set_energy d (residual_energy d') (accumulated_moving_energy d')
            (accumulated_hello_energy d) (accumulated_send_energy d).
Proof.
  intros H.
  destruct (decrease_energy_Return d d' "move" H)
    as [(E & _) | [(_ & Hr & Hm & Hd) | [(E & _) | (Hn & _)]]];
    [discriminate E | auto | discriminate E |].
  exfalso. apply Hn. simpl. tauto.
Qed.

Lemma next_target_exists (self : Drone) :
  well_formed self -> move_routing self = false ->
  exists p1, Drone_next_target self = Return (Some p1) /\ heads_for self p1.
Proof.
  intros (Hp & Hb & Hl) Hm. unfold Drone_next_target, heads_for. rewrite Hm.
  destruct (come_back_to_mission self) eqn:Hc.
  - destruct (last_mission_coords self) as [c|] eqn:Hlmc.
    + exists c. auto.
    + exfalso. apply Hl; [right; reflexivity | reflexivity].
  - assert (Hlen : 0 < Z.of_nat (length (path self)))
      by (destruct (path self); [congruence | cbn [length]; lia]).
    unfold index_path.
    destruct (Z.geb_spec (current_waypoint self)
                (Z.of_nat (length (path self)) - 1)).
    + destruct (getitem_Some (path self) 0) as [x Hx]; [lia|]. rewrite Hx.
      exists x. split; [reflexivity|]. right. left. eapply getitem_In, Hx.
    + destruct (getitem_Some (path self) (current_waypoint self + 1))
        as [x Hx]; [lia|]. rewrite Hx.
      exists x. split; [reflexivity|]. right. left. eapply getitem_In, Hx.
Qed.

Lemma round_not_nan (q : Q) : Float.round q <> Float.nan.
Proof.
  destruct (round_cases q) as [[_ ->] | [[_ ->] | [_ ->]]]; discriminate.
Qed.

Lemma fraction_not_nan (time speed distance : Q) :
  fraction time speed distance <> Float.nan.
Proof.
  unfold fraction. cbn [Float.mul].
  destruct (round_cases (time * speed)) as [[_ ->] | [[_ ->] | [_ ->]]];
    cbn [Float.div]; try discriminate. apply round_not_nan.
Qed.

(** A fraction that neither reaches the point nor is null is a number
    strictly between 0 and 1. *)
Lemma fraction_between (t : Float.float) :
  t <> Float.nan -> Float.leb 1 t = false -> Float.leb t 0 = false ->
  exists q, t = Float.finite q /\ (0 < q < 1)%Q.
Proof.
  intros Hnan H1 H0. destruct t as [q|[]|]; simpl in H1, H0;
    try discriminate; [|contradiction].
  exists q. split; [reflexivity|].
  split; apply Qnot_le_lt; intros H; apply Qle_bool_iff in H; congruence.
Qed.

Lemma Qabs_bounds (x b : Q) : (Qabs x <= b <-> - b <= x <= b)%Q.
Proof. apply Qabs_Qle_condition. Qed.

(** Rounding keeps within a power of two what is within it. *)
Lemma round_moderate (q : Q) (k : Z) :
  -1074 <= k < 1024 -> (Qabs q <= Float.pow2 k)%Q ->
  exists r, Float.round q = Float.finite r /\ (Qabs r <= Float.pow2 k)%Q.
Proof.
  intros Hk Hq. apply Qabs_bounds in Hq.
  assert (Hh : (Float.pow2 k < Float.huge)%Q) by (apply pow2_lt; lia).
  destruct (round_bounded q (- Float.pow2 k) (Float.pow2 k)) as [Hr Hb];
    [apply exact_opp, exact_pow2; lia | apply exact_pow2; lia | lra
    | exact Hh | exact Hq |].
  exists (Float.nearest q). split; [exact Hr | apply Qabs_bounds, Hb].
Qed.

Lemma pow2_double (k : Z) :
  (Float.pow2 k + Float.pow2 k == Float.pow2 (k + 1))%Q.
Proof. rewrite pow2_add. change (Float.pow2 1) with 2%Q. ring. Qed.

(** One coordinate of the interpolation is finite. *)
Lemma blend_finite (q x0 x1 : Q) :
  (0 < q < 1)%Q -> moderate x0 -> moderate x1 ->
  exists r,
    Float.add (Float.mul (Float.sub 1 q) x0) (Float.mul q x1)
    = Float.finite r.
Proof.
  unfold moderate. intros Hq H0 H1. cbn [Float.sub].
  destruct (round_bounded (1 - q) 0 1) as [-> Hr1];
    [reflexivity | vm_compute; reflexivity | reflexivity
    | vm_compute; reflexivity | lra |].
  set (r1 := Float.nearest (1 - q)) in *. cbn [Float.mul].
  pose proof (pow2_pos 1000) as Hp.
  apply Qabs_bounds in H0. apply Qabs_bounds in H1.
  destruct (round_moderate (r1 * x0) 1000) as (r2 & -> & Hr2);
    [lia | apply Qabs_bounds; nra |].
  destruct (round_moderate (q * x1) 1000) as (r3 & -> & Hr3);
    [lia | apply Qabs_bounds; nra |].
  cbn [Float.add]. apply Qabs_bounds in Hr2. apply Qabs_bounds in Hr3.
  destruct (round_moderate (r2 + r3) 1001) as (r & -> & _);
    [lia | apply Qabs_bounds; pose proof (pow2_double 1000) as Hdbl;
           change (1000 + 1) with 1001 in Hdbl; lra |].
  exists r. reflexivity.
Qed.

Lemma interpolate_returns (q : Q) (p0 p1 : coordinates) :
  (0 < q < 1)%Q -> moderate_point p0 -> moderate_point p1 ->
  exists c, interpolate q p0 p1 = Return c.
Proof.
  intros Hq [Hx0 Hy0] [Hx1 Hy1]. unfold interpolate.
  destruct (blend_finite q (fst p0) (fst p1) Hq Hx0 Hx1) as [x ->].
  destruct (blend_finite q (snd p0) (snd p1) Hq Hy0 Hy1) as [y ->].
  exists (x, y). reflexivity.
Qed.

(** The "move" of a drone whose energies are moderate returns. *)
Lemma decrease_energy_move_returns (d : Drone) :
  moderate (residual_energy d) -> moderate (accumulated_moving_energy d) ->
  moderate (speed d * 100) ->
  exists r m,
    Drone_decrease_energy d "move"
    = Return (set_energy d r m (accumulated_hello_energy d)
                (accumulated_send_energy d)).
Proof.
  unfold moderate. intros Hr Hm Hc. unfold Drone_decrease_energy.
  cbn [String.eqb Ascii.eqb Bool.eqb]. cbn [Float.mul].
  destruct (round_moderate _ 1000 ltac:(lia) Hc) as (c & -> & Hc').
  cbn [Float.sub Float.add].
  apply Qabs_bounds in Hr. apply Qabs_bounds in Hm. apply Qabs_bounds in Hc'.
  destruct (round_moderate (residual_energy d - c) 1001) as (r & -> & _);
    [lia | apply Qabs_bounds; pose proof (pow2_double 1000) as Hdbl;
           change (1000 + 1) with 1001 in Hdbl; lra |].
  destruct (round_moderate (accumulated_moving_energy d + c) 1001)
    as (m & -> & _);
    [lia | apply Qabs_bounds; pose proof (pow2_double 1000) as Hdbl;
           change (1000 + 1) with 1001 in Hdbl; lra |].
  exists r, m. reflexivity.
Qed.

Lemma wrapped_well_formed (self : Drone) :
  well_formed self ->
  well_formed (wrapped self)
  /\ current_waypoint (wrapped self) < Z.of_nat (length (path self)) - 1.
Proof.
  intros (Hp & Hb & Hl).
  destruct (wrapped_fields self) as (_ & Hpath & _ & Hcb & Hlmc & _ & Hlmr & _).
  destruct (wrapped_waypoint self Hp Hb) as [Hw _].
  split; [|lia]. unfold well_formed. rewrite Hpath, Hcb, Hlmc, Hlmr.
  split; [exact Hp|]. split; [lia | exact Hl].
Qed.

Lemma arrived_well_formed (self : Drone) (p1 : coordinates) :
  well_formed self -> well_formed (arrived self p1).
Proof.
  intros Hwf. destruct (wrapped_well_formed self Hwf) as [(Hp & Hb & Hl) Hlt].
  destruct (wrapped_fields self) as (_ & Hpath & _ & Hcb & _).
  rewrite Hpath in Hb. unfold arrived, well_formed.
  destruct (come_back_to_mission self) eqn:Hc; cbn.
  - split; [exact Hp|]. split; [rewrite Hpath; lia|].
    intros [H | H]; [|discriminate]. apply Hl. left. exact H.
  - split; [exact Hp|]. split; [rewrite Hpath; lia | exact Hl].
Qed.

Lemma arrived_fields (self : Drone) (p1 : coordinates) :
  move_routing (arrived self p1) = move_routing self
  /\ coords (arrived self p1) = p1
  /\ identifier (arrived self p1) = identifier self
  /\ path (arrived self p1) = path self
  /\ speed (arrived self p1) = speed self
  /\ _Drone__buffer (arrived self p1) = _Drone__buffer self
  /\ last_mission_coords (arrived self p1) = last_mission_coords self
  /\ last_move_routing (arrived self p1) = last_move_routing self
  /\ come_back_to_mission (arrived self p1) = false
  /\ current_waypoint (arrived self p1)
     = (if come_back_to_mission self then current_waypoint (wrapped self)
        else current_waypoint (wrapped self) + 1).
Proof.
  unfold arrived, wrapped.
  destruct (come_back_to_mission self) eqn:Hc; destruct (_ >=? _);
    cbn; rewrite ?Hc; repeat split.
Qed.

(** The end of a tick: the flag is recorded and the energy is spent. *)
Lemma tick_ends (w : World) (self d1 : Drone) :
  same_energy self d1 ->
  moderate (residual_energy self) ->
  moderate (accumulated_moving_energy self) ->
  moderate (speed self * 100) ->
  path d1 <> [] ->
  -1 <= current_waypoint d1 < Z.of_nat (length (path d1)) ->
  (move_routing d1 = true \/ come_back_to_mission d1 = true ->
   last_mission_coords d1 <> None) ->
  exists w' d',
    (self' ← Drone_decrease_energy
               (set_last_move_routing d1 (move_routing d1)) "move";
     Return (w, self')) = Return (w', d')
    /\ well_formed d'.
Proof.
  intros (Er & Em & Es) Hr Hm Hc Hp Hb Hl.
  destruct (decrease_energy_move_returns
              (set_last_move_routing d1 (move_routing d1)))
    as (r & m & ->);
    [cbn; rewrite Er; exact Hr | cbn; rewrite Em; exact Hm
    | cbn; rewrite Es; exact Hc |].
  cbn [mbind result_bind]. eexists _, _. split; [reflexivity|].
  unfold well_formed. cbn. split; [exact Hp|]. split; [exact Hb | exact Hl].
Qed.

(** X16. The movement can be relied on.  For a drone whose path is not
    empty, whose waypoint is an index of the path or -1, and which has the
    coordinates to come back to whenever it was diverted or is coming back,
    [move] returns when the tick neither underflows nor overflows: the
    displacement is at least 2^-537, the distances to the points the drone
    may head for are at most 2^537, and the coordinates and the energies at
    most 2^1000.  Then no index is out of range, nothing is missing, the run
    is not left and every float stored is finite.  The drone it returns is
    well formed again. *)
Theorem move_returns (dist : coordinates -> coordinates -> Q) (w : World)
    (self : Drone) (time : Q) :
  well_formed self -> moderate_tick dist self time ->
  exists w' d',
    Drone_move dist w self time = Return (w', d') /\ well_formed d'.
Proof.
  intros Hwf (Hts & Hreach & Hc0 & Hmod & Hres & Hmov & Hcost).
  unfold Drone_move. destruct (move_routing self) eqn:Hm.
  - set (self1 := if negb (last_move_routing self)
                  then set_last_mission_coords self (Some (coords self))
                  else self).
    assert (Hwf1 : well_formed self1 /\ last_mission_coords self1 <> None
                   /\ speed self1 = speed self
                   /\ coords self1 = coords self
                   /\ depot_coords self1 = depot_coords self
                   /\ same_energy self self1).
    { subst self1. pose proof Hwf as (Hp & Hb & Hl).
      destruct (last_move_routing self) eqn:Hlmr; cbn [negb].
      - split; [exact Hwf|].
        split; [apply Hl; left; reflexivity | repeat split].
      - split; [|split; [discriminate | repeat split]].
        split; [exact Hp|]. split; [exact Hb|]. discriminate. }
    destruct Hwf1 as ((Hp & Hb & _) & Hlmc & Hs1 & Hc1 & Hd1 & He1).
    unfold _Drone__move_to_depot. rewrite Hs1, Hc1, Hd1.
    destruct (Hreach (depot_coords self)) as [Hge Hle]; [left; reflexivity|].
    destruct (Qeq_bool (dist (coords self) (depot_coords self)) 0) eqn:Hd0.
    + cbn [mbind result_bind].
      apply (tick_ends _ self); try assumption. intros _. exact Hlmc.
    + apply Qeq_bool_neq in Hd0.
      assert (Hd : (0 < dist (coords self) (depot_coords self)
                    <= greatest_distance)%Q) by (split; lra).
      pose proof (fraction_positive time (speed self) _ Hts Hd) as Hpos.
      unfold fraction in Hpos.
      destruct (Float.leb 1 _) eqn:H1.
      * cbn [mbind result_bind].
        apply (tick_ends _ self); try assumption. intros _. exact Hlmc.
      * rewrite (Float_lt_not_le _ _ Hpos).
        destruct (fraction_between _ (fraction_not_nan time (speed self) _) H1
                    (Float_lt_not_le _ _ Hpos)) as (q & Eq & Hq).
        unfold fraction in Eq. rewrite Eq.
        destruct (interpolate_returns q (coords self) (depot_coords self) Hq
                    Hc0) as [c ->]; [apply Hmod; left; reflexivity|].
        cbn [mbind result_bind].
        apply (tick_ends _ self); try assumption. intros _. exact Hlmc.
  - cbn [orb].
    set (self1 := if last_move_routing self
                  then set_come_back_to_mission self true else self).
    assert (Hwf1 : well_formed self1 /\ move_routing self1 = false
                   /\ speed self1 = speed self
                   /\ coords self1 = coords self
                   /\ (forall p, heads_for self1 p -> heads_for self p)
                   /\ same_energy self self1).
    { subst self1. pose proof Hwf as (Hp & Hb & Hl).
      destruct (last_move_routing self) eqn:Hlmr.
      - split; [|repeat split; solve [exact Hm | auto]].
        split; [exact Hp|]. split; [exact Hb|]. intros _. apply Hl.
        left. reflexivity.
      - split; [exact Hwf | repeat split; solve [exact Hm | auto]]. }
    destruct Hwf1 as (Hwf1 & Hm1 & Hs1 & Hc1 & Hh1 & He1).
    destruct (next_target_exists self1 Hwf1 Hm1) as (p1 & Hp1 & Hhead).
    apply Hh1 in Hhead.
    rewrite (move_to_mission_step dist self1 time p1 Hm1 Hp1).
    rewrite Hs1, Hc1.
    destruct (wrapped_fields self1)
      as (Hent & Hpath & Hspeed & Hcb & Hlmc & Hmr & Hlmr & _).
    destruct (Qeq_bool (dist (coords self) p1) 0
              || Float.eqb (Float.mul time (speed self)) 0
              || Float.leb 1 _) eqn:Harr.
    + cbn [mbind result_bind].
      pose proof (arrived_well_formed self1 p1 Hwf1) as (Hp & Hb & Hl).
      destruct (arrived_fields self1 p1) as (Ham & _ & _ & _ & Has & _).
      apply (tick_ends _ self); try assumption.
      * destruct He1 as (Er & Em & Es). unfold same_energy.
        unfold arrived, wrapped.
        destruct (come_back_to_mission self1); destruct (_ >=? _);
          cbn; auto.
      * intros [H | H]; [rewrite Ham, Hm1 in H; discriminate H|].
        apply Hl. right. exact H.
    + apply orb_false_iff in Harr. destruct Harr as [Harr H1].
      apply orb_false_iff in Harr. destruct Harr as [Hd0 Ht0].
      apply Qeq_bool_neq in Hd0.
      destruct (Hreach p1 Hhead) as [Hge Hle].
      assert (Hd : (0 < dist (coords self) p1 <= greatest_distance)%Q)
        by (split; lra).
      pose proof (fraction_positive time (speed self) _ Hts Hd) as Hpos.
      rewrite (Float_lt_not_le _ _ Hpos).
      destruct (fraction_between _ (fraction_not_nan time (speed self) _) H1
                  (Float_lt_not_le _ _ Hpos)) as (q & Eq & Hq).
      rewrite Eq.
      destruct (interpolate_returns q (coords self) p1 Hq Hc0 (Hmod p1 Hhead))
        as [c ->].
      cbn [mbind result_bind].
      destruct (wrapped_well_formed self1 Hwf1) as [(Hp & Hb & Hl) _].
      apply (tick_ends _ self); try assumption.
      * destruct He1 as (Er & Em & Es). unfold same_energy, wrapped.
        destruct (_ >=? _); cbn; auto.
      * cbn. rewrite Hmr, Hm1. intros [H | H]; [discriminate H|].
        apply Hl. right. exact H.
Qed.

(** The magnitudes of the samples are moderate. *)
Ltac moderate_sample :=
  repeat match goal with
    | |- _ /\ _ => split
    | |- within_reach _ _ =>
      intros ? [-> | [Hin | Hin]];
      [| repeat (destruct Hin as [<- | Hin]); [..| destruct Hin]
       | first [discriminate Hin | injection Hin as <-]]
    | |- forall p, heads_for _ p -> _ =>
      intros ? [-> | [Hin | Hin]];
      [| repeat (destruct Hin as [<- | Hin]); [..| destruct Hin]
       | first [discriminate Hin | injection Hin as <-]]
    | |- moderate_point _ => split
    | |- moderate _ => vm_compute; discriminate
    | |- (_ <= _)%Q => vm_compute; discriminate
    end.

Lemma move_returns_witness :
  well_formed patrol_drone
  /\ exists w' d',
       Drone_move taxicab_distance empty_world patrol_drone 1 = Return (w', d')
       /\ well_formed d'.
Proof.
  assert (Hwf : well_formed patrol_drone).
  { unfold well_formed. cbn. split; [discriminate|]. split; [lia|].
    intros [H | H]; discriminate H. }
  split; [exact Hwf|].
  apply (move_returns taxicab_distance empty_world patrol_drone 1 Hwf).
  unfold moderate_tick. moderate_sample.
Defined.

(** The drones a tick toward the depot may return. *)
Lemma move_to_depot_Return (dist : coordinates -> coordinates -> Q)
    (self d' : Drone) (time : Q) :
  _Drone__move_to_depot dist self time = Return d' ->
  let d := dist (coords self) (depot_coords self) in
  let t := fraction time (speed self) d in
  ((d == 0)%Q /\ d' = set_move_routing self false)
  \/ (~ (d == 0)%Q /\ Float.le 1 t
      /\ d' = set_coords self (depot_coords self))
  \/ (~ (d == 0)%Q
      /\ exists q c,
           t = Float.finite q /\ (0 < q < 1)%Q
           /\ interpolate q (coords self) (depot_coords self) = Return c
           /\ d' = set_coords self c).
Proof.
  intros H d t. unfold _Drone__move_to_depot in H.
  fold d in H. fold (fraction time (speed self) d) in H. fold t in H.
  destruct (Qeq_bool d 0) eqn:Hd0.
  { injection H as <-. left. apply Qeq_bool_iff in Hd0. auto. }
  apply Qeq_bool_neq in Hd0. right.
  destruct (Float.leb 1 t) eqn:H1.
  { injection H as <-. left. auto. }
  destruct (Float.leb t 0) eqn:H0; [discriminate|]. right.
  destruct (fraction_between t (fraction_not_nan _ _ _) H1 H0)
    as (q & Eq & Hq).
  rewrite Eq in H.
  destruct (interpolate q (coords self) (depot_coords self)) as [c| | |] eqn:Hi;
    cbn [mbind result_bind] in H; try discriminate.
  injection H as <-. split; [exact Hd0|]. exists q, c. auto.
Qed.

(** The drones a tick along the mission may return. *)
Lemma move_to_mission_Return (dist : coordinates -> coordinates -> Q)
    (self d' : Drone) (time : Q) :
  _Drone__move_to_mission dist self time = Return d' ->
  exists p1,
    heading self = Return p1
    /\ let d := dist (coords self) p1 in
       let t := fraction time (speed self) d in
       (((d == 0)%Q \/ Float.eqb (Float.mul time (speed self)) 0 = true
         \/ Float.le 1 t)
        /\ d' = arrived self p1)
       \/ (~ (d == 0)%Q
           /\ exists q c,
                t = Float.finite q /\ (0 < q < 1)%Q
                /\ interpolate q (coords self) p1 = Return c
                /\ d' = set_coords (wrapped self) c).
Proof.
  intros H. rewrite move_to_mission_heading in H.
  destruct (heading self) as [p1| | |] eqn:Hhead;
    cbn [mbind result_bind] in H; try discriminate.
  exists p1. split; [reflexivity|]. intros d t. cbv zeta in H.
  fold d in H. fold t in H.
  rewrite (update_position_arrived self p1 Hhead) in H.
  destruct (Qeq_bool d 0) eqn:Hd0.
  { injection H as <-. left. apply Qeq_bool_iff in Hd0. auto. }
  cbn [orb] in H.
  destruct (Float.eqb (Float.mul time (speed self)) 0) eqn:Ht0.
  { injection H as <-. left. auto. }
  cbn [orb] in H.
  destruct (Float.leb 1 t) eqn:H1.
  { injection H as <-. left. auto. }
  destruct (Float.leb t 0) eqn:H0; [discriminate|]. right.
  apply Qeq_bool_neq in Hd0.
  destruct (fraction_between t (fraction_not_nan _ _ _) H1 H0)
    as (q & Eq & Hq).
  rewrite Eq in H.
  destruct (interpolate q (coords self) p1) as [c| | |] eqn:Hi;
    cbn [mbind result_bind] in H; try discriminate.
  injection H as <-. split; [exact Hd0|]. exists q, c. auto.
Qed.

Lemma move_to_depot_cargo (dist : coordinates -> coordinates -> Q)
    (self d' : Drone) (time : Q) :
  _Drone__move_to_depot dist self time = Return d' ->
  same_cargo self d'
  /\ current_waypoint d' = current_waypoint self
  /\ come_back_to_mission d' = come_back_to_mission self
  /\ last_mission_coords d' = last_mission_coords self
  /\ last_move_routing d' = last_move_routing self
  /\ residual_energy d' = residual_energy self
  /\ accumulated_moving_energy d' = accumulated_moving_energy self
  /\ accumulated_send_energy d' = accumulated_send_energy self
  /\ accumulated_hello_energy d' = accumulated_hello_energy self.
Proof.
  intros H.
  destruct (move_to_depot_Return dist self d' time H)
    as [(_ & ->) | [(_ & _ & ->) | (_ & q & c & _ & _ & _ & ->)]];
    repeat split.
Qed.

Lemma move_to_mission_cargo (dist : coordinates -> coordinates -> Q)
    (self d' : Drone) (time : Q) :
  _Drone__move_to_mission dist self time = Return d' ->
  same_cargo self d'
  /\ move_routing d' = move_routing self
  /\ last_mission_coords d' = last_mission_coords self
  /\ last_move_routing d' = last_move_routing self
  /\ residual_energy d' = residual_energy self
  /\ accumulated_moving_energy d' = accumulated_moving_energy self
  /\ accumulated_send_energy d' = accumulated_send_energy self
  /\ accumulated_hello_energy d' = accumulated_hello_energy self.
Proof.
  intros H.
  destruct (move_to_mission_Return dist self d' time H)
    as (p1 & _ & [(_ & ->) | (_ & q & c & _ & _ & _ & ->)]);
    unfold arrived, wrapped, same_cargo;
    destruct (come_back_to_mission self); destruct (_ >=? _);
    cbn; repeat split.
Qed.

(** X17. A tick of [move] that returns costs the drone the float of
    [speed * 100]: the energy left is the float of the difference, the moving
    counter the float of the sum, and the ledger stays balanced when none of
    the three is rounded.  The tick leaves the identity, path, speed, depot
    and buffer of the drone alone, writes no packet and sends no feedback.
    It counts one tick on mission unless the drone is diverted, and one tick
    of active routing when the drone entered the tick diverted or coming
    back. *)
Theorem move_costs (dist : coordinates -> coordinates -> Q) (w w' : World)
    (self d' : Drone) (time : Q) :
  Drone_move dist w self time = Return (w', d') ->
  same_cargo self d'
  /\ Float.sub (residual_energy self) (Float.mul (speed self) 100)
     = Float.finite (residual_energy d')
  /\ Float.add (accumulated_moving_energy self) (Float.mul (speed self) 100)
     = Float.finite (accumulated_moving_energy d')
  /\ accumulated_send_energy d' = accumulated_send_energy self
  /\ accumulated_hello_energy d' = accumulated_hello_energy self
  /\ (ledger_balanced self -> spends_exactly self "move" ->
      ledger_balanced d')
  /\ packets w' = packets w /\ feedbacks w' = feedbacks w
  /\ time_on_mission (metrics w')
     = time_on_mission (metrics w) + (if move_routing self then 0 else 1)
  /\ time_on_active_routing (metrics w')
     = time_on_active_routing (metrics w)
       + (if move_routing self || come_back_to_mission self then 1 else 0)
  /\ all_data_packets_in_simulation (metrics w')
     = all_data_packets_in_simulation (metrics w)
  /\ drones_packets_to_depot_list (metrics w')
     = drones_packets_to_depot_list (metrics w).
Proof.
  unfold Drone_move. intros Hmove.
  assert (Hmoved :
            exists d1,
              Drone_decrease_energy
                (set_last_move_routing d1 (move_routing d1)) "move"
              = Return d'
              /\ same_cargo self d1
              /\ residual_energy d1 = residual_energy self
              /\ accumulated_moving_energy d1
                 = accumulated_moving_energy self
              /\ accumulated_send_energy d1 = accumulated_send_energy self
              /\ accumulated_hello_energy d1 = accumulated_hello_energy self
              /\ packets w' = packets w /\ feedbacks w' = feedbacks w
              /\ time_on_mission (metrics w')
                 = time_on_mission (metrics w)
                   + (if move_routing self then 0 else 1)
              /\ time_on_active_routing (metrics w')
                 = time_on_active_routing (metrics w)
                   + (if move_routing self || come_back_to_mission self
                      then 1 else 0)
              /\ all_data_packets_in_simulation (metrics w')
                 = all_data_packets_in_simulation (metrics w)
              /\ drones_packets_to_depot_list (metrics w')
                 = drones_packets_to_depot_list (metrics w)).
  { destruct (move_routing self) eqn:Hm; cbn [orb] in Hmove.
    - destruct (_Drone__move_to_depot dist _ time) as [d1| | |] eqn:Hd1;
        cbn [mbind result_bind] in Hmove; try discriminate.
      destruct (Drone_decrease_energy _ "move") as [d2| | |] eqn:Hd2;
        cbn [mbind result_bind] in Hmove; try discriminate.
      injection Hmove as <- <-. exists d1. split; [exact Hd2|].
      apply move_to_depot_cargo in Hd1.
      destruct Hd1 as ((H1 & H2 & H3 & H4 & H5 & H6 & H7 & H8 & H9)
                       & _ & _ & _ & _ & H10 & H11 & H12 & H13).
      unfold same_cargo.
      rewrite H1, H2, H3, H4, H5, H6, H7, H8, H9, H10, H11, H12, H13.
      destruct (last_move_routing self); cbn; repeat split; lia.
    - destruct (_Drone__move_to_mission dist _ time) as [d1| | |] eqn:Hd1;
        cbn [mbind result_bind] in Hmove; try discriminate.
      destruct (Drone_decrease_energy _ "move") as [d2| | |] eqn:Hd2;
        cbn [mbind result_bind] in Hmove; try discriminate.
      injection Hmove as <- <-. exists d1. split; [exact Hd2|].
      apply move_to_mission_cargo in Hd1.
      destruct Hd1 as ((H1 & H2 & H3 & H4 & H5 & H6 & H7 & H8 & H9)
                       & _ & _ & _ & H10 & H11 & H12 & H13).
      unfold same_cargo.
      rewrite H1, H2, H3, H4, H5, H6, H7, H8, H9, H10, H11, H12, H13.
      destruct (last_move_routing self), (come_back_to_mission self); cbn;
        repeat split; lia. }
  destruct Hmoved as (d1 & Hspend & Hc & Hr & Hmv & Hs & Hh & Hrest).
  pose proof (decrease_energy_move _ _ Hspend) as (Er & Em & Ed).
  cbn [residual_energy accumulated_moving_energy speed accumulated_hello_energy
       accumulated_send_energy set_last_move_routing] in Er, Em, Ed.
  destruct Hc as (H1 & H2 & H3 & H4 & H5 & H6 & H7 & H8 & H9).
  rewrite Hr, H3 in Er. rewrite Hmv, H3 in Em.
  split.
  { rewrite Ed. unfold same_cargo. cbn. repeat split; assumption. }
  split; [exact Er|]. split; [exact Em|].
  split; [rewrite Ed; cbn; exact Hs|]. split; [rewrite Ed; cbn; exact Hh|].
  split; [|exact Hrest].
  intros Hbal (Hcost & Hres & Hmov). unfold ledger_balanced in *.
  cbn [Float.mul] in Er, Em. rewrite Hcost in Er, Em.
  cbn [Float.sub Float.add] in Er, Em.
  rewrite (is_float_round _ _ Hres) in Er
    by (rewrite Qred_correct; reflexivity).
  rewrite (is_float_round _ _ Hmov) in Em
    by (rewrite Qred_correct; reflexivity).
  injection Er as Er. injection Em as Em.
  assert (Hs' : accumulated_send_energy d' = accumulated_send_energy self)
    by (rewrite Ed; cbn; exact Hs).
  assert (Hh' : accumulated_hello_energy d' = accumulated_hello_energy self)
    by (rewrite Ed; cbn; exact Hh).
  assert (Hi' : initial_energy d' = initial_energy self)
    by (rewrite Ed; cbn; exact H9).
  rewrite Hs', Hh', Hi', <- Er, <- Em, !Qred_correct. lra.
Qed.

Lemma move_costs_witness :
  exists w' d',
    Drone_move taxicab_distance empty_world patrol_drone 1 = Return (w', d')
    /\ residual_energy d' = 500%Q
    /\ ledger_balanced d'
    /\ time_on_mission (metrics w') = 1
    /\ time_on_active_routing (metrics w') = 0.
Proof.
  destruct (Drone_move taxicab_distance empty_world patrol_drone 1)
    as [[w' d']| | |] eqn:Hmove; try (vm_compute in Hmove; discriminate Hmove).
  destruct (move_costs taxicab_distance empty_world w' patrol_drone d' 1
              Hmove) as (_ & Hr & _ & _ & _ & Hbal & _ & _ & Hm & Ha & _).
  exists w', d'. split; [reflexivity|].
  split.
  { remember (residual_energy d') as r eqn:Er. vm_compute in Hr.
    injection Hr as <-. reflexivity. }
  split; [apply Hbal; vm_compute; repeat split; reflexivity|].
  split; [rewrite Hm | rewrite Ha]; reflexivity.
Defined.

Lemma move_to_mission_come_back (dist : coordinates -> coordinates -> Q)
    (self d' : Drone) (time : Q) :
  _Drone__move_to_mission dist self time = Return d' ->
  come_back_to_mission d' = true -> come_back_to_mission self = true.
Proof.
  intros H Hcb.
  destruct (move_to_mission_Return dist self d' time H)
    as (p1 & _ & [(_ & ->) | (_ & q & c & _ & _ & _ & ->)]).
  - rewrite (proj1 (proj2 (proj2 (proj2 (proj2 (proj2 (proj2 (proj2
               (proj2 (arrived_fields self p1)))))))))) in Hcb.
    discriminate.
  - cbn in Hcb.
    rewrite (proj1 (proj2 (proj2 (proj2 (wrapped_fields self))))) in Hcb.
    exact Hcb.
Qed.

Lemma move_flags (dist : coordinates -> coordinates -> Q)
    (w w' : World) (self d' : Drone) (time : Q) :
  Drone_move dist w self time = Return (w', d') ->
  last_move_routing d' = move_routing d'
  /\ (move_routing self = true ->
      last_mission_coords d'
      = (if last_move_routing self then last_mission_coords self
         else Some (coords self))
      /\ come_back_to_mission d' = come_back_to_mission self
      /\ current_waypoint d' = current_waypoint self
      /\ ((dist (coords self) (depot_coords self) == 0)%Q ->
          move_routing d' = false /\ coords d' = coords self)
      /\ (~ (dist (coords self) (depot_coords self) == 0)%Q ->
          move_routing d' = true))
  /\ (move_routing self = false ->
      move_routing d' = false
      /\ last_mission_coords d' = last_mission_coords self
      /\ (last_move_routing self = true ->
          forall c, last_mission_coords self = Some c ->
            come_back_to_mission d' = true
            \/ (coords d' = c /\ come_back_to_mission d' = false))
      /\ (last_move_routing self = false ->
          come_back_to_mission self = false ->
          come_back_to_mission d' = false)).
Proof.
  unfold Drone_move. intros Hmove.
  destruct (move_routing self) eqn:Hm; cbn [orb] in Hmove.
  - set (self1 := if negb (last_move_routing self)
                  then set_last_mission_coords self (Some (coords self))
                  else self) in Hmove.
    assert (Hs1 : coords self1 = coords self
                  /\ depot_coords self1 = depot_coords self
                  /\ move_routing self1 = true
                  /\ come_back_to_mission self1 = come_back_to_mission self
                  /\ current_waypoint self1 = current_waypoint self
                  /\ last_mission_coords self1
                     = (if last_move_routing self
                        then last_mission_coords self
                        else Some (coords self)))
      by (subst self1; destruct (last_move_routing self); repeat split;
          exact Hm).
    destruct Hs1 as (Hc1 & Hdep1 & Hm1 & Hcb1 & Hcw1 & Hlmc1).
    destruct (_Drone__move_to_depot dist self1 time) as [d1| | |] eqn:Hd1;
      cbn [mbind result_bind] in Hmove; try discriminate.
    destruct (Drone_decrease_energy _ "move") as [d2| | |] eqn:Hd2;
      cbn [mbind result_bind] in Hmove; try discriminate.
    injection Hmove as <- <-.
    pose proof (decrease_energy_move _ _ Hd2) as (_ & _ & ->).
    pose proof (move_to_depot_cargo dist self1 d1 time Hd1)
      as (_ & Hcw & Hcb & Hlmc & _).
    apply move_to_depot_Return in Hd1. cbv zeta in Hd1.
    rewrite Hc1, Hdep1 in Hd1.
    cbn. split; [reflexivity|]. split; [|discriminate].
    intros _. split; [congruence|]. split; [congruence|].
    split; [congruence|]. split.
    + intros H0. destruct Hd1 as [[_ ->] | [(Hne & _) | (Hne & _)]];
        [|contradiction|contradiction].
      cbn. split; [reflexivity | exact Hc1].
    + intros Hne.
      destruct Hd1 as [[H0 _] | [(_ & _ & ->)
                                 | (_ & q & c & _ & _ & _ & ->)]];
        [contradiction| |]; cbn; exact Hm1.
  - set (self1 := if last_move_routing self
                  then set_come_back_to_mission self true else self)
      in Hmove.
    destruct (_Drone__move_to_mission dist self1 time) as [d1| | |] eqn:Hd1;
      cbn [mbind result_bind] in Hmove; try discriminate.
    destruct (Drone_decrease_energy _ "move") as [d2| | |] eqn:Hd2;
      cbn [mbind result_bind] in Hmove; try discriminate.
    injection Hmove as <- <-.
    pose proof (decrease_energy_move _ _ Hd2) as (_ & _ & ->).
    pose proof (move_to_mission_cargo dist self1 d1 time Hd1)
      as (_ & Hmr & Hlmc & _).
    assert (Hs1 : move_routing self1 = false
                  /\ last_mission_coords self1 = last_mission_coords self)
      by (subst self1; destruct (last_move_routing self); split;
          try exact Hm; reflexivity).
    destruct Hs1 as (Hm1 & Hlmc1).
    cbn. split; [reflexivity|]. split; [discriminate|]. intros _.
    split; [congruence|]. split; [congruence|]. split.
    + intros Hlmr c Hc.
      assert (Hcb1 : come_back_to_mission self1 = true)
        by (subst self1; rewrite Hlmr; reflexivity).
      assert (Ht : Drone_next_target self1 = Return (Some c)).
      { unfold Drone_next_target. rewrite Hm1, Hcb1, Hlmc1, Hc.
        reflexivity. }
      pose proof (next_target_heading self1 c Hm1 Ht) as Hhead.
      destruct (move_to_mission_Return dist self1 d1 time Hd1)
        as (p1 & Hp1 & [(_ & ->) | (_ & q & c' & _ & _ & _ & ->)]).
      * rewrite Hhead in Hp1. injection Hp1 as <-.
        destruct (arrived_fields self1 c) as (_ & Hco & _ & _ & _ & _ & _
                                              & _ & Hcb & _).
        right. split; assumption.
      * left. cbn.
        rewrite (proj1 (proj2 (proj2 (proj2 (wrapped_fields self1))))).
        exact Hcb1.
    + intros Hlmr Hcb. destruct (come_back_to_mission d1) eqn:Hcbd;
        [|reflexivity].
      apply (move_to_mission_come_back dist self1 d1 time Hd1) in Hcbd.
      subst self1. rewrite Hlmr in Hcbd. congruence.
Qed.

(** X18. What a tick of [move] that returns does to the flags.  The drone
    remembers whether it ended the tick diverted.  A diverted drone records
    where it left its mission on the first tick of the diversion and keeps
    that record afterwards; it stays diverted until it stands on the depot,
    where the tick clears [move_routing] and does not move it.  A drone that
    is not diverted stays so; if it was diverted on the tick before, it
    either reaches the coordinates it recorded or is coming back to them, and
    if it was neither diverted before nor coming back it is not coming back
    after. *)
Theorem move_transitions (dist : coordinates -> coordinates -> Q)
    (w w' : World) (self d' : Drone) (time : Q) :
  Drone_move dist w self time = Return (w', d') ->
  last_move_routing d' = move_routing d'
  /\ (move_routing self = true ->
      last_mission_coords d'
      = (if last_move_routing self then last_mission_coords self
         else Some (coords self))
      /\ come_back_to_mission d' = come_back_to_mission self
      /\ current_waypoint d' = current_waypoint self
      /\ ((dist (coords self) (depot_coords self) == 0)%Q ->
          move_routing d' = false /\ coords d' = coords self)
      /\ (~ (dist (coords self) (depot_coords self) == 0)%Q ->
          move_routing d' = true))
  /\ (move_routing self = false ->
      move_routing d' = false
      /\ last_mission_coords d' = last_mission_coords self
      /\ (last_move_routing self = true ->
          forall c, last_mission_coords self = Some c ->
            come_back_to_mission d' = true
            \/ (coords d' = c /\ come_back_to_mission d' = false))
      /\ (last_move_routing self = false ->
          come_back_to_mission self = false ->
          come_back_to_mission d' = false)).
Proof.
  intros Hmove.
  destruct (move_flags dist w w' self d' time Hmove) as (Hlast & Hdiv & Hmis).
  split; [exact Hlast|]. split; [exact Hdiv | exact Hmis].
Qed.

Lemma move_transitions_witness :
  exists w' d',
    Drone_move taxicab_distance empty_world diverted_drone 1 = Return (w', d')
    /\ last_mission_coords d' = Some (10, 0)%Q
    /\ move_routing d' = true /\ last_move_routing d' = true
    /\ come_back_to_mission d' = false.
Proof.
  destruct (Drone_move taxicab_distance empty_world diverted_drone 1)
    as [[w' d']| | |] eqn:Hmove; try (vm_compute in Hmove; discriminate Hmove).
  destruct (move_transitions taxicab_distance empty_world w' diverted_drone
              d' 1 Hmove) as (Hlast & Hdiv & _).
  destruct (Hdiv eq_refl) as (Hlmc & Hcb & _ & _ & Hstay).
  assert (Hmr : move_routing d' = true)
    by (apply Hstay; vm_compute; discriminate).
  exists w', d'. split; [reflexivity|]. split; [exact Hlmc|].
  split; [exact Hmr|]. split; [rewrite Hlast; exact Hmr | exact Hcb].
Defined.

(** X19. How the diversion ends decides the way back.  When the buffer
    maintenance empties the buffer of a diverted drone that has already moved
    toward the depot, the drone is no longer diverted and its next tick turns
    it back: it is coming back to the coordinates it recorded, or already on
    them.  When the drone stands on the depot, the tick itself ends the
    diversion and the drone forgets it was diverted: the tick after, it is
    not coming back but heading for its next waypoint. *)
Theorem return_leg (dist : coordinates -> coordinates -> Q) (sim : Simulator)
    (w w1 w2 : World) (self d1 d2 : Drone) (cur_step : Z) (time : Q)
    (c : coordinates) :
  (move_routing self = true -> last_move_routing self = true ->
   last_mission_coords self = Some c ->
   _Drone__buffer (Drone_update_packets sim w self cur_step).2 = [] ->
   Drone_move dist (Drone_update_packets sim w self cur_step).1
     (Drone_update_packets sim w self cur_step).2 time = Return (w1, d1) ->
   move_routing (Drone_update_packets sim w self cur_step).2 = false
   /\ move_routing d1 = false
   /\ (come_back_to_mission d1 = true
       \/ (coords d1 = c /\ come_back_to_mission d1 = false)))
  /\ (move_routing self = true -> come_back_to_mission self = false ->
      (dist (coords self) (depot_coords self) == 0)%Q ->
      Drone_move dist w self time = Return (w1, d1) ->
      Drone_move dist w1 d1 time = Return (w2, d2) ->
      move_routing d1 = false /\ coords d1 = coords self
      /\ last_move_routing d1 = false
      /\ come_back_to_mission d2 = false /\ move_routing d2 = false).
Proof.
  split.
  - intros Hm Hlmr Hc Hempty Hmove.
    destruct (update_packets_maintained sim w self cur_step) as (Hupd & _).
    rewrite Hupd in Hempty, Hmove |- *.
    set (kept := List.filter (alive w cur_step) (_Drone__buffer self))
      in *.
    destruct (maintained_frame w self kept)
      as (_ & _ & Hl & Hlm & _ & _ & _ & Hmr).
    rewrite (proj1 (maintained_buffer w self kept)) in Hempty.
    assert (Hoff : move_routing (maintained w self kept) = false)
      by (rewrite Hmr, Hempty; reflexivity).
    destruct (move_flags dist _ w1 _ d1 time Hmove) as (_ & _ & Hmis).
    destruct (Hmis Hoff) as (Hmr1 & _ & Hback & _).
    split; [exact Hoff|]. split; [exact Hmr1|].
    apply Hback; [rewrite Hl; exact Hlmr | rewrite Hlm; exact Hc].
  - intros Hm Hcb H0 Hmove1 Hmove2.
    destruct (move_flags dist w w1 self d1 time Hmove1) as (Hlast & Hdiv & _).
    destruct (Hdiv Hm) as (_ & Hcb1 & _ & Hat & _).
    destruct (Hat H0) as (Hmr1 & Hco).
    destruct (move_flags dist w1 w2 d1 d2 time Hmove2) as (_ & _ & Hmis).
    destruct (Hmis Hmr1) as (Hmr2 & _ & _ & Hstay).
    split; [exact Hmr1|]. split; [exact Hco|].
    split; [rewrite Hlast; exact Hmr1|]. split; [|exact Hmr2].
    apply Hstay; [rewrite Hlast; exact Hmr1 | rewrite Hcb1; exact Hcb].
Qed.

Lemma return_leg_witness :
  (exists w1 d1,
     _Drone__buffer
       (Drone_update_packets (sample_simulator "QL") two_deadlines
          long_diverted_drone 151).2 = []
     /\ Drone_move taxicab_distance
          (Drone_update_packets (sample_simulator "QL") two_deadlines
             long_diverted_drone 151).1
          (Drone_update_packets (sample_simulator "QL") two_deadlines
             long_diverted_drone 151).2 1 = Return (w1, d1)
     /\ move_routing d1 = false
     /\ (come_back_to_mission d1 = true
         \/ (coords d1 = (20, 0)%Q /\ come_back_to_mission d1 = false)))
  /\ exists w1 d1 w2 d2,
       Drone_move taxicab_distance three_packets drone_at_depot 1
       = Return (w1, d1)
       /\ Drone_move taxicab_distance w1 d1 1 = Return (w2, d2)
       /\ move_routing d1 = false /\ coords d1 = (0, 0)%Q
       /\ come_back_to_mission d2 = false.
Proof.
  split.
  - destruct (Drone_move taxicab_distance
                (Drone_update_packets (sample_simulator "QL") two_deadlines
                   long_diverted_drone 151).1
                (Drone_update_packets (sample_simulator "QL") two_deadlines
                   long_diverted_drone 151).2 1)
      as [[w1 d1]| | |] eqn:Hmove;
      try (vm_compute in Hmove; discriminate Hmove).
    assert (Hempty : _Drone__buffer
                       (Drone_update_packets (sample_simulator "QL")
                          two_deadlines long_diverted_drone 151).2 = [])
      by (vm_compute; reflexivity).
    destruct (return_leg taxicab_distance (sample_simulator "QL")
                two_deadlines w1 w1 long_diverted_drone d1 d1 151 1
                (20, 0)%Q) as (Hback & _).
    destruct (Hback eq_refl eq_refl eq_refl Hempty Hmove) as (_ & Hmr & Hcb).
    exists w1, d1. split; [exact Hempty|]. split; [reflexivity|].
    split; [exact Hmr | exact Hcb].
  - destruct (Drone_move taxicab_distance three_packets drone_at_depot 1)
      as [[w1 d1]| | |] eqn:Hmove1;
      try (vm_compute in Hmove1; discriminate Hmove1).
    destruct (Drone_move taxicab_distance w1 d1 1)
      as [[w2 d2]| | |] eqn:Hmove2.
    + destruct (return_leg taxicab_distance (sample_simulator "QL")
                  three_packets w1 w2 drone_at_depot d1 d2 0 1 (10, 0)%Q)
        as (_ & Hdepot).
      destruct (Hdepot eq_refl eq_refl eq_refl Hmove1 Hmove2)
        as (Hmr1 & Hco & _ & Hcb2 & _).
      exists w1, d1, w2, d2. split; [reflexivity|]. split; [exact Hmove2|].
      split; [exact Hmr1|]. split; [exact Hco | exact Hcb2].
    + exfalso. vm_compute in Hmove1. injection Hmove1 as <- <-.
      vm_compute in Hmove2. discriminate Hmove2.
    + exfalso. vm_compute in Hmove1. injection Hmove1 as <- <-.
      vm_compute in Hmove2. discriminate Hmove2.
    + exfalso. vm_compute in Hmove1. injection Hmove1 as <- <-.
      vm_compute in Hmove2. discriminate Hmove2.
Defined.

(** Rounding keeps what is below an exact negative number below it. *)
Lemma round_le (q hi : Q) :
  Float.is_exact hi -> (hi < 0)%Q -> (q <= hi)%Q ->
  Float.round q = Float.infinity true
  \/ exists r, Float.round q = Float.finite r /\ (r <= hi)%Q.
Proof.
  intros Hex Hhi Hq. pose proof (nearest_le q hi Hq) as Hn.
  unfold Float.is_exact in Hex. pose proof (pow2_pos 1024) as Hh.
  fold Float.huge in Hh.
  destruct (round_cases q) as [[H _] | [[_ H] | [_ H]]].
  - lra.
  - left. exact H.
  - right. exists (Float.nearest q). split; [exact H | lra].
Qed.

Lemma negative_true (q : Q) : (q < 0)%Q -> Float.negative q = true.
Proof.
  intros H. unfold Float.negative. apply negb_true_iff.
  apply not_true_is_false. intros Hle. apply Qle_bool_iff in Hle. lra.
Qed.

Lemma exact_1 : Float.is_exact 1.
Proof. apply (exact_Z 1). vm_compute. discriminate. Qed.

Lemma round_ge_1 (q : Q) : (1 <= q)%Q -> Float.le 1 (Float.round q).
Proof.
  intros H.
  destruct (round_ge q 1 exact_1 ltac:(reflexivity) H) as [-> | (r & -> & Hr)].
  - reflexivity.
  - apply Float_le_finite. exact Hr.
Qed.

(** A displacement that covers a distance held as a float gives a fraction
    of at least 1. *)
Lemma fraction_covers (time speed d : Q) :
  Float.is_exact d -> ~ (d == 0)%Q -> (1 <= time * speed / d)%Q ->
  Float.le 1 (fraction time speed d).
Proof.
  intros Hex Hd0 Hcov. unfold fraction. cbn [Float.mul].
  assert (Hts : (time * speed == time * speed / d * d)%Q) by (field; exact Hd0).
  destruct (Qlt_le_dec 0 d) as [Hpos | Hneg].
  - assert (Hge : (d <= time * speed)%Q) by nra.
    destruct (round_ge (time * speed) d Hex Hpos Hge) as [-> | (r & -> & Hr)].
    + cbn [Float.div]. rewrite negative_false by lra. reflexivity.
    + cbn [Float.div]. apply round_ge_1.
      apply Qle_shift_div_l; [exact Hpos | lra].
  - assert (Hlt : (d < 0)%Q).
    { apply Qle_lteq in Hneg. destruct Hneg as [H | H];
        [exact H | contradiction]. }
    assert (Hle : (time * speed <= d)%Q) by nra.
    destruct (round_le (time * speed) d Hex Hlt Hle) as [-> | (r & -> & Hr)].
    + cbn [Float.div]. rewrite negative_true by exact Hlt. reflexivity.
    + cbn [Float.div]. apply round_ge_1.
      assert (Hr' : (r == r / d * d)%Q) by (field; exact Hd0).
      apply Qnot_lt_le. intros Hc. nra.
Qed.

(** A null displacement gives a null fraction. *)
Lemma fraction_null (time speed d : Q) :
  Float.eqb (Float.mul time speed) 0 = true ->
  fraction time speed d = Float.finite 0.
Proof.
  unfold fraction. cbn [Float.mul].
  destruct (Float.round (time * speed)) as [a|[]|]; cbn [Float.eqb];
    try discriminate.
  intros H. apply Qeq_bool_iff in H. cbn [Float.div].
  apply round_0. rewrite H. unfold Qdiv. ring.
Qed.

Lemma reaches_cond (dist : coordinates -> coordinates -> Q)
    (self : Drone) (time : Q) (p1 : coordinates) :
  reaches dist self time p1 ->
  Qeq_bool (dist (coords self) p1) 0
  || Float.eqb (Float.mul time (speed self)) 0
  || Float.leb 1 (fraction time (speed self) (dist (coords self) p1))
  = true.
Proof.
  unfold reaches. cbv zeta.
  destruct (Qeq_bool (dist (coords self) p1) 0) eqn:Hd0; [reflexivity|].
  apply Qeq_bool_neq in Hd0. cbn [orb].
  intros [H | [H | [H | [H | [Hex H]]]]].
  - contradiction.
  - rewrite H. reflexivity.
  - unfold Float.le in H. rewrite H. apply orb_true_r.
  - cbn [Float.mul]. rewrite (round_0 _ H). reflexivity.
  - rewrite (fraction_covers _ _ _ Hex Hd0 H). apply orb_true_r.
Qed.

(** X21. Reaching the point it heads for.  When the point is at distance 0,
    when the displacement of the tick is null (a null speed, a null tick, or
    a product that rounds to 0), or when the fraction of the distance that
    the tick covers, as the float the code computes, is at least 1 (as it is
    when the displacement covers a distance held as a float), the drone is
    put exactly on the point [next_target] names.  On its mission its
    waypoint becomes the next index of the path, 0 after the last, and it
    stands on that waypoint; coming back, it is on its mission again and its
    waypoint is not advanced. *)
Theorem mission_arrival (dist : coordinates -> coordinates -> Q)
    (self : Drone) (time : Q) (p1 : coordinates) :
  well_formed self -> move_routing self = false ->
  Drone_next_target self = Return (Some p1) ->
  reaches dist self time p1 ->
  exists d',
    _Drone__move_to_mission dist self time = Return d'
    /\ coords d' = p1 /\ come_back_to_mission d' = false
    /\ (come_back_to_mission self = true ->
        current_waypoint d'
        = (if current_waypoint self >=? Z.of_nat (length (path self)) - 1
           then -1 else current_waypoint self))
    /\ (come_back_to_mission self = false ->
        current_waypoint d'
        = (if current_waypoint self >=? Z.of_nat (length (path self)) - 1
           then 0 else current_waypoint self + 1)
        /\ 0 <= current_waypoint d' < Z.of_nat (length (path d'))
        /\ getitem (path d') (current_waypoint d') = Some (coords d')).
Proof.
  intros Hwf Hm Ht Harr.
  rewrite (move_to_mission_step dist self time p1 Hm Ht).
  rewrite (reaches_cond dist self time p1 Harr).
  eexists. split; [reflexivity|].
  destruct (arrived_fields self p1)
    as (_ & Hco & _ & Hpath & _ & _ & _ & _ & Hcb & Hcw).
  pose proof Hwf as (Hp & Hb & _).
  destruct (wrapped_waypoint self Hp Hb) as (Hwb & Hweq).
  split; [exact Hco|]. split; [exact Hcb|]. split.
  - intros Hback. rewrite Hcw, Hback. exact Hweq.
  - intros Hon. rewrite Hcw, Hon, Hpath, Hco.
    assert (Hidx : current_waypoint (wrapped self) + 1
                   = if current_waypoint self
                        >=? Z.of_nat (length (path self)) - 1
                     then 0 else current_waypoint self + 1)
      by (rewrite Hweq; destruct (_ >=? _); reflexivity).
    split; [exact Hidx|]. split; [lia|].
    pose proof (next_target_heading self p1 Hm Ht) as Hhead.
    unfold heading in Hhead.
    rewrite (proj1 (proj2 (proj2 (proj2 (wrapped_fields self))))), Hon in Hhead.
    unfold index_path in Hhead.
    rewrite (proj1 (proj2 (wrapped_fields self))) in Hhead.
    destruct (getitem (path self) (current_waypoint (wrapped self) + 1));
      congruence.
Qed.

Lemma mission_arrival_witness :
  let last := set_coords (set_current_waypoint patrol_drone 1) (10, 0)%Q in
  let idle := set_coords patrol_drone (3, 0)%Q in
  (exists d',
     _Drone__move_to_mission taxicab_distance last 2 = Return d'
     /\ coords d' = (0, 0)%Q /\ current_waypoint d' = 0)
  /\ exists d',
       _Drone__move_to_mission taxicab_distance idle 0 = Return d'
       /\ coords d' = (10, 0)%Q /\ current_waypoint d' = 1.
Proof.
  cbv zeta. split.
  - destruct (mission_arrival taxicab_distance
                (set_coords (set_current_waypoint patrol_drone 1) (10, 0)%Q)
                2 (0, 0)%Q) as (d' & Hd & Hco & _ & _ & Hon).
    + unfold well_formed. cbn. split; [discriminate|]. split; [lia|].
      intros [H | H]; discriminate H.
    + reflexivity.
    + reflexivity.
    + right. right. right. right.
      split; [vm_compute; reflexivity | vm_compute; discriminate].
    + exists d'. split; [exact Hd|]. split; [exact Hco|].
      destruct (Hon eq_refl) as (Hcw & _). rewrite Hcw. reflexivity.
  - destruct (mission_arrival taxicab_distance
                (set_coords patrol_drone (3, 0)%Q)
                0 (10, 0)%Q) as (d' & Hd & Hco & _ & _ & Hon).
    + unfold well_formed. cbn. split; [discriminate|]. split; [lia|].
      intros [H | H]; discriminate H.
    + reflexivity.
    + reflexivity.
    + right. right. right. left. reflexivity.
    + exists d'. split; [exact Hd|]. split; [exact Hco|].
      destruct (Hon eq_refl) as (Hcw & _). rewrite Hcw. reflexivity.
Defined.

Lemma getitem_Some_signed {A : Type} (l : list A) (i : Z) :
  - Z.of_nat (length l) <= i < Z.of_nat (length l) ->
  exists x, getitem l i = Some x.
Proof.
  intros [H0 H1]. destruct (Z.le_gt_cases 0 i) as [Hpos | Hneg].
  - apply getitem_Some. lia.
  - unfold getitem.
    destruct (Z.leb_spec 0 i); [lia|]. cbn [andb].
    destruct (Z.leb_spec (- Z.of_nat (length l)) i); [|lia].
    destruct (Z.ltb_spec i 0); [|lia]. cbn [andb].
    destruct (lookup_lt_is_Some_2 l (Z.to_nat (Z.of_nat (length l) + i)))
      as [x Hx]; [lia|].
    exists x. exact Hx.
Qed.

(** X22. [next_move_to_mission_point] against the movement it foresees,
    for a drone on its mission and a tick of the duration of the simulation.
    While the drone is on its way (the fraction the code computes is strictly
    between 0 and 1) the call ends as [__move_to_mission] does, and the point
    foreseen is where the movement puts the drone; both return when the
    coordinates are far from the largest float.  When the drone reaches the
    point it heads for, the movement puts it on that point, and the point
    foreseen is the waypoint of the index before it, the one the drone is
    leaving (the last of the path when the patrol wraps). *)
Theorem next_move_prediction (dist : coordinates -> coordinates -> Q)
    (sim : Simulator) (self : Drone) (p1 : coordinates) :
  well_formed self -> move_routing self = false ->
  come_back_to_mission self = false ->
  Drone_next_target self = Return (Some p1) ->
  let time := time_step_duration sim in
  let t := fraction time (speed self) (dist (coords self) p1) in
  let leaving :=
    if current_waypoint self >=? Z.of_nat (length (path self)) - 1
    then -1 else current_waypoint self in
  (~ (dist (coords self) p1 == 0)%Q -> Float.lt 0 t -> Float.lt t 1 ->
   Drone_next_move_to_mission_point dist sim self
   = (d' ← _Drone__move_to_mission dist self time;
      Return (coords (Drone_entity d')))
   /\ (moderate_point (coords self) -> moderate_point p1 ->
       exists d',
         _Drone__move_to_mission dist self time = Return d'
         /\ Drone_next_move_to_mission_point dist sim self
            = Return (coords d')))
  /\ (reaches dist self time p1 ->
      exists d' q,
        _Drone__move_to_mission dist self time = Return d'
        /\ coords d' = p1
        /\ getitem (path self) (leaving + 1) = Some p1
        /\ Drone_next_move_to_mission_point dist sim self = Return q
        /\ getitem (path self) leaving = Some q).
Proof.
  intros Hwf Hm Hcb Ht time t leaving.
  pose proof Hwf as (Hp & Hb & _).
  destruct (wrapped_waypoint self Hp Hb) as (Hwb & Hweq).
  fold leaving in Hweq.
  pose proof (next_target_heading self p1 Hm Ht) as Hhead.
  unfold heading in Hhead.
  rewrite (proj1 (proj2 (proj2 (proj2 (wrapped_fields self))))), Hcb in Hhead.
  unfold index_path in Hhead.
  rewrite (proj1 (proj2 (wrapped_fields self))), Hweq in Hhead.
  assert (Hp1 : getitem (path self) (leaving + 1) = Some p1)
    by (destruct (getitem (path self) (leaving + 1)); congruence).
  pose proof (move_to_mission_step dist self time p1 Hm Ht) as Hstep.
  cbv zeta in Hstep. fold t in Hstep.
  assert (Hidx1 : index_path self (leaving + 1) = Return p1)
    by (unfold index_path; rewrite Hp1; reflexivity).
  unfold Drone_next_move_to_mission_point. fold leaving.
  rewrite Hidx1. cbn [mbind result_bind].
  fold time. fold (fraction time (speed self) (dist (coords self) p1)).
  fold t.
  split.
  - intros Hd0 Hpos Hlt. rewrite Hstep.
    assert (Hno : Qeq_bool (dist (coords self) p1) 0
                  || Float.eqb (Float.mul time (speed self)) 0 = false).
    { apply orb_false_iff. split; apply not_true_is_false; intros H.
      - apply Qeq_bool_iff in H. contradiction.
      - apply (fraction_null _ _ (dist (coords self) p1)) in H.
        fold t in H. rewrite H in Hpos. discriminate Hpos. }
    rewrite Hno, (Float_lt_not_le _ _ Hlt), (Float_lt_not_le _ _ Hpos).
    cbn [orb]. split.
    + destruct (interpolate t (coords self) p1); reflexivity.
    + intros Hm0 Hm1.
      destruct (fraction_between t (fraction_not_nan _ _ _)
                  (Float_lt_not_le _ _ Hlt) (Float_lt_not_le _ _ Hpos))
        as (q & Eq & Hq).
      rewrite Eq.
      destruct (interpolate_returns q (coords self) p1 Hq Hm0 Hm1)
        as (c & ->).
      cbn [mbind result_bind]. eexists. split; reflexivity.
  - intros Harr. rewrite Hstep.
    destruct (getitem_Some_signed (path self) leaving) as [q Hq]; [lia|].
    assert (Hidx : index_path self leaving = Return q)
      by (unfold index_path; rewrite Hq; reflexivity).
    pose proof (reaches_cond dist self time p1 Harr) as Hcond.
    fold t in Hcond. rewrite Hcond.
    exists (arrived self p1), q.
    split; [reflexivity|].
    split; [apply (arrived_fields self p1)|]. split; [exact Hp1|].
    split; [|exact Hq].
    destruct (Qeq_bool (dist (coords self) p1) 0
              || Float.eqb (Float.mul time (speed self)) 0);
      cbn [orb] in Hcond |- *; [exact Hidx|].
    rewrite Hcond. exact Hidx.
Qed.

Lemma next_move_prediction_witness :
  let sim := sample_simulator "QL" in
  (exists d',
     _Drone__move_to_mission taxicab_distance patrol_drone 1 = Return d'
     /\ Drone_next_move_to_mission_point taxicab_distance sim patrol_drone
        = Return (coords d'))
  /\ exists d',
       _Drone__move_to_mission taxicab_distance
         (set_coords patrol_drone (5, 0)%Q) 1 = Return d'
       /\ coords d' = (10, 0)%Q
       /\ Drone_next_move_to_mission_point taxicab_distance sim
            (set_coords patrol_drone (5, 0)%Q) = Return (0, 0)%Q.
Proof.
  cbv zeta.
  assert (Hwf : forall c, well_formed (set_coords patrol_drone c)).
  { intros c. unfold well_formed. cbn. split; [discriminate|].
    split; [lia|]. intros [H | H]; discriminate H. }
  split.
  - destruct (next_move_prediction taxicab_distance (sample_simulator "QL")
                patrol_drone (10, 0)%Q (Hwf (0, 0)%Q) eq_refl eq_refl eq_refl)
      as (Hway & _).
    apply Hway; vm_compute;
      first [reflexivity | discriminate | intros H; discriminate H
            | split; discriminate].
  - destruct (next_move_prediction taxicab_distance (sample_simulator "QL")
                (set_coords patrol_drone (5, 0)%Q) (10, 0)%Q
                (Hwf (5, 0)%Q) eq_refl eq_refl eq_refl) as (_ & Harr).
    destruct Harr as (d' & q & Hd & Hco & _ & Hq & Hget).
    + right. right. right. right.
      split; [vm_compute; reflexivity | vm_compute; discriminate].
    + exists d'. split; [exact Hd|]. split; [exact Hco|].
      rewrite Hq. vm_compute in Hget. injection Hget as <-. reflexivity.
Defined.

(** ** Identity of entities along a run *)







